(** * lsstseries.timeseries: the Stetson mean and the Stetson J statistic

    A shallow embedding of [src/lsstseries/timeseries.py].  The class
    [timeseries] wraps a pandas data frame indexed by band and offers

    - [_stetson_mean]: an iteratively reweighted mean of an array of values,
    - [stetson_J]: the single band Stetson J statistic,
    - [stetson_J_multi]: [stetson_J] once per distinct band of the frame.

    The arithmetic of the source is NumPy's.  It is kept behind the
    interface [NumPy], with two implementations: [float64], IEEE 754
    binary64 as the kernel's primitive floats compute it, which is what the
    program runs; and [exact], the real numbers, which is what the
    algorithm computes when no operation rounds.  Every function of the
    source is written once, over the interface. *)

From Stdlib Require Import ZArith List String Bool Lia Permutation Sorted.
From Stdlib Require Import Reals Lra.
From Stdlib Require Import Floats.
From Stdlib Require Uint63.
Import ListNotations.

#[local] Set Warnings "-inexact-float".
#[local] Open Scope Z_scope.

(** ** Exceptions and results *)

(** What a call can raise.  [ZeroDivisionError] and [KeyError] are the two
    exceptions the source can raise on the paths modelled here;
    [InvalidInputSize] and [InvalidUncertainty] are the error names of the
    specification, for which the source has no class and no [raise]. *)
Inductive exn : Type :=
| ZeroDivisionError
| KeyError (key : string)
| InvalidInputSize
| InvalidUncertainty.

Inductive result (A : Type) : Type :=
| Ok (a : A)
| Raise (e : exn).

Arguments Ok {A} a.
Arguments Raise {A} e.

Definition bind {A B : Type} (c : result A) (k : A -> result B) : result B :=
  match c with
  | Ok a => k a
  | Raise e => Raise e
  end.

Notation "x <- c ;; k" := (bind c (fun x => k))
  (at level 61, c at next level, right associativity).

Definition returns {A : Type} (c : result A) : bool :=
  match c with Ok _ => true | Raise _ => false end.

(** ** The NumPy interface *)

(** The scalar operations the source applies to [float64] values (each is
    a NumPy ufunc applied elementwise, or its scalar form), and the one
    reduction, [np.sum]. *)
Class NumPy (F : Type) : Type := {
  float_of_int : Z -> F;
  np_add : F -> F -> F;
  np_subtract : F -> F -> F;
  np_multiply : F -> F -> F;
  np_divide : F -> F -> F;
  np_power : F -> F -> F;
  np_sqrt : F -> F;
  np_fabs : F -> F;
  np_less : F -> F -> bool;
  np_equal : F -> F -> bool;
  np_sum : list F -> F
}.

(** *** binary64 *)

(** [float(z)], exact for the lengths of arrays (below 2^53). *)
Definition float_of_Z (z : Z) : float :=
  match z with
  | Z0 => 0%float
  | Zpos _ => PrimFloat.of_uint63 (Uint63.of_Z z)
  | Zneg p => PrimFloat.opp (PrimFloat.of_uint63 (Uint63.of_Z (Zpos p)))
  end.

(** [x ** y]: NumPy squares when the exponent is the scalar 2; what it
    computes for another exponent is the parameter [pow_other]. *)
Definition float_power (pow_other : float -> float -> float) (x y : float) : float :=
  if PrimFloat.eqb y 2%float then PrimFloat.mul x x else pow_other x y.

(** [np.sum] of a one-dimensional array, added in index order from 0.0.
    (NumPy adds blocks of eight and more elements pairwise; the arrays
    evaluated in this file are shorter.) *)
Definition float_sum (a : list float) : float :=
  fold_left PrimFloat.add a 0%float.

Definition float64_with (pow_other : float -> float -> float) : NumPy float := {|
  float_of_int := float_of_Z;
  np_add := PrimFloat.add;
  np_subtract := PrimFloat.sub;
  np_multiply := PrimFloat.mul;
  np_divide := PrimFloat.div;
  np_power := float_power pow_other;
  np_sqrt := PrimFloat.sqrt;
  np_fabs := PrimFloat.abs;
  np_less := PrimFloat.ltb;
  np_equal := PrimFloat.eqb;
  np_sum := float_sum
|}.

(** The source raises to the power 2 ([errors ** 2], [delta_val ** 2],
    and [beta = 2.] by default): the instance for evaluation gives no
    value to the other powers, and what is proved of binary64 for an
    arbitrary [beta] is proved of [float64_with pow_other]. *)
#[export] Instance float64 : NumPy float :=
  float64_with (fun _ _ => PrimFloat.nan).

(** The value [x] of the specification of binary64 has the sign bit [s]
    (it is a zero, a finite number or an infinity, and not a NaN). *)
Definition sign_is (s : bool) (x : spec_float) : Prop :=
  match x with
  | S754_zero s' | S754_infinity s' | S754_finite s' _ _ => s' = s
  | S754_nan => False
  end.

(** *** Exact arithmetic *)

(** The real numbers, with the total division of the Standard Library
    ([x / 0] is [x * / 0]) and, for an exponent other than 2, its [Rpower]
    (the power of a positive base).  What is proved in exact arithmetic
    below either has no zero divisor or does not depend on its quotient. *)

Definition Rless (x y : R) : bool := if Rlt_dec x y then true else false.
Definition Requal (x y : R) : bool := if Req_dec_T x y then true else false.
Definition Rpower2 (x y : R) : R :=
  if Req_dec_T y 2%R then (x * x)%R else Rpower x y.
Definition Rsum (a : list R) : R := fold_left Rplus a 0%R.

#[export] Instance exact : NumPy R := {|
  float_of_int := IZR;
  np_add := Rplus;
  np_subtract := Rminus;
  np_multiply := Rmult;
  np_divide := Rdiv;
  np_power := Rpower2;
  np_sqrt := R_sqrt.sqrt;
  np_fabs := Rabs;
  np_less := Rless;
  np_equal := Requal;
  np_sum := Rsum
|}.

(** ** Arrays *)

Section Arrays.

Context {F : Type} {np : NumPy F}.

(** A binary ufunc on two arrays of one shape. *)
Fixpoint elementwise (f : F -> F -> F) (a b : list F) : list F :=
  match a, b with
  | x :: a', y :: b' => f x y :: elementwise f a' b'
  | _, _ => []
  end.

Definition len {A : Type} (a : list A) : Z := Z.of_nat (List.length a).

(** [a / b] on two [int]s: true division. *)
Definition py_truediv (a b : Z) : result F :=
  if b =? 0 then Raise ZeroDivisionError
  else Ok (np_divide (float_of_int a) (float_of_int b)).

(** [np.average(a, weights=w)]:
    [scl = w.sum()], [ZeroDivisionError] if [scl == 0.0], else
    [np.multiply(a, w).sum() / scl]. *)
Definition np_average (a w : list F) : result F :=
  let scl := np_sum w in
  if np_equal scl (float_of_int 0) then Raise ZeroDivisionError
  else Ok (np_divide (np_sum (elementwise np_multiply a w)) scl).

(** [np.sum] gives one result on all the orders of an array of [n]
    elements. *)
Definition sum_order_free (n : nat) : Prop :=
  forall a b : list F,
    List.length a = n -> Permutation a b -> np_sum a = np_sum b.

(** [np.mean(a)]: the sum over the number of elements. *)
Definition np_mean (a : list F) : F :=
  np_divide (np_sum a) (float_of_int (len a)).

(** [np.sign]: -1, 0 or 1, and the argument itself when it is not ordered
    with 0 (a NaN). *)
Definition np_sign (x : F) : F :=
  if np_less x (float_of_int 0) then float_of_int (-1)
  else if np_less (float_of_int 0) x then float_of_int 1
  else if np_equal x (float_of_int 0) then float_of_int 0
  else x.

End Arrays.

(** ** The estimators *)

Section Stetson.

Context {F : Type} {np : NumPy F}.

(** [inv_var = 1 / errors ** 2] *)
Definition inv_var_of (errors : list F) : list F :=
  map (fun e => np_divide (float_of_int 1) (np_power e (float_of_int 2))) errors.

(** [chi = np.fabs(n_factor * (values - mean) / errors)] *)
Definition chi_of (n_factor : F) (values errors : list F) (mean : F) : list F :=
  map np_fabs
      (elementwise np_divide
         (map (fun v => np_multiply n_factor (np_subtract v mean)) values)
         errors).

(** [inv_var / (1 + (chi / alpha) ** beta)] *)
Definition weights_of (alpha beta : F) (inv_var chi : list F) : list F :=
  elementwise np_divide inv_var
    (map (fun c => np_add (float_of_int 1) (np_power (np_divide c alpha) beta)) chi).

(** One element of [inv_var], and one element of the weights of a pass
    around [mean]: the weight of the observation [p = (value, error)]. *)
Definition inv_var1 (e : F) : F :=
  np_divide (float_of_int 1) (np_power e (float_of_int 2)).

Definition pass_weight (alpha beta n_factor mean : F) (p : F * F) : F :=
  np_divide (inv_var1 (snd p))
    (np_add (float_of_int 1)
       (np_power
          (np_divide
             (np_fabs (np_divide (np_multiply n_factor (np_subtract (fst p) mean))
                                 (snd p)))
             alpha)
          beta)).

(** The [np.average] of one pass of the loop. *)
Definition reweighted_mean (alpha beta n_factor : F)
    (values errors inv_var : list F) (mean : F) : result F :=
  np_average values
    (weights_of alpha beta inv_var (chi_of n_factor values errors mean)).

(** The weights of a pass around [mean] sum to zero: the condition under
    which its [np.average] raises. *)
Definition zero_weights (alpha beta n_factor : F) (values errors : list F)
    (mean : F) : Prop :=
  np_equal
    (np_sum (weights_of alpha beta (inv_var_of errors)
               (chi_of n_factor values errors mean)))
    (float_of_int 0) = true.

(** [diff / mean < tol and diff < tol] *)
Definition converged (diff mean tol : F) : bool :=
  np_less (np_divide diff mean) tol && np_less diff tol.

(** [for iter_idx in range(n_iter): ...], with the number of passes begun
    so far carried along. *)
Fixpoint stetson_loop (alpha beta tol n_factor : F)
    (values errors inv_var : list F)
    (n_iter : nat) (mean : F) (passes : nat) : result (F * nat) :=
  match n_iter with
  | O => Ok (mean, passes)
  | S n_iter' =>
      tmp_mean <- reweighted_mean alpha beta n_factor values errors inv_var mean ;;
      let diff := np_fabs (np_subtract tmp_mean mean) in
      let mean := tmp_mean in
      if converged diff mean tol then Ok (mean, S passes)
      else stetson_loop alpha beta tol n_factor values errors inv_var
             n_iter' mean (S passes)
  end.

(** [_stetson_mean], returning the mean together with the number of
    reweighting passes it made. *)
Definition stetson_mean_passes (values errors : list F) (mean : option F)
    (alpha beta : F) (n_iter : nat) (tol : F) : result (F * nat) :=
  let n_points := len values in
  q <- py_truediv n_points (n_points - 1) ;;
  let n_factor := np_sqrt q in
  let inv_var := inv_var_of errors in
  mean <- match mean with
          | None => np_average values inv_var
          | Some m => Ok m
          end ;;
  stetson_loop alpha beta tol n_factor values errors inv_var n_iter mean 0%nat.

Definition _stetson_mean (values errors : list F) (mean : option F)
    (alpha beta : F) (n_iter : nat) (tol : F) : result F :=
  r <- stetson_mean_passes values errors mean alpha beta n_iter tol ;;
  Ok (fst r).

(** The defaults of [_stetson_mean]: [alpha=2.], [beta=2.], [n_iter=20],
    [tol=1e-6]. *)
Definition default_alpha : F := float_of_int 2.
Definition default_beta : F := float_of_int 2.
Definition default_n_iter : nat := 20.
Definition default_tol : F := np_divide (float_of_int 1) (float_of_int 1000000).

(** [stetson_J(fluxes, errors)] *)
Definition stetson_J (fluxes errors : list F) : result F :=
  let mean := None in
  let n_points := len fluxes in
  flux_mean <- _stetson_mean fluxes errors mean
                 default_alpha default_beta default_n_iter default_tol ;;
  q <- py_truediv n_points (n_points - 1) ;;
  let delta_val :=
    elementwise np_divide
      (map (fun f => np_multiply (np_sqrt q) (np_subtract f flux_mean)) fluxes)
      errors in
  let p_k :=
    map (fun d => np_subtract (np_power d (float_of_int 2)) (float_of_int 1))
        delta_val in
  Ok (np_mean (map (fun p => np_multiply (np_sign p) (np_sqrt (np_fabs p))) p_k)).

End Stetson.

(** ** The [timeseries] object *)

(** [np.unique] of an array of labels: sorted, each label once. *)
Fixpoint insert_label (x : string) (l : list string) : list string :=
  match l with
  | [] => [x]
  | y :: l' => if String.leb x y then x :: l else y :: insert_label x l'
  end.

Definition sort_labels (l : list string) : list string :=
  fold_right insert_label [] l.

(** The mask [ar[1:] != ar[:-1]] of [np.unique], applied. *)
Fixpoint drop_repeats (prev : string) (l : list string) : list string :=
  match l with
  | [] => []
  | y :: l' =>
      if String.eqb y prev then drop_repeats y l' else y :: drop_repeats y l'
  end.

Definition np_unique (l : list string) : list string :=
  match sort_labels l with
  | [] => []
  | x :: l' => x :: drop_repeats x l'
  end.

(** The order of labels: [str] comparison, by code point. *)
Definition label_le (a b : string) : Prop := String.leb a b = true.
Definition label_lt (a b : string) : Prop := String.ltb a b = true.

(** A Python [dict] with [str] keys, in insertion order. *)
Definition dict (V : Type) : Type := list (string * V).

Fixpoint dict_get {V : Type} (d : dict V) (k : string) : option V :=
  match d with
  | [] => None
  | (k', v) :: d' => if String.eqb k' k then Some v else dict_get d' k
  end.

(** [d[k] = v] *)
Fixpoint dict_set {V : Type} (d : dict V) (k : string) (v : V) : dict V :=
  match d with
  | [] => [(k, v)]
  | (k', v') :: d' =>
      if String.eqb k' k then (k', v) :: d' else (k', v') :: dict_set d' k v
  end.

Definition keys {V : Type} (d : dict V) : list string := map fst d.

Section Timeseries.

Context {F : Type} {np : NumPy F}.

(** A data frame under a [MultiIndex] with the levels [band] and [index]:
    one index entry per row, and the columns by name. *)
Record DataFrame : Type := {
  index : list (string * Z);
  columns : dict (list F)
}.

(** [df[label]] *)
Definition getitem (df : DataFrame) (label : string) : result (list F) :=
  match dict_get (columns df) label with
  | Some column => Ok column
  | None => Raise (KeyError label)
  end.

(** The rows of an array whose index entry is in [band]. *)
Fixpoint take_band {A : Type} (band : string) (idx : list (string * Z))
    (rows : list A) : list A :=
  match idx, rows with
  | (b, _) :: idx', r :: rows' =>
      if String.eqb b band then r :: take_band band idx' rows'
      else take_band band idx' rows'
  | _, _ => []
  end.

(** [df.loc[band]]: the rows of the first index level [band]. *)
Definition loc (df : DataFrame) (band : string) : result DataFrame :=
  if existsb (fun i => String.eqb (fst i) band) (index df) then
    Ok {| index := take_band band (index df) (index df);
          columns := map (fun c => (fst c, take_band band (index df) (snd c)))
                         (columns df) |}
  else Raise (KeyError band).

(** The attributes [__init__] sets, [data], [meta] and [colmap], and
    [cols], which only [_from_ensemble] sets. *)
Record timeseries : Type := {
  data : DataFrame;
  meta : dict (option Z);
  colmap : dict (option string);
  cols : option (list string)
}.

(** [self.colmap[quantity]] *)
Definition colmap_get (self : timeseries) (quantity : string)
  : result (option string) :=
  match dict_get (colmap self) quantity with
  | Some label => Ok label
  | None => Raise (KeyError quantity)
  end.

(** The property [flux]: [self.data[self.colmap['flux']]]. *)
Definition flux (self : timeseries) : result (list F) :=
  label <- colmap_get self "flux" ;;
  match label with
  | Some l => getitem (data self) l
  | None => Raise (KeyError "None")
  end.

(** The property [flux_err]: the column [self.colmap['flux_err']], or
    [None] when no error column is mapped. *)
Definition flux_err (self : timeseries) : result (option (list F)) :=
  label <- colmap_get self "flux_err" ;;
  match label with
  | Some l => column <- getitem (data self) l ;; Ok (Some column)
  | None => Ok None
  end.

(** The property [band]: [self.data.index.get_level_values('band')]. *)
Definition band (self : timeseries) : list string :=
  map fst (index (data self)).

(** The right-hand side of [result[band] = self.stetson_J(fluxes, errors)],
    with the two assignments before it. *)
Definition band_statistic (self : timeseries) (band : string) : result F :=
  rows <- loc (data self) band ;;
  fluxes <- getitem rows "psFlux" ;;
  rows <- loc (data self) band ;;
  errors <- getitem rows "psFluxErr" ;;
  stetson_J fluxes errors.

(** [for band in unq_band: ...] of [stetson_J_multi]. *)
Fixpoint stetson_J_multi_loop (self : timeseries) (unq_band : list string)
    (result_ : dict F) : result (dict F) :=
  match unq_band with
  | [] => Ok result_
  | band :: unq_band' =>
      j <- band_statistic self band ;;
      stetson_J_multi_loop self unq_band' (dict_set result_ band j)
  end.

Definition stetson_J_multi (self : timeseries) : result (dict F) :=
  let unq_band := np_unique (band self) in
  let result_ := [] in
  stetson_J_multi_loop self unq_band result_.

(** The loop of [_from_ensemble] over
    [zip(labels, list(self.colmap.keys()))]. *)
Fixpoint map_labels (data : DataFrame) (pairs : list (option string * string))
    (colmap : dict (option string)) : result (dict (option string)) :=
  match pairs with
  | [] => Ok colmap
  | (label, quantity) :: pairs' =>
      match label with
      | None =>
          if String.eqb quantity "flux_err" then map_labels data pairs' colmap
          else Raise (KeyError "None")
      | Some l =>
          _ <- getitem data l ;;
          map_labels data pairs' (dict_set colmap quantity label)
      end
  end.

(** [_from_ensemble(data, object_id, time_label, flux_label, err_label)]:
    the object it returns. *)
Definition _from_ensemble (self : timeseries) (data : DataFrame)
    (object_id : Z) (time_label flux_label err_label : option string)
  : result timeseries :=
  let meta := dict_set (meta self) "id" (Some object_id) in
  let labels := [time_label; flux_label; err_label] in
  colmap <- map_labels data (combine labels (keys (colmap self))) (colmap self) ;;
  Ok {| data := data; meta := meta; colmap := colmap;
        cols := Some (keys (columns data)) |}.

(** [timeseries()]: the state [__init__] leaves, the frame apart. *)
Definition new_timeseries (data : DataFrame) : timeseries := {|
  data := data;
  meta := [("id"%string, None)];
  colmap := [("time"%string, None); ("flux"%string, None);
             ("flux_err"%string, None)];
  cols := None
|}.

End Timeseries.


(** ** The methods as calls on array objects *)

(** The estimators above are functions of the contents of their arrays.
    As methods they are called on an object, [self], with references to
    [ndarray]s; each arithmetic expression of their bodies makes a new
    array.  The calls below follow the bodies statement by statement over
    a store of arrays. *)

Section Calls.

Context {F : Type} {np : NumPy F}.

(** A reference to an [ndarray]. *)
Definition ndarray : Type := nat.

(** The object the method is called on, and the arrays alive. *)
Record state : Type := {
  self : timeseries (F := F);
  heap : list (list F)
}.

Definition call (A : Type) : Type := state -> result A * state.

Definition ret {A : Type} (a : A) : call A := fun st => (Ok a, st).

Definition lift {A : Type} (r : result A) : call A := fun st => (r, st).

Definition call_bind {A B : Type} (c : call A) (k : A -> call B) : call B :=
  fun st =>
    match c st with
    | (Ok a, st') => k a st'
    | (Raise e, st') => (Raise e, st')
    end.

Notation "x <~ c ;; k" := (call_bind c (fun x => k))
  (at level 61, c at next level, right associativity).

(** The contents of an array. *)
Definition load (a : ndarray) : call (list F) :=
  fun st => (Ok (nth a (heap st) []), st).

(** A new array. *)
Definition alloc (contents : list F) : call ndarray :=
  fun st => (Ok (List.length (heap st)),
             {| self := self st; heap := heap st ++ [contents] |}).

(** [f(a)], [a op b], [a op x] and [x op a] for arrays [a], [b] and a
    scalar [x]. *)
Definition ufunc1 (f : F -> F) (a : ndarray) : call ndarray :=
  va <~ load a ;; alloc (map f va).

Definition ufunc2 (f : F -> F -> F) (a b : ndarray) : call ndarray :=
  va <~ load a ;; vb <~ load b ;; alloc (elementwise f va vb).

Definition ufunc_scalar (f : F -> F -> F) (a : ndarray) (x : F) : call ndarray :=
  va <~ load a ;; alloc (map (fun y => f y x) va).

Definition scalar_ufunc (f : F -> F -> F) (x : F) (a : ndarray) : call ndarray :=
  va <~ load a ;; alloc (map (fun y => f x y) va).

(** [len(a)] *)
Definition call_len (a : ndarray) : call Z :=
  va <~ load a ;; ret (len va).

(** [np.average(a, weights=w)], which multiplies into a new array. *)
Definition call_np_average (a w : ndarray) : call F :=
  va <~ load a ;;
  vw <~ load w ;;
  let scl := np_sum vw in
  if np_equal scl (float_of_int 0) then lift (Raise ZeroDivisionError)
  else
    prod <~ ufunc2 np_multiply a w ;;
    vp <~ load prod ;;
    ret (np_divide (np_sum vp) scl).

(** [np.mean(a)] *)
Definition call_np_mean (a : ndarray) : call F :=
  va <~ load a ;; ret (np_mean va).

Fixpoint call_stetson_loop (alpha beta tol n_factor : F)
    (values errors inv_var : ndarray)
    (n_iter : nat) (mean : F) (passes : nat) : call (F * nat) :=
  match n_iter with
  | O => ret (mean, passes)
  | S n_iter' =>
      residual <~ ufunc_scalar np_subtract values mean ;;
      scaled <~ scalar_ufunc np_multiply n_factor residual ;;
      ratio <~ ufunc2 np_divide scaled errors ;;
      chi <~ ufunc1 np_fabs ratio ;;
      chi_alpha <~ ufunc_scalar np_divide chi alpha ;;
      chi_beta <~ ufunc_scalar np_power chi_alpha beta ;;
      denominator <~ scalar_ufunc np_add (float_of_int 1) chi_beta ;;
      weights <~ ufunc2 np_divide inv_var denominator ;;
      tmp_mean <~ call_np_average values weights ;;
      let diff := np_fabs (np_subtract tmp_mean mean) in
      let mean := tmp_mean in
      if converged diff mean tol then ret (mean, S passes)
      else call_stetson_loop alpha beta tol n_factor values errors inv_var
             n_iter' mean (S passes)
  end.

(** [self._stetson_mean(values, errors, mean, alpha, beta, n_iter, tol)] *)
Definition call_stetson_mean (values errors : ndarray) (mean : option F)
    (alpha beta : F) (n_iter : nat) (tol : F) : call F :=
  n_points <~ call_len values ;;
  q <~ lift (py_truediv n_points (n_points - 1)) ;;
  let n_factor := np_sqrt q in
  squares <~ ufunc_scalar np_power errors (float_of_int 2) ;;
  inv_var <~ scalar_ufunc np_divide (float_of_int 1) squares ;;
  mean <~ match mean with
          | None => call_np_average values inv_var
          | Some m => ret m
          end ;;
  r <~ call_stetson_loop alpha beta tol n_factor values errors inv_var
         n_iter mean 0%nat ;;
  ret (fst r).

(** [self.stetson_J(fluxes, errors)] *)
Definition call_stetson_J (fluxes errors : ndarray) : call F :=
  let mean := None in
  n_points <~ call_len fluxes ;;
  flux_mean <~ call_stetson_mean fluxes errors mean
                 default_alpha default_beta default_n_iter default_tol ;;
  q <~ lift (py_truediv n_points (n_points - 1)) ;;
  residual <~ ufunc_scalar np_subtract fluxes flux_mean ;;
  scaled <~ scalar_ufunc np_multiply (np_sqrt q) residual ;;
  delta_val <~ ufunc2 np_divide scaled errors ;;
  squares <~ ufunc_scalar np_power delta_val (float_of_int 2) ;;
  p_k <~ ufunc_scalar np_subtract squares (float_of_int 1) ;;
  signs <~ ufunc1 np_sign p_k ;;
  magnitudes <~ ufunc1 np_fabs p_k ;;
  roots <~ ufunc1 np_sqrt magnitudes ;;
  terms <~ ufunc2 np_multiply signs roots ;;
  call_np_mean terms.

(** The array [a] of the store holds [contents]. *)
Definition holds (st : state) (a : ndarray) (contents : list F) : Prop :=
  nth_error (heap st) a = Some contents.

(** [st'] is [st] with new arrays: the object and the arrays of [st] are
    as they were. *)
Definition extends (st st' : state) : Prop :=
  self st' = self st /\ exists new, heap st' = heap st ++ new.

(** What holds of the result and the state of a call. *)
Definition after {A : Type} (c : call A) (st : state)
    (Q : result A -> state -> Prop) : Prop :=
  Q (fst (c st)) (snd (c st)).

End Calls.

(** ** Sample objects *)

(** Six observations in two bands, as a test of the repository would build
    them: band A is constant, band B has one bright point. *)
Definition two_band_index : list (string * Z) :=
  [("A"%string, 0); ("B"%string, 1); ("A"%string, 2);
   ("B"%string, 3); ("A"%string, 4); ("B"%string, 5)].

(** The frame under the column names of the LSST pipeline. *)
Definition lsst_frame : DataFrame (F := float) := {|
  index := two_band_index;
  columns := [("midPointTai"%string, [1; 2; 3; 4; 5; 6]%float);
              ("psFlux"%string, [5; 1; 5; 10; 5; 1]%float);
              ("psFluxErr"%string, [1; 1; 1; 1; 1; 1]%float)]
|}.

(** The same data under the default labels of the loaders. *)
Definition plain_frame : DataFrame (F := float) := {|
  index := two_band_index;
  columns := [("time"%string, [1; 2; 3; 4; 5; 6]%float);
              ("flux"%string, [5; 1; 5; 10; 5; 1]%float);
              ("flux_err"%string, [1; 1; 1; 1; 1; 1]%float)]
|}.

(** Band B observed once. *)
Definition lone_band_frame : DataFrame (F := float) := {|
  index := [("A"%string, 0); ("A"%string, 1); ("B"%string, 2)];
  columns := [("midPointTai"%string, [1; 2; 3]%float);
              ("psFlux"%string, [5; 5; 1]%float);
              ("psFluxErr"%string, [1; 1; 1]%float)]
|}.

(** Three observations in each of two bands, with uncertainties of
    1e200. *)
Definition wide_error_frame : DataFrame (F := float) := {|
  index := two_band_index;
  columns := [("midPointTai"%string, [1; 2; 3; 4; 5; 6]%float);
              ("psFlux"%string, [5; 1; 5; 10; 5; 1]%float);
              ("psFluxErr"%string,
               [1e200; 1e200; 1e200; 1e200; 1e200; 1e200]%float)]
|}.

(** A frame that has both pairs of columns, with different contents. *)
Definition mixed_frame : DataFrame (F := float) := {|
  index := two_band_index;
  columns := [("time"%string, [1; 2; 3; 4; 5; 6]%float);
              ("flux"%string, [5; 1; 5; 10; 5; 1]%float);
              ("flux_err"%string, [1; 1; 1; 1; 1; 1]%float);
              ("psFlux"%string, [7; 7; 7; 7; 7; 7]%float);
              ("psFluxErr"%string, [2; 2; 2; 2; 2; 2]%float)]
|}.

(** [timeseries()._from_ensemble(frame, 1, time, flux, err)] *)
Definition loaded (frame : DataFrame (F := float))
    (time_label flux_label err_label : string) : result (timeseries (F := float)) :=
  _from_ensemble (new_timeseries frame) frame 1
    (Some time_label) (Some flux_label) (Some err_label).

(** What [stetson_J_multi] would compute from the columns the object maps:
    the source's loop with [self.colmap] in place of the two literals. *)
Fixpoint stetson_J_mapped_loop {F : Type} {np : NumPy F}
    (self : timeseries) (flux_label err_label : string)
    (unq_band : list string) (result_ : dict F) : result (dict F) :=
  match unq_band with
  | [] => Ok result_
  | band :: unq_band' =>
      rows <- loc (data self) band ;;
      fluxes <- getitem rows flux_label ;;
      rows <- loc (data self) band ;;
      errors <- getitem rows err_label ;;
      j <- stetson_J fluxes errors ;;
      stetson_J_mapped_loop self flux_label err_label unq_band'
        (dict_set result_ band j)
  end.

Definition stetson_J_mapped {F : Type} {np : NumPy F} (self : timeseries)
  : result (dict F) :=
  flux_label <- colmap_get self "flux" ;;
  err_label <- colmap_get self "flux_err" ;;
  match flux_label, err_label with
  | Some f, Some e =>
      stetson_J_mapped_loop self f e (np_unique (band self)) []
  | _, _ => Raise (KeyError "None")
  end.

(** An object and two arrays, the example of the specification: four
    fluxes of 10 with unit uncertainties. *)
Definition sample_state : state (F := float) := {|
  self := new_timeseries lsst_frame;
  heap := [[10; 10; 10; 10]%float; [1; 1; 1; 1]%float]
|}.

(** ** The loaders and the other accessors *)

Section Loaders.

Context {F : Type}.

(** The property [time]: [self.data[self.colmap['time']]]. *)
Definition time (self : timeseries (F := F)) : result (list F) :=
  label <- colmap_get self "time" ;;
  match label with
  | Some l => getitem (data self) l
  | None => Raise (KeyError "None")
  end.

(** [_build_index(band)]: the tuples [zip(band, range(len(band)))]. *)
Definition _build_index (band : list string) : list (string * Z) :=
  combine band (map Z.of_nat (seq 0 (List.length band))).

(** A row of a frame as [sort_index] orders it: its index entry, and its
    position, which orders rows of one entry. *)
Definition row : Type := (string * Z) * nat.

Definition row_leb (r s : row) : bool :=
  match String.compare (fst (fst r)) (fst (fst s)) with
  | Lt => true
  | Gt => false
  | Eq =>
      match Z.compare (snd (fst r)) (snd (fst s)) with
      | Lt => true
      | Gt => false
      | Eq => Nat.leb (snd r) (snd s)
      end
  end.

Definition row_le (r s : row) : Prop := row_leb r s = true.

Fixpoint insert_row (r : row) (l : list row) : list row :=
  match l with
  | [] => [r]
  | s :: l' => if row_leb r s then r :: l else s :: insert_row r l'
  end.

Definition sort_rows (l : list row) : list row := fold_right insert_row [] l.

(** The elements of a column at the positions [order], in that order. *)
Definition take_rows {A : Type} (order : list nat) (column : list A) : list A :=
  flat_map (fun i => match nth_error column i with
                     | Some x => [x]
                     | None => []
                     end) order.

(** [df.sort_index()]: the rows in the order of their index entries, by
    band and then by number. *)
Definition sort_index (df : DataFrame (F := F)) : DataFrame (F := F) :=
  let rows :=
    sort_rows (combine (index df) (seq 0 (List.length (index df)))) in
  {| index := map fst rows;
     columns := map (fun c => (fst c, take_rows (map snd rows) (snd c)))
                    (columns df) |}.

(** A value of [data_dict]: a list of band labels, or a list of numbers. *)
Inductive column : Type :=
| Labels (band : list string)
| Numbers (values : list F).

(** What a call of [from_dict] comes to.  It returns, or raises an
    exception of [exn]; or the [DataFrame] constructor raises its
    [ValueError], a column and the index differing in length; or the call
    is outside this model, whose frames hold numbers under bands that are
    labels. *)
Inductive loading (A : Type) : Type :=
| Finished (r : result A)
| ValueError
| Outside.

(** The columns of a frame of numbers, if they all are. *)
Fixpoint number_columns (d : dict column) : option (dict (list F)) :=
  match d with
  | [] => Some []
  | (key, Numbers values) :: d' =>
      match number_columns d' with
      | Some columns => Some ((key, values) :: columns)
      | None => None
      end
  | (_, Labels _) :: _ => None
  end.

(** [pd.DataFrame(data=data, index=index)] on a dictionary of lists. *)
Definition pd_DataFrame (data : dict (list F)) (index : list (string * Z))
  : option (DataFrame (F := F)) :=
  if forallb (fun c => Nat.eqb (List.length (snd c)) (List.length index)) data
  then Some {| index := index; columns := data |}
  else None.

(** [from_dict(data_dict, time_label, flux_label, err_label, band_label)]:
    the object it returns. *)
Definition from_dict (self : timeseries (F := F)) (data_dict : dict column)
    (time_label flux_label err_label : option string) (band_label : string)
  : loading (timeseries (F := F)) :=
  match dict_get data_dict band_label with
  | None => Finished _ (Raise (KeyError band_label))
  | Some (Numbers _) => Outside _
  | Some (Labels band) =>
      let index := _build_index band in
      let data_dict :=
        filter (fun c => negb (String.eqb (fst c) band_label)) data_dict in
      match number_columns data_dict with
      | None => Outside _
      | Some columns =>
          match pd_DataFrame columns index with
          | None => ValueError _
          | Some frame =>
              let data := sort_index frame in
              let labels := [time_label; flux_label; err_label] in
              Finished _
                (colmap <- map_labels data
                             (combine labels (keys (colmap self)))
                             (colmap self) ;;
                 Ok {| data := data; meta := meta self; colmap := colmap;
                       cols := cols self |})
          end
      end
  end.

(** The object [self] as a call of [_from_ensemble] leaves it, whether
    the call returns or raises, with the exception raised if any: the
    attributes are assigned before the labels are looked up, and each
    label is bound before the next is looked up. *)
Fixpoint map_labels_self (data : DataFrame (F := F))
    (pairs : list (option string * string)) (colmap : dict (option string))
  : dict (option string) * option exn :=
  match pairs with
  | [] => (colmap, None)
  | (label, quantity) :: pairs' =>
      match label with
      | None =>
          if String.eqb quantity "flux_err"
          then map_labels_self data pairs' colmap
          else (colmap, Some (KeyError "None"))
      | Some l =>
          match getitem data l with
          | Ok _ => map_labels_self data pairs' (dict_set colmap quantity label)
          | Raise _ => (colmap, Some (KeyError l))
          end
      end
  end.

Definition _from_ensemble_self (self : timeseries (F := F))
    (data : DataFrame (F := F)) (object_id : Z)
    (time_label flux_label err_label : option string)
  : timeseries (F := F) * option exn :=
  let cols := Some (keys (columns data)) in
  let meta := dict_set (meta self) "id" (Some object_id) in
  let labels := [time_label; flux_label; err_label] in
  let (colmap, raised) :=
    map_labels_self data (combine labels (keys (colmap self))) (colmap self) in
  ({| data := data; meta := meta; colmap := colmap; cols := cols |}, raised).

End Loaders.

Arguments Finished {A} r.
Arguments ValueError {A}.
Arguments Outside {A}.

(** ** More sample objects *)

(** A new object of [plain_frame] after
    [_from_ensemble(lsst_frame, 7, 'midPointTai', 'psFlux', None)]. *)
Definition reloaded : timeseries (F := float) := {|
  data := lsst_frame;
  meta := [("id"%string, Some 7)];
  colmap := [("time"%string, Some "midPointTai"%string);
             ("flux"%string, Some "psFlux"%string);
             ("flux_err"%string, None)];
  cols := Some ["midPointTai"; "psFlux"; "psFluxErr"]%string
|}.

(** The dictionary of six observations in two bands, B first, and the
    frame [pd.DataFrame] makes of it before [sort_index]. *)
Definition interleaved_dict : dict (column (F := float)) :=
  [("midPointTai"%string, Numbers [1; 2; 3; 4; 5; 6]%float);
   ("band"%string, Labels ["B"; "A"; "B"; "A"; "B"; "A"]%string);
   ("psFlux"%string, Numbers [1; 5; 10; 5; 1; 5]%float);
   ("psFluxErr"%string, Numbers [1; 1; 1; 1; 1; 1]%float)].

Definition interleaved_frame : DataFrame (F := float) := {|
  index := _build_index ["B"; "A"; "B"; "A"; "B"; "A"]%string;
  columns := [("midPointTai"%string, [1; 2; 3; 4; 5; 6]%float);
              ("psFlux"%string, [1; 5; 10; 5; 1; 5]%float);
              ("psFluxErr"%string, [1; 1; 1; 1; 1; 1]%float)]
|}.

(** [timeseries().from_dict(interleaved_dict, 'midPointTai', 'psFlux',
    'psFluxErr')] *)
Definition from_interleaved : timeseries (F := float) := {|
  data := sort_index interleaved_frame;
  meta := [("id"%string, None)];
  colmap := [("time"%string, Some "midPointTai"%string);
             ("flux"%string, Some "psFlux"%string);
             ("flux_err"%string, Some "psFluxErr"%string)];
  cols := None
|}.

(** A frame without rows, and a frame of fluxes without uncertainties. *)
Definition empty_frame : DataFrame (F := float) := {|
  index := [];
  columns := [("flux"%string, [])]
|}.

Definition flux_only_frame : DataFrame (F := float) := {|
  index := [("A"%string, 0); ("A"%string, 1)];
  columns := [("psFlux"%string, [5; 1]%float)]
|}.
(** * Properties *)

(** ** Control flow of the estimators, for any arithmetic *)

Section ControlFlow.

Context {F : Type} {np : NumPy F}.

Lemma bind_Ok {A B : Type} (c : result A) (k : A -> result B) (b : B) :
  bind c k = Ok b -> exists a, c = Ok a /\ k a = Ok b.
Proof.
  destruct c as [a|e]; simpl; intros Hb; [eauto | discriminate].
Qed.

Lemma bind_Raise {A B : Type} (c : result A) (k : A -> result B) (e : exn) :
  bind c k = Raise e -> c = Raise e \/ exists a, c = Ok a /\ k a = Raise e.
Proof.
  destruct c as [a|e']; simpl; intros Hb;
    [right; eauto | left; injection Hb as ->; reflexivity].
Qed.

Lemma py_truediv_Raise (a b : Z) (e : exn) :
  py_truediv a b = Raise e -> e = ZeroDivisionError /\ b = 0.
Proof.
  unfold py_truediv. destruct (Z.eqb_spec b 0); intros Hr;
    [injection Hr as <-; auto | discriminate].
Qed.

Lemma py_truediv_Ok (a b : Z) :
  b <> 0 -> py_truediv a b = Ok (np_divide (float_of_int a) (float_of_int b)).
Proof.
  unfold py_truediv. destruct (Z.eqb_spec b 0); [contradiction | reflexivity].
Qed.

Lemma np_average_Raise (a w : list F) (e : exn) :
  np_average a w = Raise e ->
  e = ZeroDivisionError /\ np_equal (np_sum w) (float_of_int 0) = true.
Proof.
  unfold np_average. destruct (np_equal _ _); intros Hr;
    [injection Hr as <-; auto | discriminate].
Qed.

(** The loop ends within its budget: it begins between one pass (none when
    the budget is empty) and [n_iter] passes. *)
Lemma stetson_loop_passes (alpha beta tol n_factor : F)
    (values errors inv_var : list F) (n_iter : nat) :
  forall (mean : F) (passes : nat) (m : F) (k : nat),
    stetson_loop alpha beta tol n_factor values errors inv_var n_iter mean passes
      = Ok (m, k) ->
    (passes <= k <= passes + n_iter)%nat.
Proof.
  induction n_iter as [|n IH]; simpl; intros mean passes m k Hrun.
  - injection Hrun as _ <-. lia.
  - apply bind_Ok in Hrun as (tmp & _ & Hrun).
    destruct (converged _ _ _).
    + injection Hrun as _ <-. lia.
    + apply IH in Hrun. lia.
Qed.

(** The loop raises nothing but the [ZeroDivisionError] of [np.average]. *)
Lemma stetson_loop_Raise (alpha beta tol n_factor : F)
    (values errors inv_var : list F) (n_iter : nat) :
  forall (mean : F) (passes : nat) (e : exn),
    stetson_loop alpha beta tol n_factor values errors inv_var n_iter mean passes
      = Raise e ->
    e = ZeroDivisionError.
Proof.
  induction n_iter as [|n IH]; simpl; intros mean passes e Hrun.
  - discriminate.
  - apply bind_Raise in Hrun as [Hrun | (tmp & _ & Hrun)].
    + apply np_average_Raise in Hrun as [-> _]. reflexivity.
    + destruct (converged _ _ _); [discriminate | eauto].
Qed.

Lemma stetson_mean_passes_Raise (values errors : list F) (mean : option F)
    (alpha beta : F) (n_iter : nat) (tol : F) (e : exn) :
  stetson_mean_passes values errors mean alpha beta n_iter tol = Raise e ->
  e = ZeroDivisionError.
Proof.
  unfold stetson_mean_passes. intros Hrun.
  apply bind_Raise in Hrun as [Hrun | (q & _ & Hrun)].
  - apply py_truediv_Raise in Hrun as [-> _]. reflexivity.
  - apply bind_Raise in Hrun as [Hrun | (m & _ & Hrun)].
    + destruct mean as [m|]; [discriminate |].
      apply np_average_Raise in Hrun as [-> _]. reflexivity.
    + eapply stetson_loop_Raise; eassumption.
Qed.

Lemma stetson_mean_Raise (values errors : list F) (mean : option F)
    (alpha beta : F) (n_iter : nat) (tol : F) (e : exn) :
  _stetson_mean values errors mean alpha beta n_iter tol = Raise e ->
  e = ZeroDivisionError.
Proof.
  unfold _stetson_mean. intros Hrun.
  apply bind_Raise in Hrun as [Hrun | (r & _ & Hrun)]; [| discriminate].
  eapply stetson_mean_passes_Raise; eassumption.
Qed.

Lemma stetson_J_Raise (fluxes errors : list F) (e : exn) :
  stetson_J fluxes errors = Raise e -> e = ZeroDivisionError.
Proof.
  unfold stetson_J. intros Hrun.
  apply bind_Raise in Hrun as [Hrun | (m & _ & Hrun)].
  - eapply stetson_mean_Raise; eassumption.
  - apply bind_Raise in Hrun as [Hrun | (q & _ & Hrun)]; [| discriminate].
    apply py_truediv_Raise in Hrun as [-> _]. reflexivity.
Qed.

(** With a single observation, [n_points / (n_points - 1)] is [1 / 0]. *)
Lemma stetson_mean_single (v : F) (errors : list F) (mean : option F)
    (alpha beta : F) (n_iter : nat) (tol : F) :
  _stetson_mean [v] errors mean alpha beta n_iter tol = Raise ZeroDivisionError.
Proof. reflexivity. Qed.

Lemma stetson_J_single (v : F) (errors : list F) :
  stetson_J [v] errors = Raise ZeroDivisionError.
Proof. reflexivity. Qed.

End ControlFlow.

(** The default tolerance, [1 / 1000000] correctly rounded, is the
    literal [1e-6] of the source. *)
Lemma default_tol_float64 : default_tol (np := float64) = 1e-6%float.
Proof. reflexivity. Qed.

(** ** Inputs of fewer than two observations *)

(** C1, as the code behaves at one observation: both [_stetson_mean] and
    [stetson_J] raise [ZeroDivisionError], which is not the
    [InvalidInputSize] the claim names. *)
Lemma single_observation_ZeroDivisionError :
  _stetson_mean (np := float64) [10%float] [1%float] None
      default_alpha default_beta default_n_iter default_tol
    = Raise ZeroDivisionError
  /\ stetson_J (np := float64) [10%float] [1%float] = Raise ZeroDivisionError
  /\ ZeroDivisionError <> InvalidInputSize.
Proof. split; [reflexivity | split; [reflexivity | discriminate]]. Qed.

(** C1, amended: on every input of fewer than two observations (the two
    arrays of one length, no starting mean), [_stetson_mean] and
    [stetson_J] both raise [ZeroDivisionError] and return nothing: for one
    observation from [n_points / (n_points - 1)], for none from
    [np.average], whose weights sum to zero. *)
Theorem fewer_than_two_observations (pow_other : float -> float -> float)
    (values errors : list float) (alpha beta : float) (n_iter : nat) (tol : float) :
  (List.length values < 2)%nat ->
  List.length errors = List.length values ->
  _stetson_mean (np := float64_with pow_other) values errors None
    alpha beta n_iter tol = Raise ZeroDivisionError
  /\ stetson_J (np := float64_with pow_other) values errors
     = Raise ZeroDivisionError.
Proof.
  intros Hn Hlen.
  destruct values as [|v [|v' values]]; simpl in Hn; [| | lia].
  - destruct errors; [| discriminate]. split; reflexivity.
  - split; [apply stetson_mean_single | apply stetson_J_single].
Qed.

Lemma fewer_than_two_observations_witness :
  _stetson_mean (np := float64) [] [] None 2%float 2%float 20 1e-6%float
    = Raise ZeroDivisionError
  /\ stetson_J (np := float64) [] [] = Raise ZeroDivisionError.
Proof.
  apply (fewer_than_two_observations (fun _ _ => nan)
           [] [] 2%float 2%float 20 1e-6%float);
    simpl; [lia | reflexivity].
Defined.

(** ** Uncertainties that are not positive *)

(** C2, as the code behaves: a zero uncertainty gives an infinite weight
    and the result NaN, and negative uncertainties are used as they are;
    neither raises. *)
Lemma nonpositive_errors_accepted :
  _stetson_mean (np := float64) [1; 2]%float [0; 1]%float None
      default_alpha default_beta default_n_iter default_tol = Ok nan
  /\ stetson_J (np := float64) [1; 2]%float [0; 1]%float = Ok nan
  /\ _stetson_mean (np := float64) [1; 2]%float [-1; -1]%float None
      default_alpha default_beta default_n_iter default_tol = Ok 1.5%float
  /\ stetson_J (np := float64) [1; 2]%float [-1; -1]%float = Ok (-0.70710678118654746)%float.
Proof. repeat split; vm_compute; reflexivity. Qed.

(** In any arithmetic [_stetson_mean] and [stetson_J] either return a
    number or raise [ZeroDivisionError].  (Of the source this is a
    statement on arrays of one length: on arrays of different lengths
    NumPy broadcasts or raises, where [elementwise] stops at the
    shorter.) *)
Lemma only_ZeroDivisionError {F : Type} {np : NumPy F}
    (values errors : list F) (mean : option F) (alpha beta : F)
    (n_iter : nat) (tol : F) :
  (returns (_stetson_mean values errors mean alpha beta n_iter tol) = true
   \/ _stetson_mean values errors mean alpha beta n_iter tol
        = Raise ZeroDivisionError)
  /\ (returns (stetson_J values errors) = true
      \/ stetson_J values errors = Raise ZeroDivisionError).
Proof.
  split.
  - destruct (_stetson_mean _ _ _ _ _ _ _) as [m|e] eqn:Hrun; [left; reflexivity |].
    right. apply stetson_mean_Raise in Hrun as ->. reflexivity.
  - destruct (stetson_J _ _) as [j|e] eqn:Hrun; [left; reflexivity |].
    right. apply stetson_J_Raise in Hrun as ->. reflexivity.
Qed.

(** *** The sign of an uncertainty *)

Section Magnitudes.

#[local] Open Scope float_scope.

Variable pow_other : float -> float -> float.

#[local] Abbreviation np64 := (float64_with pow_other).

Lemma binary_round_aux_negb (s : bool) (m e : Z) (l : location) :
  binary_round_aux prec emax (negb s) m e l
  = SFopp (binary_round_aux prec emax s m e l).
Proof.
  unfold binary_round_aux.
  destruct (shr_fexp prec emax m e l) as [mrs' e'].
  destruct (shr_fexp prec emax _ e' loc_Exact) as [mrs'' e''].
  destruct (shr_m mrs'') as [|p|p]; [reflexivity | | reflexivity].
  destruct (Z.leb _ _); reflexivity.
Qed.

Lemma SFdiv_opp (x y : spec_float) :
  SF64div x (SFopp y) = SFopp (SF64div x y).
Proof.
  unfold SF64div.
  assert (Hx : forall a b, xorb a (negb b) = negb (xorb a b))
    by (intros [|] [|]; reflexivity).
  destruct x as [sx|sx| |sx mx ex], y as [sy|sy| |sy my ey]; simpl;
    rewrite ?Hx; try reflexivity.
  match goal with
  | |- context [SFdiv_core_binary ?p ?q ?a ?b ?c ?d] =>
      destruct (SFdiv_core_binary p q a b c d) as [[mz ez] lz]
  end.
  rewrite <- binary_round_aux_negb. reflexivity.
Qed.

Lemma SFabs_cases (y : spec_float) : SFabs y = y \/ SFabs y = SFopp y.
Proof. destruct y as [[|]|[|]| |[|] m e]; simpl; auto. Qed.

Lemma SFabs_opp (y : spec_float) : SFabs (SFopp y) = SFabs y.
Proof. destruct y; reflexivity. Qed.

Lemma SFmul_opp_opp (x : spec_float) : SF64mul (SFopp x) (SFopp x) = SF64mul x x.
Proof.
  unfold SF64mul. destruct x as [s|s| |s m e]; simpl; try reflexivity;
  destruct s; reflexivity.
Qed.

Lemma abs_div_abs (x e : float) : abs (x / abs e) = abs (x / e).
Proof.
  apply Prim2SF_inj. rewrite !abs_spec, !div_spec, abs_spec.
  destruct (SFabs_cases (Prim2SF e)) as [-> | ->]; [reflexivity |].
  rewrite SFdiv_opp, SFabs_opp. reflexivity.
Qed.

Lemma mul_abs_abs (e : float) : abs e * abs e = e * e.
Proof.
  apply Prim2SF_inj. rewrite !mul_spec, abs_spec.
  destruct (SFabs_cases (Prim2SF e)) as [-> | ->]; [reflexivity |].
  apply SFmul_opp_opp.
Qed.

Lemma sq_div_abs (x e : float) : (x / abs e) * (x / abs e) = (x / e) * (x / e).
Proof.
  apply Prim2SF_inj. rewrite !mul_spec, !div_spec, abs_spec.
  destruct (SFabs_cases (Prim2SF e)) as [-> | ->]; [reflexivity |].
  rewrite SFdiv_opp. apply SFmul_opp_opp.
Qed.

Lemma power_two (x : float) :
  np_power (NumPy := np64) x (float_of_int (NumPy := np64) 2) = x * x.
Proof. reflexivity. Qed.

Lemma inv_var_of_abs (errors : list float) :
  inv_var_of (np := np64) (map abs errors) = inv_var_of (np := np64) errors.
Proof.
  unfold inv_var_of. rewrite map_map. apply map_ext. intros e.
  change (1 / (abs e * abs e) = 1 / (e * e)). rewrite mul_abs_abs. reflexivity.
Qed.

Lemma chi_of_abs (n_factor mean : float) (values : list float) :
  forall errors : list float,
    chi_of (np := np64) n_factor values (map abs errors) mean
    = chi_of (np := np64) n_factor values errors mean.
Proof.
  unfold chi_of.
  induction values as [|v values IH]; intros [|e errors]; simpl; try reflexivity.
  rewrite IH. f_equal. apply abs_div_abs.
Qed.

Lemma stetson_loop_abs (alpha beta tol n_factor : float)
    (values errors inv_var : list float) (n_iter : nat) :
  forall (mean : float) (passes : nat),
    stetson_loop (np := np64) alpha beta tol n_factor values (map abs errors)
      inv_var n_iter mean passes
    = stetson_loop (np := np64) alpha beta tol n_factor values errors
        inv_var n_iter mean passes.
Proof.
  induction n_iter as [|n IH]; intros mean passes; simpl; [reflexivity |].
  unfold reweighted_mean. rewrite chi_of_abs.
  destruct (np_average _ _) as [tmp|e]; simpl; [| reflexivity].
  destruct (converged _ _ _); [reflexivity | apply IH].
Qed.

Lemma stetson_mean_abs (values errors : list float) (mean : option float)
    (alpha beta : float) (n_iter : nat) (tol : float) :
  _stetson_mean (np := np64) values (map abs errors) mean alpha beta n_iter tol
  = _stetson_mean (np := np64) values errors mean alpha beta n_iter tol.
Proof.
  unfold _stetson_mean, stetson_mean_passes. cbv zeta.
  rewrite inv_var_of_abs.
  destruct (py_truediv _ _) as [q|e]; simpl; [| reflexivity].
  destruct (match mean with Some m => Ok m | None => _ end) as [m|e]; simpl;
    [| reflexivity].
  rewrite stetson_loop_abs. reflexivity.
Qed.

Lemma p_k_abs (q flux_mean : float) (fluxes : list float) :
  forall errors : list float,
    map (fun d => np_power (NumPy := np64) d (float_of_int 2) - float_of_int 1)
      (elementwise PrimFloat.div
         (map (fun f => q * (f - flux_mean)) fluxes)
         (map abs errors))
    = map (fun d => np_power (NumPy := np64) d (float_of_int 2) - float_of_int 1)
        (elementwise PrimFloat.div
           (map (fun f => q * (f - flux_mean)) fluxes)
           errors).
Proof.
  induction fluxes as [|f fluxes IH]; intros [|e errors];
    cbn [map elementwise]; try reflexivity.
  rewrite IH. f_equal. rewrite !power_two.
  change (np_divide ?x ?y) with (x / y). rewrite sq_div_abs. reflexivity.
Qed.

Lemma estimators_abs (values errors : list float)
    (mean : option float) (alpha beta : float) (n_iter : nat) (tol : float) :
  _stetson_mean (np := np64) values (map abs errors) mean alpha beta n_iter tol
    = _stetson_mean (np := np64) values errors mean alpha beta n_iter tol
  /\ stetson_J (np := np64) values (map abs errors)
     = stetson_J (np := np64) values errors.
Proof.
  split; [apply stetson_mean_abs |].
  unfold stetson_J. cbv zeta. rewrite stetson_mean_abs.
  destruct (_stetson_mean _ _ _ _ _ _ _) as [flux_mean|e]; simpl; [| reflexivity].
  destruct (py_truediv _ _) as [q|e]; simpl; [| reflexivity].
  rewrite p_k_abs. reflexivity.
Qed.

End Magnitudes.

(** An uncertainty enters the estimators through its square and through
    the magnitude of a quotient: in binary64 each array of uncertainties
    gives what the array of its absolute values gives, bit for bit. *)
Lemma uncertainties_as_magnitudes (pow_other : float -> float -> float)
    (values errors : list float) (mean : option float) (alpha beta : float)
    (n_iter : nat) (tol : float) :
  _stetson_mean (np := float64_with pow_other)
      values (map abs errors) mean alpha beta n_iter tol
    = _stetson_mean (np := float64_with pow_other)
        values errors mean alpha beta n_iter tol
  /\ stetson_J (np := float64_with pow_other) values (map abs errors)
     = stetson_J (np := float64_with pow_other) values errors.
Proof. exact (estimators_abs pow_other values errors mean alpha beta n_iter tol). Qed.

(** C2, amended: the uncertainties are not validated.  Whatever an
    array of values and an array of uncertainties of one length hold,
    [_stetson_mean] and [stetson_J] either return a number or raise
    [ZeroDivisionError], and [InvalidUncertainty] is never raised; the
    sign of an uncertainty is ignored, an array of uncertainties giving
    in binary64 exactly what the array of its absolute values gives. *)
Theorem uncertainties_not_validated (pow_other : float -> float -> float)
    (values errors : list float) (mean : option float) (alpha beta : float)
    (n_iter : nat) (tol : float) :
  List.length errors = List.length values ->
  (returns (_stetson_mean (np := float64_with pow_other)
              values errors mean alpha beta n_iter tol) = true
   \/ _stetson_mean (np := float64_with pow_other)
        values errors mean alpha beta n_iter tol = Raise ZeroDivisionError)
  /\ (returns (stetson_J (np := float64_with pow_other) values errors) = true
      \/ stetson_J (np := float64_with pow_other) values errors
         = Raise ZeroDivisionError)
  /\ _stetson_mean (np := float64_with pow_other)
       values (map abs errors) mean alpha beta n_iter tol
     = _stetson_mean (np := float64_with pow_other)
         values errors mean alpha beta n_iter tol
  /\ stetson_J (np := float64_with pow_other) values (map abs errors)
     = stetson_J (np := float64_with pow_other) values errors.
Proof.
  intros _.
  destruct (only_ZeroDivisionError (np := float64_with pow_other)
              values errors mean alpha beta n_iter tol) as [HM HJ].
  destruct (uncertainties_as_magnitudes pow_other values errors mean
              alpha beta n_iter tol) as [HMabs HJabs].
  repeat split; assumption.
Qed.

(** Two observations with the uncertainties -1 and 0. *)
Lemma uncertainties_not_validated_witness :
  (returns (_stetson_mean (np := float64) [1; 2]%float [-1; 0]%float None
              2%float 2%float 20 1e-6%float) = true
   \/ _stetson_mean (np := float64) [1; 2]%float [-1; 0]%float None
        2%float 2%float 20 1e-6%float = Raise ZeroDivisionError)
  /\ (returns (stetson_J (np := float64) [1; 2]%float [-1; 0]%float) = true
      \/ stetson_J (np := float64) [1; 2]%float [-1; 0]%float
         = Raise ZeroDivisionError)
  /\ _stetson_mean (np := float64) [1; 2]%float (map abs [-1; 0]%float) None
       2%float 2%float 20 1e-6%float
     = _stetson_mean (np := float64) [1; 2]%float [-1; 0]%float None
         2%float 2%float 20 1e-6%float
  /\ stetson_J (np := float64) [1; 2]%float (map abs [-1; 0]%float)
     = stetson_J (np := float64) [1; 2]%float [-1; 0]%float.
Proof.
  apply (uncertainties_not_validated (fun _ _ => nan)
           [1; 2]%float [-1; 0]%float None 2%float 2%float 20 1e-6%float).
  reflexivity.
Defined.

(** ** The columns [stetson_J_multi] reads *)

Lemma stetson_J_multi_loop_colmap {F : Type} {np : NumPy F}
    (self : timeseries) (cm : dict (option string)) (unq_band : list string) :
  forall result_ : dict F,
    stetson_J_multi_loop
      {| data := data self; meta := meta self; colmap := cm; cols := cols self |}
      unq_band result_
    = stetson_J_multi_loop self unq_band result_.
Proof.
  induction unq_band as [|b bands IH]; intros result_; simpl; [reflexivity |].
  change (band_statistic {| data := data self; meta := meta self;
                            colmap := cm; cols := cols self |} b)
    with (band_statistic self b).
  destruct (band_statistic self b) as [j|e]; simpl; [apply IH | reflexivity].
Qed.

(** C3, at the failing inputs.  On an object loaded under the default
    labels, the accessors [flux] and [flux_err] read the mapped columns,
    and [stetson_J_multi] raises [KeyError] for the literal ['psFlux'];
    on a frame that has both pairs of columns it returns the statistic of
    [psFlux], not of the mapped [flux]. *)
Theorem stetson_J_multi_reads_psFlux :
  (self <- loaded plain_frame "time" "flux" "flux_err" ;; flux self)
    = Ok [5; 1; 5; 10; 5; 1]%float
  /\ (self <- loaded plain_frame "time" "flux" "flux_err" ;; flux_err self)
    = Ok (Some [1; 1; 1; 1; 1; 1]%float)
  /\ (self <- loaded plain_frame "time" "flux" "flux_err" ;; stetson_J_multi self)
    = Raise (KeyError "psFlux")
  /\ (self <- loaded mixed_frame "time" "flux" "flux_err" ;; stetson_J_multi self)
    = Ok [("A"%string, (-1)%float); ("B"%string, (-1)%float)]
  /\ (self <- loaded mixed_frame "time" "flux" "flux_err" ;; stetson_J_mapped self)
    = Ok [("A"%string, (-1)%float); ("B"%string, 2.9430897795588717%float)].
Proof. repeat split; vm_compute; reflexivity. Qed.

(** ** Band labels: [np.unique] and the result dictionary *)

Lemma ascii_compare_refl (c : Ascii.ascii) : Ascii.compare c c = Eq.
Proof. unfold Ascii.compare. apply N.compare_refl. Qed.

Lemma ascii_compare_Lt_trans (a b c : Ascii.ascii) :
  Ascii.compare a b = Lt -> Ascii.compare b c = Lt -> Ascii.compare a c = Lt.
Proof.
  unfold Ascii.compare. rewrite !N.compare_lt_iff. apply N.lt_trans.
Qed.

Lemma string_compare_refl (s : string) : String.compare s s = Eq.
Proof.
  induction s as [|c s IH]; simpl; [reflexivity |].
  rewrite ascii_compare_refl. exact IH.
Qed.

Lemma string_compare_Lt_trans (a : string) :
  forall b c : string,
    String.compare a b = Lt -> String.compare b c = Lt -> String.compare a c = Lt.
Proof.
  induction a as [|x a IH]; intros [|y b] [|z c]; simpl; try discriminate; auto.
  destruct (Ascii.compare x y) eqn:Hxy; try discriminate;
    destruct (Ascii.compare y z) eqn:Hyz; try discriminate; intros Hab Hbc.
  - apply Ascii.compare_eq_iff in Hxy, Hyz. subst.
    rewrite ascii_compare_refl. eauto.
  - apply Ascii.compare_eq_iff in Hxy. subst. rewrite Hyz. reflexivity.
  - apply Ascii.compare_eq_iff in Hyz. subst. rewrite Hxy. reflexivity.
  - rewrite (ascii_compare_Lt_trans x y z Hxy Hyz). reflexivity.
Qed.

Lemma label_lt_le (a b : string) : label_lt a b -> label_le a b.
Proof.
  unfold label_lt, label_le, String.ltb, String.leb.
  destruct (String.compare a b); congruence.
Qed.

Lemma label_le_cases (a b : string) : label_le a b -> a = b \/ label_lt a b.
Proof.
  unfold label_lt, label_le, String.ltb, String.leb.
  destruct (String.compare a b) eqn:Hc; intros Hle;
    [left; apply String.compare_eq_iff; exact Hc | right; reflexivity | discriminate].
Qed.

Lemma label_lt_irrefl (a : string) : ~ label_lt a a.
Proof.
  unfold label_lt, String.ltb. rewrite string_compare_refl. discriminate.
Qed.

Lemma label_lt_trans (a b c : string) :
  label_lt a b -> label_lt b c -> label_lt a c.
Proof.
  unfold label_lt, String.ltb.
  destruct (String.compare a b) eqn:Hab; try discriminate.
  destruct (String.compare b c) eqn:Hbc; try discriminate.
  rewrite (string_compare_Lt_trans a b c Hab Hbc). reflexivity.
Qed.

Lemma label_le_refl (a : string) : label_le a a.
Proof. unfold label_le, String.leb. rewrite string_compare_refl. reflexivity. Qed.

Lemma label_le_trans (a b c : string) :
  label_le a b -> label_le b c -> label_le a c.
Proof.
  intros Hab Hbc.
  apply label_le_cases in Hab as [-> | Hab]; [exact Hbc |].
  apply label_le_cases in Hbc as [<- | Hbc]; apply label_lt_le;
    [exact Hab | eapply label_lt_trans; eassumption].
Qed.

Lemma label_le_false (a b : string) : String.leb a b = false -> label_lt b a.
Proof.
  unfold label_lt, String.leb, String.ltb. rewrite (String.compare_antisym b a).
  destruct (String.compare a b); simpl; congruence.
Qed.

Lemma insert_label_In (x y : string) (l : list string) :
  In y (insert_label x l) <-> y = x \/ In y l.
Proof.
  induction l as [|z l IH]; simpl.
  - intuition.
  - destruct (String.leb x z); simpl; rewrite ?IH; intuition.
Qed.

Lemma insert_label_sorted (x : string) (l : list string) :
  StronglySorted label_le l -> StronglySorted label_le (insert_label x l).
Proof.
  induction l as [|z l IH]; simpl; intros Hs.
  - repeat constructor.
  - apply StronglySorted_inv in Hs as [Hl Hz].
    destruct (String.leb x z) eqn:Hxz.
    + constructor; [constructor; assumption |].
      constructor; [exact Hxz |].
      eapply Forall_impl; [| exact Hz].
      intros w Hw. eapply label_le_trans; eassumption.
    + constructor; [apply IH; exact Hl |].
      apply Forall_forall. intros w Hw.
      apply insert_label_In in Hw as [-> | Hw].
      * apply label_lt_le, label_le_false. exact Hxz.
      * rewrite Forall_forall in Hz. apply Hz. exact Hw.
Qed.

Lemma sort_labels_In (y : string) (l : list string) :
  In y (sort_labels l) <-> In y l.
Proof.
  induction l as [|x l IH]; simpl; [reflexivity |].
  rewrite insert_label_In, IH. intuition.
Qed.

Lemma sort_labels_sorted (l : list string) :
  StronglySorted label_le (sort_labels l).
Proof.
  induction l as [|x l IH]; simpl; [constructor | apply insert_label_sorted, IH].
Qed.

(** After a sorted run, the mask keeps what is strictly above [prev]. *)
Lemma drop_repeats_spec (l : list string) :
  forall prev : string,
    StronglySorted label_le (prev :: l) ->
    StronglySorted label_lt (prev :: drop_repeats prev l)
    /\ forall y, In y (prev :: drop_repeats prev l) <-> In y (prev :: l).
Proof.
  induction l as [|z l IH]; intros prev Hs; simpl.
  - split; [repeat constructor | reflexivity].
  - apply StronglySorted_inv in Hs as [Hl Hp].
    destruct (IH z Hl) as [IHs IHin].
    destruct (String.eqb_spec z prev) as [-> | Hne].
    + split; [exact IHs |].
      intros y. specialize (IHin y). simpl in *. intuition.
    + split.
      * constructor; [exact IHs |].
        apply Forall_inv in Hp as Hpz.
        assert (Hlt : label_lt prev z).
        { apply label_le_cases in Hpz as [-> | Hlt]; [contradiction | exact Hlt]. }
        constructor; [exact Hlt |].
        apply StronglySorted_inv in IHs as [_ Hz].
        eapply Forall_impl; [| exact Hz].
        intros w Hw. eapply label_lt_trans; eassumption.
      * intros y. specialize (IHin y). simpl in *. intuition.
Qed.

Lemma np_unique_In (l : list string) (y : string) :
  In y (np_unique l) <-> In y l.
Proof.
  unfold np_unique. rewrite <- (sort_labels_In y l).
  pose proof (sort_labels_sorted l) as Hs.
  destruct (sort_labels l) as [|x s]; [reflexivity |].
  apply (drop_repeats_spec s x Hs).
Qed.

Lemma np_unique_sorted (l : list string) :
  StronglySorted label_lt (np_unique l).
Proof.
  unfold np_unique. pose proof (sort_labels_sorted l) as Hs.
  destruct (sort_labels l) as [|x s]; [constructor |].
  apply (drop_repeats_spec s x Hs).
Qed.

Lemma strictly_sorted_NoDup (l : list string) :
  StronglySorted label_lt l -> NoDup l.
Proof.
  induction 1 as [|x l Hs IH Hx]; constructor; [| exact IH].
  intros Hin. rewrite Forall_forall in Hx.
  exact (label_lt_irrefl x (Hx x Hin)).
Qed.

Lemma np_unique_NoDup (l : list string) : NoDup (np_unique l).
Proof. apply strictly_sorted_NoDup, np_unique_sorted. Qed.

Lemma dict_get_None {V : Type} (d : dict V) (k : string) :
  dict_get d k = None <-> ~ In k (keys d).
Proof.
  induction d as [|[k' v] d IH]; simpl; [intuition |].
  destruct (String.eqb_spec k' k); [intuition discriminate | intuition].
Qed.

Lemma keys_dict_set_fresh {V : Type} (d : dict V) (k : string) (v : V) :
  ~ In k (keys d) -> keys (dict_set d k v) = keys d ++ [k].
Proof.
  induction d as [|[k' v'] d IH]; simpl; intros Hk; [reflexivity |].
  destruct (String.eqb_spec k' k); [intuition | simpl; f_equal; intuition].
Qed.

Lemma dict_get_set_same {V : Type} (d : dict V) (k : string) (v : V) :
  dict_get (dict_set d k v) k = Some v.
Proof.
  induction d as [|[k' v'] d IH]; simpl; [rewrite String.eqb_refl; reflexivity |].
  destruct (String.eqb_spec k' k) as [-> | Hne]; simpl.
  - rewrite String.eqb_refl. reflexivity.
  - apply String.eqb_neq in Hne. rewrite Hne. exact IH.
Qed.

Lemma dict_get_set_other {V : Type} (d : dict V) (k k0 : string) (v : V) :
  k0 <> k -> dict_get (dict_set d k v) k0 = dict_get d k0.
Proof.
  intros Hne. induction d as [|[k' v'] d IH]; simpl.
  - destruct (String.eqb_spec k k0); [congruence | reflexivity].
  - destruct (String.eqb_spec k' k) as [-> | Hk]; simpl.
    + destruct (String.eqb_spec k k0); [congruence | reflexivity].
    + destruct (String.eqb_spec k' k0); [reflexivity | exact IH].
Qed.

(** ** The mapping [stetson_J_multi] returns *)

Section BandAggregator.

Context {F : Type} {np : NumPy F}.

(** The loop over distinct bands that are not yet keys: it returns when
    the statistic of each band does, with the bands appended as keys in
    the order of the loop, each bound to its statistic. *)
Lemma stetson_J_multi_loop_spec (self : timeseries) (unq_band : list string) :
  forall result_ : dict F,
    NoDup unq_band ->
    (forall b, In b unq_band -> ~ In b (keys result_)) ->
    (forall b, In b unq_band -> returns (band_statistic self b) = true) ->
    exists m : dict F,
      stetson_J_multi_loop self unq_band result_ = Ok m
      /\ keys m = keys result_ ++ unq_band
      /\ (forall b, ~ In b unq_band -> dict_get m b = dict_get result_ b)
      /\ (forall b, In b unq_band ->
            exists j, band_statistic self b = Ok j /\ dict_get m b = Some j).
Proof.
  induction unq_band as [|b bands IH]; intros result_ Hnd Hfresh Hret; simpl.
  - exists result_. rewrite app_nil_r. intuition.
  - destruct (band_statistic self b) as [j|e] eqn:Hb; simpl.
    2:{ specialize (Hret b (or_introl eq_refl)). rewrite Hb in Hret. discriminate. }
    apply NoDup_cons_iff in Hnd as [Hb_notin Hnd].
    assert (Hkeys : keys (dict_set result_ b j) = keys result_ ++ [b]).
    { apply keys_dict_set_fresh, Hfresh. left. reflexivity. }
    destruct (IH (dict_set result_ b j) Hnd) as (m & Hm & Hk & Hold & Hnew).
    { intros b' Hb' Hin. rewrite Hkeys in Hin.
      apply in_app_or in Hin as [Hin | [<- | []]].
      - exact (Hfresh b' (or_intror Hb') Hin).
      - exact (Hb_notin Hb'). }
    { intros b' Hb'. apply Hret. right. exact Hb'. }
    exists m. split; [exact Hm |]. split; [| split].
    + rewrite Hk, Hkeys, <- app_assoc. reflexivity.
    + intros b' Hb'. rewrite Hold by (intros Hin; apply Hb'; right; exact Hin).
      apply dict_get_set_other. intros ->. apply Hb'. left. reflexivity.
    + intros b' [<- | Hb'].
      * exists j. split; [exact Hb |].
        rewrite (Hold b Hb_notin). apply dict_get_set_same.
      * apply Hnew. exact Hb'.
Qed.

(** The loop stops at the first band whose statistic raises. *)
Lemma stetson_J_multi_loop_returns (self : timeseries) (unq_band : list string) :
  forall (result_ m : dict F),
    stetson_J_multi_loop self unq_band result_ = Ok m ->
    forall b, In b unq_band -> returns (band_statistic self b) = true.
Proof.
  induction unq_band as [|b bands IH]; intros result_ m Hm b' Hb'; simpl in *.
  - contradiction.
  - apply bind_Ok in Hm as (j & Hj & Hm).
    destruct Hb' as [<- | Hb']; [rewrite Hj; reflexivity | eauto].
Qed.

End BandAggregator.

(** A frame one of whose bands was observed once: the call raises and
    returns no mapping. *)
Lemma stetson_J_multi_lone_band :
  (self <- loaded lone_band_frame "midPointTai" "psFlux" "psFluxErr" ;;
   Ok (band self)) = Ok ["A"%string; "A"%string; "B"%string]
  /\ (self <- loaded lone_band_frame "midPointTai" "psFlux" "psFluxErr" ;;
      stetson_J_multi self) = Raise ZeroDivisionError.
Proof. split; vm_compute; reflexivity. Qed.

(** C7, as the code behaves on a frame of two bands with three
    observations each and positive uncertainties, of 1e200: the inverse
    variances [1 / errors ** 2] are zero, the first [np.average] of the
    first band raises, and the call returns no mapping. *)
Lemma stetson_J_multi_band_raises :
  (self <- loaded wide_error_frame "midPointTai" "psFlux" "psFluxErr" ;;
   Ok (band self))
  = Ok ["A"%string; "B"%string; "A"%string; "B"%string; "A"%string; "B"%string]
  /\ (self <- loaded wide_error_frame "midPointTai" "psFlux" "psFluxErr" ;;
      errors <- getitem (data self) "psFluxErr" ;;
      Ok (forallb (PrimFloat.ltb 0) errors)) = Ok true
  /\ (self <- loaded wide_error_frame "midPointTai" "psFlux" "psFluxErr" ;;
      band_statistic self "A") = Raise ZeroDivisionError
  /\ (self <- loaded wide_error_frame "midPointTai" "psFlux" "psFluxErr" ;;
      stetson_J_multi self) = Raise ZeroDivisionError.
Proof. repeat split; vm_compute; reflexivity. Qed.

(** C7, amended: when the statistic of every band of the frame can be
    computed, [stetson_J_multi] returns a mapping; its keys are exactly the
    distinct band labels of the input, each once, in strictly ascending
    order, which is the order the bands were processed in, and each key is
    bound to the statistic of its band.  (When the statistic of a band
    raises, so does the call: [stetson_J_multi_loop_returns].) *)
Theorem stetson_J_multi_keys {F : Type} {np : NumPy F} (self : timeseries) :
  (forall b, In b (band self) -> returns (band_statistic self b) = true) ->
  exists m : dict F,
    stetson_J_multi self = Ok m
    /\ keys m = np_unique (band self)
    /\ (forall b, In b (keys m) <-> In b (band self))
    /\ NoDup (keys m)
    /\ StronglySorted label_lt (keys m)
    /\ (forall b, In b (band self) ->
          exists j, band_statistic self b = Ok j /\ dict_get m b = Some j).
Proof.
  intros Hret. unfold stetson_J_multi.
  destruct (stetson_J_multi_loop_spec self (np_unique (band self)) [])
    as (m & Hm & Hk & _ & Hnew).
  - apply np_unique_NoDup.
  - intros b _ [].
  - intros b Hb. apply Hret, np_unique_In, Hb.
  - simpl in Hk. exists m. rewrite Hk. repeat split.
    + exact Hm.
    + apply np_unique_In.
    + apply np_unique_In.
    + apply np_unique_NoDup.
    + apply np_unique_sorted.
    + intros b Hb. apply Hnew, np_unique_In, Hb.
Qed.

Lemma stetson_J_multi_keys_witness :
  exists m : dict float,
    stetson_J_multi
      {| data := lsst_frame; meta := [("id"%string, Some 1)];
         colmap := [("time"%string, Some "midPointTai"%string);
                    ("flux"%string, Some "psFlux"%string);
                    ("flux_err"%string, Some "psFluxErr"%string)];
         cols := None |} = Ok m
    /\ keys m = ["A"%string; "B"%string].
Proof.
  destruct (stetson_J_multi_keys
              {| data := lsst_frame; meta := [("id"%string, Some 1)];
                 colmap := [("time"%string, Some "midPointTai"%string);
                            ("flux"%string, Some "psFlux"%string);
                            ("flux_err"%string, Some "psFluxErr"%string)];
                 cols := None |})
    as (m & Hm & Hk & _).
  - intros b Hb. simpl in Hb.
    repeat (destruct Hb as [<- | Hb]; [vm_compute; reflexivity |]).
    contradiction.
  - exists m. split; [exact Hm | exact Hk].
Defined.

(** ** The passes as maps over the paired observations *)

Section Paired.

Context {F : Type} {np : NumPy F}.

Lemma elementwise_combine (f : F -> F -> F) (a : list F) :
  forall b : list F,
    elementwise f a b = map (fun p => f (fst p) (snd p)) (combine a b).
Proof.
  induction a as [|x a IH]; intros [|y b]; simpl; try reflexivity.
  rewrite IH. reflexivity.
Qed.

Lemma combine_fst (a : list F) :
  forall b : list F, List.length a = List.length b -> map fst (combine a b) = a.
Proof.
  induction a as [|x a IH]; intros [|y b] Hlen; simpl in *; try discriminate;
    [reflexivity | rewrite IH by lia; reflexivity].
Qed.

Lemma combine_snd (a : list F) :
  forall b : list F, List.length a = List.length b -> map snd (combine a b) = b.
Proof.
  induction a as [|x a IH]; intros [|y b] Hlen; simpl in *; try discriminate;
    [reflexivity | rewrite IH by lia; reflexivity].
Qed.

Lemma weights_of_paired (alpha beta n_factor mean : F) (values : list F) :
  forall errors : list F,
    List.length values = List.length errors ->
    weights_of alpha beta (inv_var_of errors) (chi_of n_factor values errors mean)
    = map (pass_weight alpha beta n_factor mean) (combine values errors).
Proof.
  unfold weights_of, chi_of, inv_var_of.
  induction values as [|v values IH]; intros [|e errors] Hlen; simpl in *;
    try discriminate; [reflexivity |].
  f_equal. apply IH. lia.
Qed.

Lemma np_average_paired (w : F * F -> F) (values errors : list F) :
  List.length values = List.length errors ->
  np_average values (map w (combine values errors))
  = let ps := combine values errors in
    if np_equal (np_sum (map w ps)) (float_of_int 0) then Raise ZeroDivisionError
    else Ok (np_divide (np_sum (map (fun p => np_multiply (fst p) (w p)) ps))
                       (np_sum (map w ps))).
Proof.
  intros Hlen. unfold np_average. cbv zeta.
  destruct (np_equal _ _); [reflexivity |]. do 3 f_equal.
  rewrite elementwise_combine.
  rewrite <- (combine_fst values errors Hlen) at 1.
  generalize (combine values errors) as ps.
  induction ps as [|p ps IH]; simpl; [reflexivity | f_equal; exact IH].
Qed.

Lemma inv_var_paired (values errors : list F) :
  List.length values = List.length errors ->
  inv_var_of errors = map (fun p => inv_var1 (snd p)) (combine values errors).
Proof.
  intros Hlen. unfold inv_var_of.
  rewrite <- (combine_snd values errors Hlen) at 1.
  rewrite map_map. reflexivity.
Qed.

(** Any arithmetic whose [np.sum] does not depend on the order of an
    array of [n] elements gives estimators that do not depend on the order
    of [n] observations. *)
Lemma np_average_Permutation (w : F * F -> F)
    (values errors values' errors' : list F) :
  sum_order_free (List.length values) ->
  List.length values = List.length errors ->
  List.length values' = List.length errors' ->
  Permutation (combine values errors) (combine values' errors') ->
  np_average values (map w (combine values errors))
  = np_average values' (map w (combine values' errors')).
Proof.
  intros Hfree Hlen Hlen' Hperm.
  rewrite !np_average_paired by assumption. cbv zeta.
  assert (Hn : forall (B : Type) (f : F * F -> B),
             List.length (map f (combine values errors)) = List.length values).
  { intros B f. rewrite length_map, length_combine, <- Hlen. apply Nat.min_id. }
  rewrite (Hfree _ _ (Hn _ w) (Permutation_map w Hperm)).
  rewrite (Hfree _ _ (Hn _ _)
             (Permutation_map (fun p => np_multiply (fst p) (w p)) Hperm)).
  reflexivity.
Qed.

Lemma stetson_loop_Permutation (alpha beta tol n_factor : F)
    (values errors values' errors' : list F) (n_iter : nat) :
  sum_order_free (List.length values) ->
  List.length values = List.length errors ->
  List.length values' = List.length errors' ->
  Permutation (combine values errors) (combine values' errors') ->
  forall (mean : F) (passes : nat),
    stetson_loop alpha beta tol n_factor values errors (inv_var_of errors)
      n_iter mean passes
    = stetson_loop alpha beta tol n_factor values' errors' (inv_var_of errors')
        n_iter mean passes.
Proof.
  intros Hfree Hlen Hlen' Hperm.
  induction n_iter as [|n IH]; intros mean passes; simpl; [reflexivity |].
  unfold reweighted_mean. rewrite !weights_of_paired by assumption.
  rewrite (np_average_Permutation _ values errors values' errors') by assumption.
  destruct (np_average values' _) as [tmp|e]; simpl; [| reflexivity].
  destruct (converged _ _ _); [reflexivity | apply IH].
Qed.

Lemma stetson_mean_passes_Permutation (values errors values' errors' : list F)
    (mean : option F) (alpha beta : F) (n_iter : nat) (tol : F) :
  sum_order_free (List.length values) ->
  List.length values = List.length errors ->
  List.length values' = List.length errors' ->
  Permutation (combine values errors) (combine values' errors') ->
  stetson_mean_passes values errors mean alpha beta n_iter tol
  = stetson_mean_passes values' errors' mean alpha beta n_iter tol.
Proof.
  intros Hfree Hlen Hlen' Hperm. unfold stetson_mean_passes.
  assert (Hn : len values = len values').
  { unfold len. f_equal.
    rewrite <- (combine_fst values errors Hlen),
            <- (combine_fst values' errors' Hlen'), !length_map.
    apply Permutation_length, Hperm. }
  rewrite <- Hn.
  destruct (py_truediv _ _) as [q|e]; simpl; [| reflexivity].
  assert (Hmean : match mean with
                  | Some m => Ok m
                  | None => np_average values (inv_var_of errors)
                  end
                  = match mean with
                    | Some m => Ok m
                    | None => np_average values' (inv_var_of errors')
                    end).
  { destruct mean as [m|]; [reflexivity |].
    rewrite (inv_var_paired values errors Hlen),
            (inv_var_paired values' errors' Hlen').
    apply np_average_Permutation; assumption. }
  rewrite Hmean. clear Hmean.
  match goal with |- bind ?c _ = _ => destruct c as [m0|e] end; simpl;
    [| reflexivity].
  apply stetson_loop_Permutation; assumption.
Qed.

End Paired.

(** ** Exact arithmetic *)

Section Exact.

#[local] Open Scope R_scope.

Lemma Rsum_from (a : list R) : forall x : R, fold_left Rplus a x = x + Rsum a.
Proof.
  unfold Rsum. induction a as [|y a IH]; intros x; simpl; [lra |].
  rewrite (IH (x + y)), (IH (0 + y)). lra.
Qed.

Lemma Rsum_cons (x : R) (a : list R) : Rsum (x :: a) = x + Rsum a.
Proof. unfold Rsum at 1. simpl. rewrite Rsum_from. lra. Qed.

Lemma Rsum_Permutation (a b : list R) : Permutation a b -> Rsum a = Rsum b.
Proof.
  induction 1 as [| x a b _ IH | x y a | a b c _ IHab _ IHbc];
    rewrite ?Rsum_cons; try lra; congruence.
Qed.

Lemma Rsum_positive (a : list R) :
  a <> [] -> Forall (fun x => 0 < x) a -> 0 < Rsum a.
Proof.
  intros Hne Hpos. induction Hpos as [|x a Hx Hpos IH]; [contradiction |].
  rewrite Rsum_cons. destruct a as [|y a].
  - unfold Rsum. simpl. lra.
  - assert (0 < Rsum (y :: a)) by (apply IH; discriminate). lra.
Qed.

Lemma Rsum_repeat (x : R) (n : nat) : Rsum (repeat x n) = INR n * x.
Proof.
  induction n as [|n IH]; [unfold Rsum; simpl; lra |].
  cbn [repeat]. rewrite Rsum_cons, IH, S_INR. lra.
Qed.

Lemma Rless_true (x y : R) : x < y -> Rless x y = true.
Proof. unfold Rless. destruct (Rlt_dec x y); [reflexivity | contradiction]. Qed.

Lemma Rless_false (x y : R) : ~ x < y -> Rless x y = false.
Proof. unfold Rless. destruct (Rlt_dec x y); [contradiction | reflexivity]. Qed.

Lemma Requal_false (x y : R) : x <> y -> Requal x y = false.
Proof. unfold Requal. destruct (Req_dec_T x y); [contradiction | reflexivity]. Qed.

Lemma Rpower2_two (x : R) : Rpower2 x 2 = x * x.
Proof. unfold Rpower2. destruct (Req_dec_T 2 2); [reflexivity | contradiction]. Qed.

Lemma Rpower2_nonneg (x y : R) : 0 <= Rpower2 x y.
Proof.
  unfold Rpower2. destruct (Req_dec_T y 2).
  - nra.
  - unfold Rpower. left. apply exp_pos.
Qed.

(** A positive uncertainty has a positive weight in every pass. *)
Lemma pass_weight_positive (alpha beta n_factor mean : R) (p : R * R) :
  0 < snd p -> 0 < pass_weight (np := exact) alpha beta n_factor mean p.
Proof.
  intros He. unfold pass_weight, inv_var1. simpl.
  change (IZR 2) with 2. rewrite Rpower2_two.
  apply Rdiv_lt_0_compat.
  - apply Rdiv_lt_0_compat; [lra | nra].
  - match goal with |- 0 < 1 + Rpower2 ?x ?y =>
      pose proof (Rpower2_nonneg x y) end. lra.
Qed.

Lemma inv_var1_positive (e : R) : 0 < e -> 0 < inv_var1 (np := exact) e.
Proof.
  intros He. unfold inv_var1. simpl. change (IZR 2) with 2.
  rewrite Rpower2_two. apply Rdiv_lt_0_compat; [lra | nra].
Qed.

Lemma combine_snd_positive (values : list R) :
  forall errors : list R,
    Forall (fun e => 0 < e) errors ->
    Forall (fun p => 0 < snd p) (combine values errors).
Proof.
  induction values as [|v values IH]; intros errors Hpos; simpl; [constructor |].
  destruct Hpos as [|e errors He Hpos]; constructor; [exact He | apply IH, Hpos].
Qed.

(** On two or more observations with positive uncertainties the weights
    of [np.average] do not sum to zero. *)
Lemma np_average_exact_returns (w : R * R -> R) (values errors : list R) :
  List.length values = List.length errors ->
  values <> [] ->
  Forall (fun e => 0 < e) errors ->
  (forall p, 0 < snd p -> 0 < w p) ->
  np_average (np := exact) values (map w (combine values errors))
  = Ok (Rsum (map (fun p => fst p * w p) (combine values errors))
        / Rsum (map w (combine values errors))).
Proof.
  intros Hlen Hne Hpos Hw.
  rewrite np_average_paired by exact Hlen. cbv zeta. simpl.
  rewrite Requal_false; [reflexivity |].
  apply Rgt_not_eq, Rlt_gt, Rsum_positive.
  - destruct values as [|v values]; [contradiction |].
    destruct errors as [|e errors]; [discriminate | discriminate].
  - apply Forall_map. eapply Forall_impl; [| apply combine_snd_positive, Hpos].
    exact Hw.
Qed.

Lemma stetson_loop_exact_returns (alpha beta tol n_factor : R)
    (values errors : list R) (n_iter : nat) :
  List.length values = List.length errors ->
  values <> [] ->
  Forall (fun e => 0 < e) errors ->
  forall (mean : R) (passes : nat),
    returns (stetson_loop (np := exact) alpha beta tol n_factor values errors
               (inv_var_of errors) n_iter mean passes) = true.
Proof.
  intros Hlen Hne Hpos.
  induction n_iter as [|n IH]; intros mean passes; simpl; [reflexivity |].
  unfold reweighted_mean. rewrite weights_of_paired by exact Hlen.
  rewrite np_average_exact_returns; try assumption.
  - simpl. destruct (converged _ _ _); [reflexivity | apply IH].
  - intros p. apply pass_weight_positive.
Qed.

(** In exact arithmetic every valid input has a result. *)
Lemma stetson_mean_exact_returns (values errors : list R) (mean : option R)
    (alpha beta : R) (n_iter : nat) (tol : R) :
  (2 <= List.length values)%nat ->
  List.length errors = List.length values ->
  Forall (fun e => 0 < e) errors ->
  exists (m : R) (passes : nat),
    stetson_mean_passes (np := exact) values errors mean alpha beta n_iter tol
      = Ok (m, passes)
    /\ (passes <= n_iter)%nat.
Proof.
  intros Hn Hlen Hpos.
  assert (Hne : values <> []) by (destruct values; [simpl in Hn; lia | discriminate]).
  assert (Hret : returns (stetson_mean_passes (np := exact) values errors mean
                            alpha beta n_iter tol) = true).
  { unfold stetson_mean_passes.
    rewrite py_truediv_Ok by (unfold len; lia). simpl.
    destruct mean as [m|]; simpl.
    - apply stetson_loop_exact_returns; auto.
    - assert (Hinit : returns (np_average (np := exact) values (inv_var_of errors))
                       = true).
      { rewrite (inv_var_paired values errors) by auto.
        rewrite np_average_exact_returns; auto.
        intros p. apply inv_var1_positive. }
      destruct (np_average values (inv_var_of errors)) as [m|e]; [| discriminate].
      simpl. apply stetson_loop_exact_returns; auto. }
  destruct (stetson_mean_passes _ _ _ _ _ _ _) as [[m k]|e] eqn:Hrun;
    [| discriminate].
  exists m, k. split; [reflexivity |].
  unfold stetson_mean_passes in Hrun.
  apply bind_Ok in Hrun as (q & _ & Hrun).
  apply bind_Ok in Hrun as (m0 & _ & Hrun).
  apply stetson_loop_passes in Hrun. lia.
Qed.

End Exact.

(** ** The order of the observations *)

(** C8, as the code behaves in binary64: the three observations 0, 0, 3
    with unit uncertainties, and the same three in the order 3, 0, 0, have
    Stetson means that differ in the last place, because [np.average] adds
    the weights in the order of the array: [(w0 + w0) + w3] and
    [(w3 + w0) + w0] round differently. *)
Lemma stetson_mean_order_float64 :
  _stetson_mean [0; 0; 3]%float [1; 1; 1]%float None
      default_alpha default_beta default_n_iter default_tol
    = Ok 0.38767732324345533%float
  /\ _stetson_mean [3; 0; 0]%float [1; 1; 1]%float None
      default_alpha default_beta default_n_iter default_tol
    = Ok 0.38767732324345539%float
  /\ PrimFloat.ltb 0.38767732324345533%float 0.38767732324345539%float = true.
Proof. repeat split; vm_compute; reflexivity. Qed.

(** C8, amended: in exact arithmetic, where no sum rounds, [_stetson_mean]
    gives the same result (the same number, or the same exception) on an
    input and on any reordering of it that moves each value together with
    its uncertainty, for every configuration. *)
Theorem stetson_mean_order_exact (values errors values' errors' : list R)
    (mean : option R) (alpha beta : R) (n_iter : nat) (tol : R) :
  List.length values = List.length errors ->
  List.length values' = List.length errors' ->
  Permutation (combine values errors) (combine values' errors') ->
  _stetson_mean values errors mean alpha beta n_iter tol
  = _stetson_mean values' errors' mean alpha beta n_iter tol.
Proof.
  intros Hlen Hlen' Hperm. unfold _stetson_mean.
  rewrite (stetson_mean_passes_Permutation (np := exact)
             values errors values' errors'); try assumption; [reflexivity |].
  intros a b _. apply Rsum_Permutation.
Qed.

Lemma stetson_mean_order_exact_witness :
  _stetson_mean [IZR 1; IZR 2; IZR 4] [IZR 1; IZR 1; IZR 3] None
      default_alpha default_beta default_n_iter default_tol
  = _stetson_mean [IZR 4; IZR 1; IZR 2] [IZR 3; IZR 1; IZR 1] None
      default_alpha default_beta default_n_iter default_tol.
Proof.
  apply (stetson_mean_order_exact
           [IZR 1; IZR 2; IZR 4] [IZR 1; IZR 1; IZR 3]
           [IZR 4; IZR 1; IZR 2] [IZR 3; IZR 1; IZR 1]);
    [reflexivity | reflexivity |].
  apply Permutation_sym.
  exact (Permutation_cons_append [(IZR 1, IZR 1); (IZR 2, IZR 1)] (IZR 4, IZR 3)).
Defined.

(** *** Two observations in binary64 *)

Section Pair.

#[local] Open Scope float_scope.

Lemma SFadd_comm (x y : spec_float) : SF64add x y = SF64add y x.
Proof.
  unfold SF64add.
  destruct x as [[|]|[|]| |sx mx ex], y as [[|]|[|]| |sy my ey]; try reflexivity.
  simpl. rewrite (Z.min_comm ey ex), Z.add_comm. reflexivity.
Qed.

Lemma SFadd_zero_twice (x y : spec_float) :
  SF64add (SF64add (S754_zero false) x) y
  = SF64add (SF64add (S754_zero false) y) x.
Proof.
  destruct x as [[|]|[|]| |sx mx ex], y as [[|]|[|]| |sy my ey];
    try reflexivity.
  apply SFadd_comm.
Qed.

Lemma float_sum_swap (x y : float) : float_sum [x; y] = float_sum [y; x].
Proof.
  unfold float_sum. simpl. apply Prim2SF_inj.
  rewrite !add_spec. apply SFadd_zero_twice.
Qed.

Lemma sum_order_free_pair (pow_other : float -> float -> float) :
  sum_order_free (np := float64_with pow_other) 2.
Proof.
  intros a b Hlen Hperm.
  destruct a as [|x [|y [|z a]]]; try discriminate.
  pose proof (Permutation_length Hperm) as Hb.
  destruct b as [|x' [|y' [|z' b]]]; try discriminate.
  apply Permutation_length_2 in Hperm as [[-> ->] | [-> ->]];
    [reflexivity | apply float_sum_swap].
Qed.

End Pair.

(** Addition in binary64 commutes, so that the order of two observations
    does not matter; it does not associate, so that the order of three
    does ([stetson_mean_order_float64]). *)
Lemma stetson_mean_order_pair (pow_other : float -> float -> float)
    (v1 v2 e1 e2 : float) (mean : option float) (alpha beta : float)
    (n_iter : nat) (tol : float) :
  _stetson_mean (np := float64_with pow_other)
    [v1; v2] [e1; e2] mean alpha beta n_iter tol
  = _stetson_mean (np := float64_with pow_other)
      [v2; v1] [e2; e1] mean alpha beta n_iter tol.
Proof.
  unfold _stetson_mean.
  rewrite (stetson_mean_passes_Permutation (np := float64_with pow_other)
             [v1; v2] [e1; e2] [v2; v1] [e2; e1]);
    [reflexivity | apply sum_order_free_pair | reflexivity | reflexivity |].
  apply perm_swap.
Qed.

(** ** The iteration budget *)

Section Budget.

Context {F : Type} {np : NumPy F}.

Lemma stetson_loop_zero_weights (alpha beta tol n_factor : F)
    (values errors : list F) (n_iter : nat) :
  forall (mean : F) (passes : nat) (e : exn),
    stetson_loop alpha beta tol n_factor values errors (inv_var_of errors)
      n_iter mean passes = Raise e ->
    exists m, zero_weights alpha beta n_factor values errors m.
Proof.
  induction n_iter as [|n IH]; simpl; intros mean passes e Hrun.
  - discriminate.
  - apply bind_Raise in Hrun as [Hrun | (tmp & _ & Hrun)].
    + apply np_average_Raise in Hrun as [_ Hzero]. exists mean. exact Hzero.
    + destruct (converged _ _ _); [discriminate | eauto].
Qed.

End Budget.

(** C5, as the code behaves in binary64 on a valid input: two
    observations whose uncertainties, 1e200, are positive, and whose
    [inv_var = 1 / errors ** 2] is zero, so that the first [np.average]
    raises. *)
Lemma stetson_mean_valid_input_raises :
  PrimFloat.ltb 0 1e200 = true
  /\ inv_var_of [1e200; 1e200]%float = [0; 0]%float
  /\ _stetson_mean [1; 2]%float [1e200; 1e200]%float None
       default_alpha default_beta default_n_iter default_tol
     = Raise ZeroDivisionError.
Proof. repeat split; vm_compute; reflexivity. Qed.

(** C5, amended: on every input of two or more observations, each with
    its uncertainty, in any arithmetic, [_stetson_mean] makes at most
    [n_iter] reweighting passes
    and then returns the current estimate, whether the tolerance was met
    or not; nothing is raised for not converging.  The one exception it can
    raise is the [ZeroDivisionError] of an [np.average] whose weights
    ([inv_var] for the starting mean, the weights of a pass otherwise) sum
    to zero. *)
Theorem stetson_mean_iteration_budget {F : Type} {np : NumPy F}
    (values errors : list F) (mean : option F) (alpha beta : F)
    (n_iter : nat) (tol : F) :
  (2 <= List.length values)%nat ->
  List.length errors = List.length values ->
  match stetson_mean_passes values errors mean alpha beta n_iter tol with
  | Ok (m, passes) =>
      (passes <= n_iter)%nat
      /\ _stetson_mean values errors mean alpha beta n_iter tol = Ok m
  | Raise e =>
      e = ZeroDivisionError
      /\ ((mean = None
           /\ np_equal (np_sum (inv_var_of errors)) (float_of_int 0) = true)
          \/ exists n_factor m,
               zero_weights alpha beta n_factor values errors m)
  end.
Proof.
  intros Hn _. unfold _stetson_mean.
  destruct (stetson_mean_passes _ _ _ _ _ _ _) as [[m k]|e] eqn:Hrun.
  - split; [| reflexivity].
    unfold stetson_mean_passes in Hrun.
    apply bind_Ok in Hrun as (q & _ & Hrun).
    apply bind_Ok in Hrun as (m0 & _ & Hrun).
    apply stetson_loop_passes in Hrun. lia.
  - split; [eapply stetson_mean_passes_Raise; eassumption |].
    unfold stetson_mean_passes in Hrun.
    rewrite py_truediv_Ok in Hrun by (unfold len; lia). simpl in Hrun.
    apply bind_Raise in Hrun as [Hrun | (m0 & _ & Hrun)].
    + destruct mean as [m|]; [discriminate |].
      apply np_average_Raise in Hrun as [_ Hzero]. left. auto.
    + right. eexists. eapply stetson_loop_zero_weights. eassumption.
Qed.

(** The observations -1 and 1 have the mean 0, at which [diff / mean] is
    NaN: the tolerance is never met, and the estimate is returned after
    the twenty passes of the default budget. *)
Lemma stetson_mean_iteration_budget_witness :
  (20 <= 20)%nat
  /\ _stetson_mean [-1; 1]%float [1; 1]%float None
       default_alpha default_beta default_n_iter default_tol = Ok 0%float.
Proof.
  exact (stetson_mean_iteration_budget [-1; 1]%float [1; 1]%float None
           default_alpha default_beta default_n_iter default_tol
           (le_n 2) eq_refl).
Defined.

(** ** Identical observations *)

Section Identical.

#[local] Open Scope R_scope.

Lemma elementwise_repeat {F : Type} (f : F -> F -> F) (x y : F) (n : nat) :
  elementwise f (repeat x n) (repeat y n) = repeat (f x y) n.
Proof. induction n as [|n IH]; simpl; [reflexivity | rewrite IH; reflexivity]. Qed.

Lemma len_repeat {A : Type} (x : A) (n : nat) : len (repeat x n) = Z.of_nat n.
Proof. unfold len. rewrite repeat_length. reflexivity. Qed.

(** Equal weights, not zero, average [n] copies of [c] to [c]. *)
Lemma np_average_repeat (c w : R) (n : nat) :
  (0 < n)%nat -> w <> 0 ->
  np_average (np := exact) (repeat c n) (repeat w n) = Ok c.
Proof.
  intros Hn Hw. unfold np_average. cbv zeta.
  rewrite elementwise_repeat. simpl. rewrite !Rsum_repeat.
  assert (HINR : INR n <> 0) by (apply not_0_INR; lia).
  rewrite Requal_false by (apply Rmult_integral_contrapositive; auto).
  f_equal. field. auto.
Qed.

Lemma reweighted_mean_repeat (alpha beta n_factor c e : R) (n : nat) :
  (0 < n)%nat -> 0 < e ->
  reweighted_mean (np := exact) alpha beta n_factor
    (repeat c n) (repeat e n) (inv_var_of (repeat e n)) c = Ok c.
Proof.
  intros Hn He. unfold reweighted_mean, weights_of, chi_of, inv_var_of.
  rewrite !map_repeat, elementwise_repeat, !map_repeat, elementwise_repeat.
  apply np_average_repeat; [exact Hn |].
  apply Rgt_not_eq, Rlt_gt.
  exact (pass_weight_positive alpha beta n_factor c (c, e) He).
Qed.

(** Around the common value the loop never moves. *)
Lemma stetson_loop_repeat (alpha beta tol n_factor c e : R) (n n_iter : nat) :
  (0 < n)%nat -> 0 < e ->
  forall passes : nat,
    exists k : nat,
      stetson_loop (np := exact) alpha beta tol n_factor
        (repeat c n) (repeat e n) (inv_var_of (repeat e n)) n_iter c passes
      = Ok (c, k).
Proof.
  intros Hn He.
  induction n_iter as [|m IH]; intros passes; simpl; [eauto |].
  rewrite reweighted_mean_repeat by assumption. simpl.
  destruct (converged _ _ _); [eauto | apply IH].
Qed.

Lemma stetson_mean_repeat (c e : R) (n : nat) (alpha beta : R)
    (n_iter : nat) (tol : R) :
  (2 <= n)%nat -> 0 < e ->
  _stetson_mean (np := exact) (repeat c n) (repeat e n) None
    alpha beta n_iter tol = Ok c.
Proof.
  intros Hn He. unfold _stetson_mean, stetson_mean_passes.
  rewrite len_repeat, py_truediv_Ok by lia. simpl.
  assert (Hinit : np_average (np := exact) (repeat c n)
                    (inv_var_of (repeat e n)) = Ok c).
  { unfold inv_var_of. rewrite map_repeat.
    apply np_average_repeat; [lia |].
    apply Rgt_not_eq, Rlt_gt, (inv_var1_positive e He). }
  rewrite Hinit. simpl.
  destruct (stetson_loop_repeat alpha beta tol
              (R_sqrt.sqrt (IZR (Z.of_nat n) / IZR (Z.of_nat n - 1)))
              c e n n_iter ltac:(lia) He 0%nat) as (k & ->).
  reflexivity.
Qed.

Lemma np_sign_minus_one : np_sign (np := exact) (-1) = -1.
Proof. unfold np_sign. simpl. rewrite Rless_true by lra. reflexivity. Qed.

Lemma stetson_J_repeat (c e : R) (n : nat) :
  (2 <= n)%nat -> 0 < e ->
  stetson_J (np := exact) (repeat c n) (repeat e n) = Ok (-1).
Proof.
  intros Hn He. unfold stetson_J. cbv zeta.
  rewrite stetson_mean_repeat by assumption. simpl.
  rewrite len_repeat, py_truediv_Ok by lia. simpl. f_equal.
  rewrite !map_repeat, elementwise_repeat, !map_repeat.
  set (q := R_sqrt.sqrt _).
  assert (Hp : Rpower2 (q * (c - c) / e) 2 - 1 = -1).
  { rewrite Rpower2_two. field. lra. }
  rewrite Hp, np_sign_minus_one.
  unfold np_mean. simpl. rewrite Rsum_repeat, len_repeat, <- INR_IZR_INZ.
  assert (Habs : Rabs (-1) = 1) by (rewrite Rabs_left; lra).
  rewrite Habs, sqrt_1.
  field. apply not_0_INR. lia.
Qed.

End Identical.

(** C4, as the code behaves in binary64: the weighted average of three
    values 0.1 with unit uncertainties is 0.30000000000000004 / 3, the
    next number above 0.1; and with the uncertainties 1e-18 the residuals
    of that rounding exceed the uncertainties, and the statistic is far
    from -1. *)
Lemma identical_values_float64 :
  _stetson_mean [0.1; 0.1; 0.1]%float [1; 1; 1]%float None
      default_alpha default_beta default_n_iter default_tol
    = Ok 0.10000000000000002%float
  /\ PrimFloat.ltb 0.1 0.10000000000000002 = true
  /\ stetson_J [0.1; 0.1; 0.1]%float [1e-18; 1e-18; 1e-18]%float
    = Ok 16.967306552841123%float.
Proof. repeat split; vm_compute; reflexivity. Qed.

(** The example of the claim, in binary64, where nothing rounds. *)
Lemma identical_values_example :
  _stetson_mean [10; 10; 10; 10]%float [1; 1; 1; 1]%float None
      default_alpha default_beta default_n_iter default_tol = Ok 10%float
  /\ stetson_J [10; 10; 10; 10]%float [1; 1; 1; 1]%float = Ok (-1)%float.
Proof. split; vm_compute; reflexivity. Qed.

(** C4, amended: in exact arithmetic, for [n >= 2] observations of one
    value [c] with one positive uncertainty [e], [_stetson_mean] returns
    [c] (for every positive [alpha] and [beta], and every [n_iter] and
    [tol]) and [stetson_J] returns -1. *)
Theorem identical_values_exact (c e : R) (n : nat) (alpha beta : R)
    (n_iter : nat) (tol : R) :
  (2 <= n)%nat -> (0 < e)%R -> (0 < alpha)%R -> (0 < beta)%R ->
  _stetson_mean (repeat c n) (repeat e n) None alpha beta n_iter tol = Ok c
  /\ stetson_J (repeat c n) (repeat e n) = Ok (-1)%R.
Proof.
  intros Hn He _ _. split; [apply stetson_mean_repeat | apply stetson_J_repeat];
    assumption.
Qed.

Lemma identical_values_exact_witness :
  _stetson_mean [10; 10; 10; 10]%R [1; 1; 1; 1]%R None
      default_alpha default_beta default_n_iter default_tol = Ok 10%R
  /\ stetson_J [10; 10; 10; 10]%R [1; 1; 1; 1]%R = Ok (-1)%R.
Proof.
  apply (identical_values_exact 10%R 1%R 4
           default_alpha default_beta default_n_iter default_tol);
    [lia | lra | simpl; lra | simpl; lra].
Defined.

(** ** The early-termination check in binary64 *)

Section Check.

#[local] Open Scope float_scope.

Lemma Prim2SF_zero : Prim2SF 0 = S754_zero false.
Proof. reflexivity. Qed.

(** Rounding keeps the sign it is given: shifting and rounding a
    mantissa that is not negative never makes it negative. *)
Lemma shr_1_nonneg (mrs : shr_record) :
  (0 <= shr_m mrs)%Z -> (0 <= shr_m (shr_1 mrs))%Z.
Proof.
  destruct mrs as [m r s]. simpl. destruct m as [|[p|p|]|[p|p|]]; simpl; lia.
Qed.

Lemma iter_pos_shr_1_nonneg (p : positive) :
  forall mrs, (0 <= shr_m mrs)%Z -> (0 <= shr_m (iter_pos shr_1 p mrs))%Z.
Proof.
  induction p as [p IH|p IH|]; intros mrs Hm; simpl.
  - apply IH, IH, shr_1_nonneg, Hm.
  - apply IH, IH, Hm.
  - apply shr_1_nonneg, Hm.
Qed.

Lemma shr_fexp_nonneg (m e : Z) (l : location) :
  (0 <= m)%Z -> (0 <= shr_m (fst (shr_fexp prec emax m e l)))%Z.
Proof.
  intros Hm. unfold shr_fexp, shr.
  assert (H0 : (0 <= shr_m (shr_record_of_loc m l))%Z).
  { destruct l as [|[| |]]; simpl; exact Hm. }
  destruct (_ - e)%Z; simpl; auto using iter_pos_shr_1_nonneg.
Qed.

Lemma round_nearest_even_nonneg (m : Z) (l : location) :
  (0 <= m)%Z -> (0 <= round_nearest_even m l)%Z.
Proof.
  intros Hm. destruct l as [|[| |]]; simpl; try lia.
  destruct (Z.even m); lia.
Qed.

Lemma binary_round_aux_sign (s : bool) (m e : Z) (l : location) :
  (0 <= m)%Z -> sign_is s (binary_round_aux prec emax s m e l).
Proof.
  intros Hm. unfold binary_round_aux.
  pose proof (shr_fexp_nonneg m e l Hm) as H1.
  destruct (shr_fexp prec emax m e l) as [mrs' e']. simpl in H1.
  pose proof (shr_fexp_nonneg _ e' loc_Exact
                (round_nearest_even_nonneg _ (loc_of_shr_record mrs') H1)) as H2.
  destruct (shr_fexp prec emax _ e' loc_Exact) as [mrs'' e'']. simpl in H2.
  unfold sign_is.
  destruct (shr_m mrs'') as [|p|p]; [reflexivity | | lia].
  destruct (Z.leb _ _); reflexivity.
Qed.

(** The quotient of two finite numbers is not a NaN, and its sign is the
    exclusive or of theirs, also when it underflows or overflows. *)
Lemma SFdiv_finite_sign (sx sy : bool) (mx my : positive) (ex ey : Z) :
  sign_is (xorb sx sy)
    (SF64div (S754_finite sx mx ex) (S754_finite sy my ey)).
Proof.
  unfold SF64div, SFdiv.
  destruct (SFdiv_core_binary prec emax (Z.pos mx) ex (Z.pos my) ey)
    as [[mz ez] lz] eqn:Hcore.
  apply binary_round_aux_sign.
  unfold SFdiv_core_binary in Hcore.
  set (m' := match _ with Zpos _ => _ | Z0 => _ | Zneg _ => _ end) in Hcore.
  assert (Hm' : (0 <= m')%Z).
  { subst m'. destruct (_ - _ - _)%Z; try lia. apply Z.shiftl_nonneg. lia. }
  pose proof (Z.div_eucl_eq m' (Z.pos my) ltac:(lia)) as Heq.
  pose proof (Z.mod_pos_bound m' (Z.pos my) ltac:(lia)) as Hmod.
  unfold Z.modulo in Hmod.
  destruct (Z.div_eucl m' (Z.pos my)) as [q r]. injection Hcore as <- _ _.
  nia.
Qed.

Lemma SFltb_negative_positive (x t : spec_float) :
  sign_is true x -> SFltb (S754_zero false) t = true -> SFltb x t = true.
Proof.
  destruct x as [s|s| |s m e]; simpl; intros Hs; try contradiction; subst s;
    destruct t as [s'|[|]| |[|] m' e']; simpl; intros Ht;
    try discriminate; reflexivity.
Qed.

(** At the mean +0.0 the quotient [diff / mean] is +inf, or NaN when
    [diff] is 0 or NaN, and is below no tolerance. *)
Lemma converged_at_zero (pow_other : float -> float -> float) (d tol : float) :
  converged (np := float64_with pow_other) (abs d) 0 tol = false.
Proof.
  unfold converged. simpl.
  rewrite ltb_spec, div_spec, abs_spec, Prim2SF_zero.
  destruct (Prim2SF d) as [s|s| |s m e]; simpl;
    destruct (Prim2SF tol) as [s'|[|]| |s' m' e']; reflexivity.
Qed.

(** At the mean -0.0 the quotient is -inf as soon as [diff] is positive,
    and the check is the absolute one. *)
Lemma converged_at_negative_zero (pow_other : float -> float -> float)
    (d tol mean : float) :
  Prim2SF mean = S754_zero true ->
  converged (np := float64_with pow_other) (abs d) mean tol
  = PrimFloat.ltb 0 (abs d) && PrimFloat.ltb (abs d) tol.
Proof.
  intros Hmean. unfold converged. simpl.
  rewrite !ltb_spec, div_spec, abs_spec, Prim2SF_zero, Hmean.
  destruct (Prim2SF d) as [s|s| |s m e]; simpl;
    destruct (Prim2SF tol) as [s'|[|]| |[|] m' e']; reflexivity.
Qed.

(** Below a negative mean the relative check holds whenever the absolute
    one does. *)
Lemma converged_at_negative_mean (pow_other : float -> float -> float)
    (diff mean tol : float) :
  PrimFloat.ltb 0 diff = true ->
  PrimFloat.ltb mean 0 = true ->
  PrimFloat.ltb 0 tol = true ->
  converged (np := float64_with pow_other) diff mean tol = PrimFloat.ltb diff tol
  /\ (PrimFloat.ltb diff tol = true -> PrimFloat.ltb (diff / mean) tol = true).
Proof.
  unfold converged. simpl.
  rewrite !ltb_spec, div_spec, Prim2SF_zero.
  intros Hdiff Hmean Htol.
  assert (Hq : SFltb (Prim2SF diff) (Prim2SF tol) = true ->
               SFltb (SF64div (Prim2SF diff) (Prim2SF mean)) (Prim2SF tol) = true).
  { intros Hlt. apply SFltb_negative_positive; [| exact Htol].
    destruct (Prim2SF diff) as [s|[|]| |[|] m e]; try discriminate.
    - destruct (Prim2SF tol) as [s'|[|]| |[|] m' e']; discriminate.
    - destruct (Prim2SF mean) as [s'|[|]| |[|] m' e']; try discriminate.
      + reflexivity.
      + apply (SFdiv_finite_sign false true). }
  split; [| exact Hq].
  destruct (SFltb (Prim2SF diff) (Prim2SF tol)) eqn:Hlt.
  - rewrite Hq by reflexivity. reflexivity.
  - apply andb_false_r.
Qed.

End Check.

(** C6, as the code behaves in binary64 when the mean becomes -0.0: from
    the starting mean 1e-7, the first pass over the values -2^-1074, 0, 0
    gives the mean -0.0 (the weighted sum -2^-1074 over 3 rounds to it);
    [diff / mean] is then -inf, below the tolerance, and the loop ends
    after that one pass of its twenty. *)
Lemma negative_zero_mean_terminates :
  reweighted_mean default_alpha default_beta (PrimFloat.sqrt (3 / 2))
      [-0x1p-1074; 0; 0]%float [1; 1; 1]%float (inv_var_of [1; 1; 1]%float)
      1e-7%float = Ok (-0)%float
  /\ PrimFloat.eqb (-0) 0 = true
  /\ PrimFloat.div (abs (-0 - 1e-7)) (-0) = neg_infinity
  /\ converged (abs (-0 - 1e-7)%float) (-0)%float default_tol = true
  /\ stetson_mean_passes [-0x1p-1074; 0; 0]%float [1; 1; 1]%float
       (Some 1e-7%float) default_alpha default_beta default_n_iter default_tol
     = Ok ((-0)%float, 1%nat).
Proof. repeat split; vm_compute; reflexivity. Qed.

(** C6, amended: the division [diff / mean] has no guard and raises
    nothing.  When the mean is +0.0 the quotient is +inf or NaN, the
    check is false for every [diff] and every tolerance, and the iteration
    goes on; when the mean is -0.0, the check is true exactly when
    [0 < diff < tol]. *)
Theorem zero_mean_check (pow_other : float -> float -> float) (d tol : float) :
  converged (np := float64_with pow_other) (abs d) 0%float tol = false
  /\ converged (np := float64_with pow_other) (abs d) (-0)%float tol
     = PrimFloat.ltb 0 (abs d) && PrimFloat.ltb (abs d) tol.
Proof.
  split; [apply converged_at_zero |].
  apply converged_at_negative_zero. reflexivity.
Qed.

(** At the mean +0.0 the relative test fails by itself: the quotient is
    +inf, or NaN, and is below no tolerance. *)
Lemma relative_test_at_zero (d tol : float) :
  PrimFloat.ltb (abs d / 0) tol = false.
Proof.
  rewrite ltb_spec, div_spec, abs_spec, Prim2SF_zero.
  destruct (Prim2SF d) as [s|s| |s m e]; simpl;
    destruct (Prim2SF tol) as [s'|[|]| |s' m' e']; reflexivity.
Qed.

(** Over a positive mean the quotient is not negative (it is +0.0, a
    positive number, +inf, or NaN): the sign of the tolerance does not
    settle the relative test. *)
Lemma relative_quotient_at_positive_mean (d mean : float) :
  PrimFloat.ltb 0 mean = true -> PrimFloat.ltb (abs d / mean) 0 = false.
Proof.
  rewrite !ltb_spec, div_spec, abs_spec, Prim2SF_zero. intros Hmean.
  destruct (Prim2SF mean) as [s'|[|]| |[|] m' e']; try discriminate;
    destruct (Prim2SF d) as [s|s| |s m e]; try reflexivity.
  pose proof (SFdiv_finite_sign false false m m' e e') as Hsign.
  cbn [SFabs]. unfold sign_is in Hsign. cbn [xorb] in Hsign.
  destruct (SF64div _ _) as [s''|s''| |s'' m'' e'']; try contradiction;
    subst s''; reflexivity.
Qed.

(** C10, as the code behaves at a mean that is not positive: at the mean
    +0.0 the relative test fails where the absolute test holds.  With
    [diff = 1e-9], below the tolerance, the quotient [diff / mean] is
    +inf and the check is false; two observations of 0, from the starting
    mean 1e-9, are given the mean 0 by the first pass, 1e-9 away, and by
    every pass after it, and the loop uses all its twenty passes. *)
Lemma zero_mean_relative_test :
  PrimFloat.ltb 0 0 = false
  /\ PrimFloat.ltb 1e-9 default_tol = true
  /\ (1e-9 / 0)%float = infinity
  /\ PrimFloat.ltb (1e-9 / 0) default_tol = false
  /\ converged 1e-9%float 0%float default_tol = false
  /\ reweighted_mean default_alpha default_beta (PrimFloat.sqrt 2)
       [0; 0]%float [1; 1]%float (inv_var_of [1; 1]%float) 1e-9%float
     = Ok 0%float
  /\ stetson_mean_passes [0; 0]%float [1; 1]%float (Some 1e-9%float)
       default_alpha default_beta default_n_iter default_tol
     = Ok (0%float, 20%nat).
Proof. repeat split; vm_compute; reflexivity. Qed.

(** C10, amended: in binary64, with a positive tolerance, a pass of the
    loop that computes the mean [tmp_mean], [diff] away from the mean
    before, ends the loop exactly when both tests hold,
    [diff / tmp_mean < tol] and [diff < tol].  What the relative test
    adds depends on the sign of [tmp_mean].  When it is negative and
    [diff] is positive, the relative test holds whenever the absolute
    one does, the quotient being negative (or -0.0), and the loop ends
    exactly when [diff < tol].  When it is +0.0, the relative test fails
    and the loop goes on, whatever [diff].  When it is positive, the
    quotient is not negative, and where the relative test fails the loop
    goes on, also where [diff < tol]. *)
Theorem mean_sign_check (pow_other : float -> float -> float)
    (alpha beta tol n_factor : float)
    (values errors inv_var : list float) (n_iter : nat)
    (mean tmp_mean : float) (passes : nat) :
  reweighted_mean (np := float64_with pow_other)
    alpha beta n_factor values errors inv_var mean = Ok tmp_mean ->
  PrimFloat.ltb 0 tol = true ->
  let diff := abs (tmp_mean - mean)%float in
  let this_pass :=
    stetson_loop (np := float64_with pow_other)
      alpha beta tol n_factor values errors inv_var (S n_iter) mean passes in
  let next_pass :=
    stetson_loop (np := float64_with pow_other)
      alpha beta tol n_factor values errors inv_var n_iter tmp_mean (S passes) in
  this_pass
  = (if PrimFloat.ltb (diff / tmp_mean) tol && PrimFloat.ltb diff tol
     then Ok (tmp_mean, S passes)
     else next_pass)
  /\ (PrimFloat.ltb tmp_mean 0 = true ->
      PrimFloat.ltb 0 diff = true ->
      (PrimFloat.ltb diff tol = true ->
       PrimFloat.ltb (diff / tmp_mean) tol = true)
      /\ converged (np := float64_with pow_other) diff tmp_mean tol
         = PrimFloat.ltb diff tol
      /\ this_pass
         = if PrimFloat.ltb diff tol then Ok (tmp_mean, S passes)
           else next_pass)
  /\ (tmp_mean = 0%float ->
      PrimFloat.ltb (diff / tmp_mean) tol = false
      /\ converged (np := float64_with pow_other) diff tmp_mean tol = false
      /\ this_pass = next_pass)
  /\ (PrimFloat.ltb 0 tmp_mean = true ->
      PrimFloat.ltb (diff / tmp_mean) 0 = false
      /\ (PrimFloat.ltb (diff / tmp_mean) tol = false ->
          converged (np := float64_with pow_other) diff tmp_mean tol = false
          /\ this_pass = next_pass)).
Proof.
  intros Hpass Htol diff this_pass next_pass.
  assert (Hstep : this_pass
                  = if converged (np := float64_with pow_other) diff tmp_mean tol
                    then Ok (tmp_mean, S passes)
                    else next_pass).
  { unfold this_pass. cbn [stetson_loop]. rewrite Hpass. reflexivity. }
  split; [exact Hstep |]. split; [| split].
  - intros Hneg Hdiff.
    destruct (converged_at_negative_mean pow_other diff tmp_mean tol
                Hdiff Hneg Htol) as [Hconv Hrel].
    split; [exact Hrel |]. split; [exact Hconv |].
    rewrite Hstep, Hconv. reflexivity.
  - intros Hzero.
    assert (Hrel : PrimFloat.ltb (diff / tmp_mean) tol = false)
      by (rewrite Hzero; apply relative_test_at_zero).
    assert (Hconv : converged (np := float64_with pow_other) diff tmp_mean tol
                    = false)
      by (unfold converged; cbn [np_less np_divide float64_with];
          rewrite Hrel; reflexivity).
    split; [exact Hrel |]. split; [exact Hconv |].
    rewrite Hstep, Hconv. reflexivity.
  - intros Hpos.
    split; [apply relative_quotient_at_positive_mean; exact Hpos |].
    intros Hrel.
    assert (Hconv : converged (np := float64_with pow_other) diff tmp_mean tol
                    = false)
      by (unfold converged; cbn [np_less np_divide float64_with];
          rewrite Hrel; reflexivity).
    split; [exact Hconv |]. rewrite Hstep, Hconv. reflexivity.
Qed.

(** Three passes.  Two observations of -4, from the starting mean
    -4.0000001: the pass gives the mean -4, a tenth of the tolerance
    away, and ends the loop.  Two observations of 0, from the starting
    mean 1e-9: the pass gives the mean 0, and the loop goes on.  Two
    observations of 1e-9, from the starting mean 1.01e-7: the pass gives
    the mean 1e-9, a tenth of the tolerance away and a hundred times the
    mean, and the loop goes on. *)
Lemma mean_sign_check_witness :
  (PrimFloat.ltb (abs (-4 - -4.0000001)) default_tol = true
   /\ stetson_loop default_alpha default_beta default_tol (PrimFloat.sqrt 2)
        [-4; -4]%float [1; 1]%float (inv_var_of [1; 1]%float)
        20 (-4.0000001)%float 0
      = Ok ((-4)%float, 1%nat))
  /\ (PrimFloat.ltb (abs (0 - 1e-9)) default_tol = true
      /\ converged (abs (0 - 1e-9)%float) 0%float default_tol = false
      /\ stetson_loop default_alpha default_beta default_tol (PrimFloat.sqrt 2)
           [0; 0]%float [1; 1]%float (inv_var_of [1; 1]%float)
           20 1e-9%float 0
         = stetson_loop default_alpha default_beta default_tol
             (PrimFloat.sqrt 2)
             [0; 0]%float [1; 1]%float (inv_var_of [1; 1]%float)
             19 0%float 1)
  /\ (PrimFloat.ltb (abs (1e-9 - 1.01e-7)) default_tol = true
      /\ converged (abs (1e-9 - 1.01e-7)%float) 1e-9%float default_tol = false
      /\ stetson_loop default_alpha default_beta default_tol (PrimFloat.sqrt 2)
           [1e-9; 1e-9]%float [1; 1]%float (inv_var_of [1; 1]%float)
           20 1.01e-7%float 0
         = stetson_loop default_alpha default_beta default_tol
             (PrimFloat.sqrt 2)
             [1e-9; 1e-9]%float [1; 1]%float (inv_var_of [1; 1]%float)
             19 1e-9%float 1).
Proof.
  split; [| split].
  - destruct (mean_sign_check (fun _ _ => nan)
                default_alpha default_beta default_tol
                (PrimFloat.sqrt 2) [-4; -4]%float [1; 1]%float
                (inv_var_of [1; 1]%float) 19 (-4.0000001)%float (-4)%float 0)
      as (_ & Hneg & _); try (vm_compute; reflexivity).
    destruct Hneg as (_ & _ & Hloop); try (vm_compute; reflexivity).
    split; [vm_compute; reflexivity | exact Hloop].
  - destruct (mean_sign_check (fun _ _ => nan)
                default_alpha default_beta default_tol
                (PrimFloat.sqrt 2) [0; 0]%float [1; 1]%float
                (inv_var_of [1; 1]%float) 19 1e-9%float 0%float 0)
      as (_ & _ & Hzero & _); try (vm_compute; reflexivity).
    destruct (Hzero eq_refl) as (_ & Hconv & Hloop).
    split; [vm_compute; reflexivity |]. split; [exact Hconv | exact Hloop].
  - destruct (mean_sign_check (fun _ _ => nan)
                default_alpha default_beta default_tol
                (PrimFloat.sqrt 2) [1e-9; 1e-9]%float [1; 1]%float
                (inv_var_of [1; 1]%float) 19 1.01e-7%float 1e-9%float 0)
      as (_ & _ & _ & Hpos); try (vm_compute; reflexivity).
    destruct Hpos as (_ & Hpos); [vm_compute; reflexivity |].
    destruct Hpos as (Hconv & Hloop); [vm_compute; reflexivity |].
    split; [vm_compute; reflexivity |]. split; [exact Hconv | exact Hloop].
Defined.

(** Above zero the relative check does bind.  Two observations of 1e-9
    from the starting mean 1.01e-7 need a second pass, the change of 1e-7
    being a hundred times the new mean; their mirror images, below zero,
    are accepted after the first. *)
Lemma positive_mean_check :
  stetson_mean_passes [1e-9; 1e-9]%float [1; 1]%float (Some 1.01e-7%float)
      default_alpha default_beta default_n_iter default_tol
    = Ok (1e-9%float, 2%nat)
  /\ stetson_mean_passes [-1e-9; -1e-9]%float [1; 1]%float (Some (-1.01e-7)%float)
      default_alpha default_beta default_n_iter default_tol
    = Ok ((-1e-9)%float, 1%nat).
Proof. split; vm_compute; reflexivity. Qed.

(** ** The calls leave the object and the arrays as they were *)

Section Frame.

Context {F : Type} {np : NumPy F}.

Implicit Types (st : state (F := F)) (a b : ndarray).

Lemma extends_refl st : extends st st.
Proof. split; [reflexivity | exists []; rewrite app_nil_r; reflexivity]. Qed.

Lemma extends_trans st1 st2 st3 :
  extends st1 st2 -> extends st2 st3 -> extends st1 st3.
Proof.
  intros [Hs1 (n1 & H1)] [Hs2 (n2 & H2)]. split; [congruence |].
  exists (n1 ++ n2). rewrite H2, H1, app_assoc. reflexivity.
Qed.

Lemma holds_extends st st' a (v : list F) :
  extends st st' -> holds st a v -> holds st' a v.
Proof.
  unfold holds. intros [_ (new & ->)] Ha.
  rewrite nth_error_app1; [exact Ha |].
  apply nth_error_Some. congruence.
Qed.

Lemma holds_nth st a (v : list F) : holds st a v -> nth a (heap st) [] = v.
Proof. unfold holds. intros Ha. apply nth_error_nth. exact Ha. Qed.

Lemma after_ret {A : Type} (x : A) st (Q : result A -> state -> Prop) :
  Q (Ok x) st -> after (ret x) st Q.
Proof. intros HQ. exact HQ. Qed.

Lemma after_lift {A : Type} (r : result A) st (Q : result A -> state -> Prop) :
  Q r st -> after (lift r) st Q.
Proof. intros HQ. exact HQ. Qed.

Lemma after_bind {A B : Type} (c : call A) (k : A -> call B) st
    (Q : result B -> state -> Prop) :
  after c st (fun r st' =>
                match r with
                | Ok x => after (k x) st' Q
                | Raise e => Q (Raise e) st'
                end) ->
  after (call_bind c k) st Q.
Proof.
  unfold after, call_bind. destruct (c st) as [[x|e] st']; simpl; auto.
Qed.

Lemma after_stronger {A : Type} (c : call A) st
    (P Q : result A -> state -> Prop) :
  after c st P -> (forall r st', P r st' -> Q r st') -> after c st Q.
Proof. unfold after. auto. Qed.

Lemma after_load st a (v : list F) (Q : result (list F) -> state -> Prop) :
  holds st a v -> Q (Ok v) st -> after (load a) st Q.
Proof.
  intros Ha HQ. unfold after, load. simpl. rewrite (holds_nth st a v Ha). exact HQ.
Qed.

Lemma after_alloc st (v : list F) (Q : result ndarray -> state -> Prop) :
  (forall st' r, extends st st' -> holds st' r v -> Q (Ok r) st') ->
  after (alloc v) st Q.
Proof.
  intros HQ. unfold after, alloc. simpl. apply HQ.
  - split; [reflexivity | eexists; reflexivity].
  - unfold holds. simpl. rewrite nth_error_app2, Nat.sub_diag by lia. reflexivity.
Qed.

Lemma after_ufunc1 (f : F -> F) st a (v : list F)
    (Q : result ndarray -> state -> Prop) :
  holds st a v ->
  (forall st' r, extends st st' -> holds st' r (map f v) -> Q (Ok r) st') ->
  after (ufunc1 f a) st Q.
Proof.
  intros Ha HQ. unfold ufunc1. apply after_bind.
  apply (after_load st a v); [exact Ha |]. apply after_alloc. exact HQ.
Qed.

Lemma after_ufunc2 (f : F -> F -> F) st a b (va vb : list F)
    (Q : result ndarray -> state -> Prop) :
  holds st a va -> holds st b vb ->
  (forall st' r, extends st st' -> holds st' r (elementwise f va vb) ->
                 Q (Ok r) st') ->
  after (ufunc2 f a b) st Q.
Proof.
  intros Ha Hb HQ. unfold ufunc2. apply after_bind.
  apply (after_load st a va); [exact Ha |]. apply after_bind.
  apply (after_load st b vb); [exact Hb |]. apply after_alloc. exact HQ.
Qed.

Lemma after_ufunc_scalar (f : F -> F -> F) st a (x : F) (v : list F)
    (Q : result ndarray -> state -> Prop) :
  holds st a v ->
  (forall st' r, extends st st' -> holds st' r (map (fun y => f y x) v) ->
                 Q (Ok r) st') ->
  after (ufunc_scalar f a x) st Q.
Proof.
  intros Ha HQ. unfold ufunc_scalar. apply after_bind.
  apply (after_load st a v); [exact Ha |]. apply after_alloc. exact HQ.
Qed.

Lemma after_scalar_ufunc (f : F -> F -> F) st (x : F) a (v : list F)
    (Q : result ndarray -> state -> Prop) :
  holds st a v ->
  (forall st' r, extends st st' -> holds st' r (map (fun y => f x y) v) ->
                 Q (Ok r) st') ->
  after (scalar_ufunc f x a) st Q.
Proof.
  intros Ha HQ. unfold scalar_ufunc. apply after_bind.
  apply (after_load st a v); [exact Ha |]. apply after_alloc. exact HQ.
Qed.

Lemma after_len st a (v : list F) (Q : result Z -> state -> Prop) :
  holds st a v -> Q (Ok (len v)) st -> after (call_len a) st Q.
Proof.
  intros Ha HQ. unfold call_len. apply after_bind.
  apply (after_load st a v); [exact Ha |]. apply after_ret. exact HQ.
Qed.

(** [np.average] on two arrays of the store returns what it returns on
    their contents, in a store with one array more at most. *)
Lemma after_np_average st a w (va vw : list F)
    (Q : result F -> state -> Prop) :
  holds st a va -> holds st w vw ->
  (forall st', extends st st' -> Q (np_average va vw) st') ->
  after (call_np_average a w) st Q.
Proof.
  intros Ha Hw HQ. unfold call_np_average. apply after_bind.
  apply (after_load st a va); [exact Ha |]. apply after_bind.
  apply (after_load st w vw); [exact Hw |].
  specialize (HQ st) as HQ0. unfold np_average in HQ, HQ0. cbv zeta in HQ, HQ0.
  destruct (np_equal (np_sum vw) (float_of_int 0)).
  - apply after_lift, HQ0, extends_refl.
  - apply after_bind. apply (after_ufunc2 np_multiply st a w va vw); try assumption.
    intros st' prod Hext Hprod. apply after_bind.
    apply (after_load st' prod _ _ Hprod). apply after_ret, HQ, Hext.
Qed.

Lemma after_np_mean st a (v : list F) (Q : result F -> state -> Prop) :
  holds st a v -> Q (Ok (np_mean v)) st -> after (call_np_mean a) st Q.
Proof.
  intros Ha HQ. unfold call_np_mean. apply after_bind.
  apply (after_load st a v); [exact Ha |]. apply after_ret. exact HQ.
Qed.

(** One statement of a body: the call of a ufunc on arrays the store
    holds, into a new state that extends the one before. *)
Ltac transport :=
  repeat match goal with
         | H : holds ?s ?a ?v, E : extends ?s ?s' |- _ =>
             lazymatch goal with
             | _ : holds s' a v |- _ => fail
             | _ => pose proof (holds_extends s s' a v E H)
             end
         end.

Ltac accumulate Hext :=
  match type of Hext with
  | extends ?s ?s' =>
      match goal with
      | Hacc : extends ?s0 s |- _ =>
          pose proof (extends_trans s0 s s' Hacc Hext); clear Hacc Hext
      end
  end.

Ltac statement :=
  apply after_bind;
  first [ eapply after_ufunc_scalar | eapply after_scalar_ufunc
        | eapply after_ufunc2 | eapply after_ufunc1 ];
  [eassumption .. |];
  let st' := fresh "st" in
  let r := fresh "r" in
  let Hext := fresh "Hext" in
  let Hr := fresh "Hr" in
  intros st' r Hext Hr; transport; accumulate Hext.

Lemma weights_of_statements (alpha beta n_factor mean : F)
    (values errors inv_var : list F) :
  elementwise np_divide inv_var
    (map (fun y => np_add (float_of_int 1) y)
       (map (fun y => np_power y beta)
          (map (fun y => np_divide y alpha)
             (map np_fabs
                (elementwise np_divide
                   (map (fun y => np_multiply n_factor y)
                      (map (fun y => np_subtract y mean) values))
                   errors)))))
  = weights_of alpha beta inv_var (chi_of n_factor values errors mean).
Proof.
  unfold weights_of, chi_of. rewrite !map_map. reflexivity.
Qed.

(** The loop on arrays of the store computes [stetson_loop] of their
    contents, and only adds arrays. *)
Lemma call_stetson_loop_spec (alpha beta tol n_factor : F)
    (values errors inv_var : ndarray) (vv ve vi : list F) (n_iter : nat) :
  forall (mean : F) (passes : nat) st0 st,
    extends st0 st ->
    holds st values vv -> holds st errors ve -> holds st inv_var vi ->
    after (call_stetson_loop alpha beta tol n_factor values errors inv_var
             n_iter mean passes) st
      (fun r st' =>
         r = stetson_loop alpha beta tol n_factor vv ve vi n_iter mean passes
         /\ extends st0 st').
Proof.
  induction n_iter as [|n IH]; intros mean passes st0 st Hacc Hv He Hi;
    cbn [call_stetson_loop stetson_loop].
  - apply after_ret. split; [reflexivity | exact Hacc].
  - do 8 statement.
    rewrite weights_of_statements in *.
    apply after_bind. eapply after_np_average; [eassumption .. |].
    intros st' Hlast. unfold reweighted_mean. transport. accumulate Hlast.
    destruct (np_average vv _) as [tmp|e]; cbn [bind].
    + destruct (converged _ _ _).
      * apply after_ret. split; [reflexivity | assumption].
      * apply (IH tmp (S passes) st0 st'); assumption.
    + split; [reflexivity | assumption].
Qed.

Lemma call_stetson_mean_spec (values errors : ndarray) (vv ve : list F)
    (mean : option F) (alpha beta : F) (n_iter : nat) (tol : F) st0 st :
  extends st0 st ->
  holds st values vv -> holds st errors ve ->
  after (call_stetson_mean values errors mean alpha beta n_iter tol) st
    (fun r st' =>
       r = _stetson_mean vv ve mean alpha beta n_iter tol /\ extends st0 st').
Proof.
  intros Hacc Hv He.
  unfold call_stetson_mean, _stetson_mean, stetson_mean_passes. cbv zeta.
  apply after_bind. apply (after_len st values vv _ Hv).
  apply after_bind, after_lift.
  destruct (py_truediv (len vv) (len vv - 1)) as [q|e]; cbn [bind];
    [| split; [reflexivity | exact Hacc]].
  do 2 statement.
  match goal with
  | H : holds _ _ (map _ (map _ ve)) |- _ =>
      rewrite map_map in H; fold (inv_var_of ve) in H
  end.
  apply after_bind.
  assert (Htail : forall (m : F) st3,
             extends st0 st3 -> holds st3 values vv -> holds st3 errors ve ->
             holds st3 r0 (inv_var_of ve) ->
             after
               (call_bind
                  (call_stetson_loop alpha beta tol (np_sqrt q) values errors
                     r0 n_iter m 0%nat)
                  (fun r1 => ret (fst r1))) st3
               (fun r1 st' =>
                  r1 = bind (stetson_loop alpha beta tol (np_sqrt q) vv ve
                               (inv_var_of ve) n_iter m 0%nat)
                         (fun r2 => Ok (fst r2))
                  /\ extends st0 st')).
  { intros m st3 Hacc3 Hv3 He3 Hi3. apply after_bind.
    eapply after_stronger;
      [apply (call_stetson_loop_spec alpha beta tol (np_sqrt q) values errors r0
                vv ve (inv_var_of ve) n_iter m 0%nat st0 st3); assumption |].
    intros r1 st' [-> Hext'].
    destruct (stetson_loop _ _ _ _ _ _ _ _ _ _) as [x|e]; cbn [bind];
      [apply after_ret |]; auto. }
  destruct mean as [m|].
  - apply after_ret. cbn [bind]. apply Htail; assumption.
  - eapply after_np_average; [eassumption .. |].
    intros st' Hlast. transport. accumulate Hlast.
    destruct (np_average vv (inv_var_of ve)) as [m|e]; cbn [bind];
      [apply Htail; assumption | split; [reflexivity | assumption]].
Qed.

(** [a * b] on the sign and the root of one array. *)
Lemma elementwise_map (f : F -> F -> F) (g h : F -> F) (v : list F) :
  elementwise f (map g v) (map h v) = map (fun x => f (g x) (h x)) v.
Proof. induction v as [|x v IH]; simpl; [reflexivity | rewrite IH; reflexivity]. Qed.

Lemma call_stetson_J_spec (fluxes errors : ndarray) (vf ve : list F) st0 st :
  extends st0 st ->
  holds st fluxes vf -> holds st errors ve ->
  after (call_stetson_J fluxes errors) st
    (fun r st' => r = stetson_J vf ve /\ extends st0 st').
Proof.
  intros Hacc Hf He. unfold call_stetson_J, stetson_J. cbv zeta.
  apply after_bind. apply (after_len st fluxes vf _ Hf).
  apply after_bind.
  eapply after_stronger;
    [apply (call_stetson_mean_spec fluxes errors vf ve None default_alpha
              default_beta default_n_iter default_tol st st);
     [apply extends_refl | assumption ..] |].
  intros r st1 [-> Hmean]. transport. accumulate Hmean.
  destruct (_stetson_mean vf ve None _ _ _ _) as [flux_mean|e]; cbn [bind];
    [| split; [reflexivity | assumption]].
  apply after_bind, after_lift.
  destruct (py_truediv (len vf) (len vf - 1)) as [q|e]; cbn [bind];
    [| split; [reflexivity | assumption]].
  do 9 statement.
  eapply after_np_mean; [eassumption |].
  split; [| assumption].
  rewrite (map_map np_fabs np_sqrt), elementwise_map, !map_map. reflexivity.
Qed.

End Frame.

(** What a call leaves behind: the object [self] with its attributes
    [data], [meta] and [colmap] as it was, every array of the store with
    the contents it had (arrays are only added), and a second call with the
    result of the first. *)
Lemma call_frame {F : Type} {np : NumPy F} {A : Type}
    (c : call A) (pure : result A) (st : state (F := F)) :
  (forall st1, extends st st1 ->
               after c st1 (fun r st' => r = pure /\ extends st1 st')) ->
  fst (c st) = pure
  /\ self (snd (c st)) = self st
  /\ (exists new, heap (snd (c st)) = heap st ++ new)
  /\ fst (c (snd (c st))) = fst (c st).
Proof.
  intros Hc.
  destruct (Hc st (extends_refl st)) as [Hr [Hself Hheap]].
  destruct (Hc (snd (c st)) (conj Hself Hheap)) as [Hr' _].
  repeat split; try assumption. congruence.
Qed.

(** C9: a call of [stetson_J] or of [_stetson_mean] on arrays of the
    store returns what the estimator returns on their contents, and leaves
    the object ([data], [meta], [colmap]) and every array that existed,
    the two arguments among them, unchanged: the store after the call is
    the store before it with new arrays appended.  Nothing is carried from
    one call to the next: the same call on the state the first one left
    returns the same result. *)
Theorem stetson_calls_frame {F : Type} {np : NumPy F} (st : state (F := F))
    (fluxes errors : ndarray) (vf ve : list F)
    (mean : option F) (alpha beta : F) (n_iter : nat) (tol : F) :
  holds st fluxes vf ->
  holds st errors ve ->
  let J := call_stetson_J fluxes errors in
  let M := call_stetson_mean fluxes errors mean alpha beta n_iter tol in
  (fst (J st) = stetson_J vf ve
   /\ self (snd (J st)) = self st
   /\ (exists new, heap (snd (J st)) = heap st ++ new)
   /\ holds (snd (J st)) fluxes vf /\ holds (snd (J st)) errors ve
   /\ fst (J (snd (J st))) = fst (J st))
  /\ (fst (M st) = _stetson_mean vf ve mean alpha beta n_iter tol
      /\ self (snd (M st)) = self st
      /\ (exists new, heap (snd (M st)) = heap st ++ new)
      /\ holds (snd (M st)) fluxes vf /\ holds (snd (M st)) errors ve
      /\ fst (M (snd (M st))) = fst (M st)).
Proof.
  intros Hf He J M. split.
  - destruct (call_frame J (stetson_J vf ve) st) as (Hr & Hself & Hheap & Hagain).
    { intros st1 Hext. apply call_stetson_J_spec;
        [apply extends_refl | eapply holds_extends; eassumption ..]. }
    repeat split; try assumption;
      eapply holds_extends; try eassumption; split; assumption.
  - destruct (call_frame M (_stetson_mean vf ve mean alpha beta n_iter tol) st)
      as (Hr & Hself & Hheap & Hagain).
    { intros st1 Hext. apply call_stetson_mean_spec;
        [apply extends_refl | eapply holds_extends; eassumption ..]. }
    repeat split; try assumption;
      eapply holds_extends; try eassumption; split; assumption.
Qed.

Lemma stetson_calls_frame_witness :
  fst (call_stetson_J 0%nat 1%nat sample_state) = Ok (-1)%float
  /\ self (snd (call_stetson_J 0%nat 1%nat sample_state))
     = new_timeseries lsst_frame
  /\ nth_error (heap (snd (call_stetson_J 0%nat 1%nat sample_state))) 0
     = Some [10; 10; 10; 10]%float
  /\ nth_error (heap (snd (call_stetson_J 0%nat 1%nat sample_state))) 1
     = Some [1; 1; 1; 1]%float.
Proof.
  destruct (stetson_calls_frame sample_state 0%nat 1%nat
              [10; 10; 10; 10]%float [1; 1; 1; 1]%float
              None default_alpha default_beta default_n_iter default_tol
              eq_refl eq_refl)
    as ((Hr & Hself & _ & Hf & He & _) & _).
  repeat split; assumption.
Defined.

(** * The loaders and the accessors *)

Section Labels.

Context {F : Type}.

Lemma keys_dict_set_bound {V : Type} (d : dict V) (k : string) (v : V) :
  In k (keys d) -> keys (dict_set d k v) = keys d.
Proof.
  induction d as [|[k' v'] d IH]; simpl; intros Hk; [contradiction |].
  destruct (String.eqb_spec k' k) as [-> | Hne]; [reflexivity |].
  simpl. f_equal. apply IH. destruct Hk as [Hk | Hk]; [contradiction | exact Hk].
Qed.

(** The loop binds quantities that are keys already: the keys of the
    column mapping stay as they are, in their order. *)
Lemma map_labels_keys (data : DataFrame (F := F))
    (pairs : list (option string * string)) :
  forall colmap colmap' : dict (option string),
    (forall p, In p pairs -> In (snd p) (keys colmap)) ->
    map_labels data pairs colmap = Ok colmap' ->
    keys colmap' = keys colmap.
Proof.
  induction pairs as [|[label quantity] pairs IH]; intros colmap colmap' Hin Hrun;
    simpl in Hrun.
  - injection Hrun as <-. reflexivity.
  - assert (Hq : In quantity (keys colmap)) by (apply (Hin (label, quantity)); left; reflexivity).
    destruct label as [l|].
    + apply bind_Ok in Hrun as (c & _ & Hrun).
      apply IH in Hrun.
      * rewrite Hrun. apply keys_dict_set_bound, Hq.
      * intros p Hp. rewrite keys_dict_set_bound by exact Hq.
        apply Hin. right. exact Hp.
    + destruct (String.eqb quantity "flux_err"); [| discriminate].
      apply IH in Hrun; [exact Hrun |].
      intros p Hp. apply Hin. right. exact Hp.
Qed.

(** The loop raises nothing but the [KeyError] of a label that is not a
    column of the frame; the label [None] is none. *)
Lemma map_labels_Raise (data : DataFrame (F := F))
    (pairs : list (option string * string)) :
  forall (colmap : dict (option string)) (e : exn),
    map_labels data pairs colmap = Raise e ->
    exists label : option string,
      In label (map fst pairs)
      /\ match label with
         | Some l => e = KeyError l /\ dict_get (columns data) l = None
         | None => e = KeyError "None"
         end.
Proof.
  induction pairs as [|[label quantity] pairs IH]; intros colmap e Hrun;
    simpl in Hrun; [discriminate |].
  destruct label as [l|].
  - unfold getitem in Hrun.
    destruct (dict_get (columns data) l) as [c|] eqn:Hl; simpl in Hrun.
    + apply IH in Hrun as (label & Hin & Hlabel).
      exists label. split; [right; exact Hin | exact Hlabel].
    + injection Hrun as <-. exists (Some l).
      split; [left; reflexivity | split; [reflexivity | exact Hl]].
  - destruct (String.eqb quantity "flux_err").
    + apply IH in Hrun as (label & Hin & Hlabel).
      exists label. split; [right; exact Hin | exact Hlabel].
    + injection Hrun as <-. exists None. split; [left; reflexivity | reflexivity].
Qed.

Lemma in_map_fst_combine {A B : Type} (x : A) (a : list A) :
  forall b : list B, In x (map fst (combine a b)) -> In x a.
Proof.
  induction a as [|y a IH]; intros [|z b]; simpl; try contradiction.
  intros [-> | Hin]; [left; reflexivity | right; eapply IH; exact Hin].
Qed.

Lemma in_combine_keys {A : Type} (p : A * string) (a : list A) (b : list string) :
  In p (combine a b) -> In (snd p) b.
Proof. destruct p as [x k]. apply in_combine_r. Qed.

(** The loop on the three quantities of [__init__], with three labels
    that are columns. *)
Lemma map_labels_three (data : DataFrame (F := F)) (colmap : dict (option string))
    (time_label flux_label : string) (err_label : option string) :
  keys colmap = ["time"; "flux"; "flux_err"]%string ->
  dict_get (columns data) time_label <> None ->
  dict_get (columns data) flux_label <> None ->
  match err_label with
  | Some l => dict_get (columns data) l <> None
  | None => True
  end ->
  map_labels data
    (combine [Some time_label; Some flux_label; err_label] (keys colmap)) colmap
  = Ok [("time"%string, Some time_label); ("flux"%string, Some flux_label);
        ("flux_err"%string,
         match err_label with
         | Some l => Some l
         | None => match dict_get colmap "flux_err" with
                   | Some stale => stale
                   | None => None
                   end
         end)].
Proof.
  intros Hkeys Ht Hf He. rewrite Hkeys.
  destruct colmap as [|[k1 v1] [|[k2 v2] [|[k3 v3] [|]]]]; try discriminate.
  simpl in Hkeys. injection Hkeys as -> -> ->.
  simpl. unfold getitem.
  destruct (dict_get (columns data) time_label); [| contradiction]. simpl.
  destruct (dict_get (columns data) flux_label); [| contradiction]. simpl.
  destruct err_label as [err|]; [| reflexivity].
  destruct (dict_get (columns data) err); [| contradiction]. reflexivity.
Qed.

End Labels.

(** X1: [_from_ensemble] with three labels that name columns of the frame
    returns an object whose accessors [time], [flux] and [flux_err] give
    those columns, whose [data] is the frame, whose [cols] lists the
    columns of the frame and whose [meta['id']] is the object id. *)
Theorem from_ensemble_accessors {F : Type} (self : timeseries (F := F))
    (data_ : DataFrame) (object_id : Z) (time_label flux_label err_label : string)
    (t f e : list F) :
  keys (colmap self) = ["time"; "flux"; "flux_err"]%string ->
  getitem data_ time_label = Ok t ->
  getitem data_ flux_label = Ok f ->
  getitem data_ err_label = Ok e ->
  exists s : timeseries,
    _from_ensemble self data_ object_id
      (Some time_label) (Some flux_label) (Some err_label) = Ok s
    /\ time s = Ok t /\ flux s = Ok f /\ flux_err s = Ok (Some e)
    /\ data s = data_
    /\ cols s = Some (keys (columns data_))
    /\ dict_get (meta s) "id" = Some (Some object_id).
Proof.
  intros Hkeys Ht Hf He. unfold _from_ensemble. cbv zeta.
  assert (Hcol : forall l c, getitem data_ l = Ok c ->
                             dict_get (columns data_) l <> None).
  { unfold getitem. intros l c. destruct (dict_get _ l); [discriminate |]. discriminate. }
  rewrite (map_labels_three data_ (colmap self) time_label flux_label
             (Some err_label) Hkeys); eauto.
  simpl. eexists. split; [reflexivity |].
  unfold time, flux, flux_err, colmap_get. simpl.
  rewrite Ht, Hf, He. simpl. repeat split; try reflexivity.
  apply dict_get_set_same.
Qed.

Lemma from_ensemble_accessors_witness :
  exists s : timeseries,
    _from_ensemble (new_timeseries plain_frame) lsst_frame 7
      (Some "midPointTai"%string) (Some "psFlux"%string) (Some "psFluxErr"%string)
      = Ok s
    /\ time s = Ok [1; 2; 3; 4; 5; 6]%float
    /\ flux s = Ok [5; 1; 5; 10; 5; 1]%float
    /\ flux_err s = Ok (Some [1; 1; 1; 1; 1; 1]%float)
    /\ data s = lsst_frame
    /\ cols s = Some (keys (columns lsst_frame))
    /\ dict_get (meta s) "id" = Some (Some 7).
Proof.
  apply (from_ensemble_accessors (new_timeseries plain_frame) lsst_frame 7
           "midPointTai" "psFlux" "psFluxErr"); reflexivity.
Defined.

(** X2: [err_label=None] leaves [colmap['flux_err']] as it was.  On a new
    object [flux_err] is then [None]; on an object that was loaded before,
    the label of the earlier load is looked up in the new frame. *)
Theorem from_ensemble_optional_errors {F : Type} (self : timeseries (F := F))
    (data_ : DataFrame) (object_id : Z) (time_label flux_label : string)
    (t f : list F) :
  keys (colmap self) = ["time"; "flux"; "flux_err"]%string ->
  getitem data_ time_label = Ok t ->
  getitem data_ flux_label = Ok f ->
  exists s : timeseries,
    _from_ensemble self data_ object_id (Some time_label) (Some flux_label) None
      = Ok s
    /\ time s = Ok t /\ flux s = Ok f
    /\ colmap_get s "flux_err" = colmap_get self "flux_err"
    /\ (colmap_get self "flux_err" = Ok None -> flux_err s = Ok None)
    /\ (forall stale : string,
          colmap_get self "flux_err" = Ok (Some stale) ->
          flux_err s = (errors <- getitem data_ stale ;; Ok (Some errors))).
Proof.
  intros Hkeys Ht Hf. unfold _from_ensemble. cbv zeta.
  assert (Hcol : forall l c, getitem data_ l = Ok c ->
                             dict_get (columns data_) l <> None).
  { unfold getitem. intros l c. destruct (dict_get _ l); discriminate. }
  rewrite (map_labels_three data_ (colmap self) time_label flux_label
             None Hkeys); eauto.
  simpl. eexists. split; [reflexivity |].
  unfold time, flux, flux_err, colmap_get. simpl. rewrite Ht, Hf.
  destruct (colmap self) as [|[k1 v1] [|[k2 v2] [|[k3 v3] [|]]]]; try discriminate.
  simpl in Hkeys. injection Hkeys as -> -> ->. simpl.
  repeat split; try reflexivity.
  - intros Hnone. injection Hnone as ->. reflexivity.
  - intros stale Hstale. injection Hstale as ->. reflexivity.
Qed.

Lemma from_ensemble_optional_errors_witness :
  exists s : timeseries,
    _from_ensemble (new_timeseries plain_frame) lsst_frame 7
      (Some "midPointTai"%string) (Some "psFlux"%string) None = Ok s
    /\ time s = Ok [1; 2; 3; 4; 5; 6]%float
    /\ flux s = Ok [5; 1; 5; 10; 5; 1]%float
    /\ colmap_get s "flux_err" = colmap_get (new_timeseries plain_frame) "flux_err"
    /\ (colmap_get (new_timeseries plain_frame) "flux_err" = Ok None ->
        flux_err s = Ok None)
    /\ (forall stale : string,
          colmap_get (new_timeseries plain_frame) "flux_err" = Ok (Some stale) ->
          flux_err s = (errors <- getitem lsst_frame stale ;; Ok (Some errors))).
Proof.
  apply (from_ensemble_optional_errors (new_timeseries plain_frame) lsst_frame 7
           "midPointTai" "psFlux"); reflexivity.
Defined.

(** X3: [_from_ensemble] raises nothing but a [KeyError], and the
    [KeyError] of one of its three labels: a label that is no column of
    the frame, or the label [None]. *)
Theorem from_ensemble_KeyError {F : Type} (self : timeseries (F := F))
    (data_ : DataFrame) (object_id : Z)
    (time_label flux_label err_label : option string) (e : exn) :
  _from_ensemble self data_ object_id time_label flux_label err_label = Raise e ->
  exists label : option string,
    In label [time_label; flux_label; err_label]
    /\ match label with
       | Some l => e = KeyError l /\ getitem data_ l = Raise (KeyError l)
       | None => e = KeyError "None"
       end.
Proof.
  unfold _from_ensemble. cbv zeta. intros Hrun.
  apply bind_Raise in Hrun as [Hrun | (c & _ & Hrun)]; [| discriminate].
  apply map_labels_Raise in Hrun as (label & Hin & Hlabel).
  exists label. split; [eapply in_map_fst_combine; exact Hin |].
  destruct label as [l|]; [| exact Hlabel].
  destruct Hlabel as [-> Hl]. split; [reflexivity |].
  unfold getitem. rewrite Hl. reflexivity.
Qed.

Lemma from_ensemble_KeyError_witness :
  exists label : option string,
    In label [Some "midPointTai"; Some "flux"; None]%string
    /\ match label with
       | Some l => KeyError "flux" = KeyError l
                   /\ getitem lsst_frame l = Raise (KeyError l)
       | None => KeyError "flux" = KeyError "None"
       end.
Proof.
  apply (from_ensemble_KeyError (new_timeseries lsst_frame) lsst_frame 1
           (Some "midPointTai"%string) (Some "flux"%string) None).
  reflexivity.
Defined.

(** X4: on an object whose column mapping has the three quantities of
    [__init__], [_from_ensemble] returns exactly when the time label and
    the flux label are columns of the frame and the error label is a
    column or [None]. *)
Theorem from_ensemble_returns {F : Type} (self : timeseries (F := F))
    (data_ : DataFrame) (object_id : Z)
    (time_label flux_label err_label : option string) :
  keys (colmap self) = ["time"; "flux"; "flux_err"]%string ->
  returns (_from_ensemble self data_ object_id time_label flux_label err_label)
    = true
  <-> (exists t f : string,
         time_label = Some t /\ flux_label = Some f
         /\ returns (getitem data_ t) = true
         /\ returns (getitem data_ f) = true
         /\ match err_label with
            | Some l => returns (getitem data_ l) = true
            | None => True
            end).
Proof.
  intros Hkeys. unfold _from_ensemble. cbv zeta. split.
  - rewrite Hkeys.
    destruct (colmap self) as [|[k1 v1] [|[k2 v2] [|[k3 v3] [|]]]]; try discriminate.
    simpl in Hkeys. injection Hkeys as -> -> ->.
    destruct time_label as [t|]; [| discriminate].
    destruct flux_label as [f|];
      [| simpl; destruct (getitem data_ t); discriminate].
    simpl. intros Hrun. exists t, f.
    destruct (getitem data_ t); [| discriminate].
    destruct (getitem data_ f); [| discriminate].
    repeat split; try reflexivity.
    destruct err_label as [l|]; [| exact I].
    simpl in Hrun. destruct (getitem data_ l); [reflexivity | discriminate].
  - intros (t & f & -> & -> & Ht & Hf & He).
    assert (Hcol : forall l, returns (getitem data_ l) = true ->
                             dict_get (columns data_) l <> None).
    { unfold getitem. intros l. destruct (dict_get _ l); discriminate. }
    rewrite (map_labels_three data_ (colmap self) t f err_label Hkeys); auto.
    destruct err_label as [l|]; auto.
Qed.

Lemma from_ensemble_returns_witness :
  returns (_from_ensemble (new_timeseries lsst_frame) lsst_frame 1
             (Some "midPointTai"%string) (Some "psFlux"%string) None) = true
  <-> (exists t f : string,
         Some "midPointTai"%string = Some t /\ Some "psFlux"%string = Some f
         /\ returns (getitem lsst_frame t) = true
         /\ returns (getitem lsst_frame f) = true
         /\ True).
Proof.
  apply (from_ensemble_returns (new_timeseries lsst_frame) lsst_frame 1
           (Some "midPointTai"%string) (Some "psFlux"%string) None).
  reflexivity.
Defined.

(** X5: what [_from_ensemble] keeps of the object: the quantities of the
    column mapping, in their order, and every entry of [meta] but
    ['id']. *)
Theorem from_ensemble_keeps {F : Type} (self s : timeseries (F := F))
    (data_ : DataFrame) (object_id : Z)
    (time_label flux_label err_label : option string) :
  _from_ensemble self data_ object_id time_label flux_label err_label = Ok s ->
  keys (colmap s) = keys (colmap self)
  /\ (forall k : string, k <> "id"%string ->
        dict_get (meta s) k = dict_get (meta self) k)
  /\ dict_get (meta s) "id" = Some (Some object_id).
Proof.
  unfold _from_ensemble. cbv zeta. intros Hrun.
  apply bind_Ok in Hrun as (c & Hc & Hrun). injection Hrun as <-. simpl.
  split; [| split].
  - eapply map_labels_keys; [| exact Hc].
    intros p Hp. eapply in_combine_keys. exact Hp.
  - intros k Hk. apply dict_get_set_other. exact Hk.
  - apply dict_get_set_same.
Qed.

Lemma from_ensemble_keeps_witness :
  keys (colmap reloaded) = keys (colmap (new_timeseries plain_frame))
  /\ (forall k : string, k <> "id"%string ->
        dict_get (meta reloaded) k
        = dict_get (meta (new_timeseries plain_frame)) k)
  /\ dict_get (meta reloaded) "id" = Some (Some 7).
Proof.
  apply (from_ensemble_keeps (new_timeseries plain_frame) reloaded lsst_frame 7
           (Some "midPointTai"%string) (Some "psFlux"%string) None).
  reflexivity.
Defined.

(** X6: before a loader has run, the object maps no column: [time] and
    [flux] raise the [KeyError] of the label [None] on every frame, and
    [flux_err] is [None]. *)
Theorem accessors_before_loading {F : Type} (frame : DataFrame (F := F)) :
  time (new_timeseries frame) = Raise (KeyError "None")
  /\ flux (new_timeseries frame) = Raise (KeyError "None")
  /\ flux_err (new_timeseries frame) = Ok None.
Proof. repeat split. Qed.

Section Self.

Context {F : Type}.

Lemma map_labels_self_agrees (data_ : DataFrame (F := F))
    (pairs : list (option string * string)) :
  forall colmap_ : dict (option string),
    map_labels data_ pairs colmap_
    = match snd (map_labels_self data_ pairs colmap_) with
      | None => Ok (fst (map_labels_self data_ pairs colmap_))
      | Some e => Raise e
      end.
Proof.
  induction pairs as [|[[l|] quantity] pairs IH]; intros colmap_; simpl.
  - reflexivity.
  - unfold getitem. destruct (dict_get (columns data_) l); simpl;
      [apply IH | reflexivity].
  - destruct (String.eqb quantity "flux_err"); [apply IH | reflexivity].
Qed.

End Self.

(** X7: [_from_ensemble] is not all or nothing.  The object it leaves
    agrees with the object it returns when it returns, and raises what
    it raises; when it raises, the object holds the new frame, the new
    columns and the new id all the same, and with the three quantities of
    [__init__], a time label that is a column and a flux label that is
    none, the time label is bound already and the flux label is not. *)
Theorem from_ensemble_half_loaded {F : Type} (self : timeseries (F := F))
    (data_ : DataFrame) (object_id : Z)
    (time_label flux_label err_label : option string) :
  let '(after_, raised) :=
    _from_ensemble_self self data_ object_id time_label flux_label err_label in
  _from_ensemble self data_ object_id time_label flux_label err_label
  = match raised with
    | None => Ok after_
    | Some e => Raise e
    end
  /\ data after_ = data_
  /\ cols after_ = Some (keys (columns data_))
  /\ dict_get (meta after_) "id" = Some (Some object_id)
  /\ (keys (colmap self) = ["time"; "flux"; "flux_err"]%string ->
      forall t f : string,
        time_label = Some t -> flux_label = Some f ->
        dict_get (columns data_) t <> None ->
        dict_get (columns data_) f = None ->
        raised = Some (KeyError f)
        /\ colmap_get after_ "time" = Ok (Some t)
        /\ colmap_get after_ "flux" = colmap_get self "flux").
Proof.
  unfold _from_ensemble, _from_ensemble_self. cbv zeta.
  rewrite map_labels_self_agrees.
  destruct (map_labels_self data_ _ (colmap self)) as [colmap_ raised] eqn:Hleft.
  cbn [fst snd data cols meta].
  split; [destruct raised; reflexivity |].
  split; [reflexivity |]. split; [reflexivity |].
  split; [apply dict_get_set_same |].
  intros Hkeys t f -> -> Ht Hf. rewrite Hkeys in Hleft. unfold colmap_get.
  destruct (colmap self) as [|[k1 v1] [|[k2 v2] [|[k3 v3] [|]]]]; try discriminate.
  simpl in Hkeys. injection Hkeys as -> -> ->.
  simpl in Hleft. unfold getitem in Hleft.
  destruct (dict_get (columns data_) t); [| contradiction].
  rewrite Hf in Hleft. injection Hleft as <- <-.
  simpl. repeat split.
Qed.

Lemma from_ensemble_half_loaded_witness :
  snd (_from_ensemble_self (new_timeseries plain_frame) lsst_frame 7
         (Some "midPointTai"%string) (Some "flux"%string) None)
  = Some (KeyError "flux")
  /\ colmap_get
       (fst (_from_ensemble_self (new_timeseries plain_frame) lsst_frame 7
               (Some "midPointTai"%string) (Some "flux"%string) None)) "time"
     = Ok (Some "midPointTai"%string)
  /\ colmap_get
       (fst (_from_ensemble_self (new_timeseries plain_frame) lsst_frame 7
               (Some "midPointTai"%string) (Some "flux"%string) None)) "flux"
     = colmap_get (new_timeseries plain_frame) "flux".
Proof.
  apply (proj2 (proj2 (proj2 (proj2
           (from_ensemble_half_loaded (new_timeseries plain_frame) lsst_frame 7
              (Some "midPointTai"%string) (Some "flux"%string) None)))));
    try reflexivity.
  discriminate.
Defined.

(** * [sort_index] and [from_dict] *)

Section Rows.

Lemma row_leb_total (r s : row) : row_leb r s = true \/ row_leb s r = true.
Proof.
  unfold row_leb. rewrite (String.compare_antisym (fst (fst s)) (fst (fst r))).
  destruct (String.compare (fst (fst r)) (fst (fst s))); simpl; auto.
  rewrite (Z.compare_antisym (snd (fst r)) (snd (fst s))).
  destruct (Z.compare (snd (fst r)) (snd (fst s))); simpl; auto.
  destruct (Nat.leb_spec (snd r) (snd s)); [auto |].
  right. apply Nat.leb_le. lia.
Qed.

Lemma row_leb_trans (r s t : row) :
  row_leb r s = true -> row_leb s t = true -> row_leb r t = true.
Proof.
  unfold row_leb.
  destruct (String.compare (fst (fst r)) (fst (fst s))) eqn:Hrs; try discriminate;
    destruct (String.compare (fst (fst s)) (fst (fst t))) eqn:Hst; try discriminate.
  - apply String.compare_eq_iff in Hrs, Hst. rewrite Hrs, Hst, string_compare_refl.
    destruct (Z.compare_spec (snd (fst r)) (snd (fst s))); try discriminate;
      destruct (Z.compare_spec (snd (fst s)) (snd (fst t))); try discriminate;
      destruct (Z.compare_spec (snd (fst r)) (snd (fst t))); try lia; auto.
    rewrite !Nat.leb_le. lia.
  - apply String.compare_eq_iff in Hrs. rewrite Hrs, Hst. auto.
  - apply String.compare_eq_iff in Hst. rewrite <- Hst, Hrs. auto.
  - rewrite (string_compare_Lt_trans _ _ _ Hrs Hst). auto.
Qed.

Lemma row_le_band (r s : row) : row_le r s -> label_le (fst (fst r)) (fst (fst s)).
Proof.
  unfold row_le, row_leb, label_le, String.leb.
  destruct (String.compare _ _); congruence.
Qed.

Lemma insert_row_In (r s : row) (l : list row) :
  In s (insert_row r l) <-> s = r \/ In s l.
Proof.
  induction l as [|t l IH]; simpl.
  - intuition.
  - destruct (row_leb r t); simpl; rewrite ?IH; intuition.
Qed.

Lemma insert_row_Permutation (r : row) (l : list row) :
  Permutation (insert_row r l) (r :: l).
Proof.
  induction l as [|t l IH]; simpl; [reflexivity |].
  destruct (row_leb r t); [reflexivity |].
  rewrite IH. apply perm_swap.
Qed.

Lemma sort_rows_Permutation (l : list row) : Permutation (sort_rows l) l.
Proof.
  induction l as [|r l IH]; simpl; [reflexivity |].
  rewrite insert_row_Permutation, IH. reflexivity.
Qed.

Lemma insert_row_sorted (r : row) (l : list row) :
  StronglySorted row_le l -> StronglySorted row_le (insert_row r l).
Proof.
  induction l as [|t l IH]; simpl; intros Hs.
  - repeat constructor.
  - apply StronglySorted_inv in Hs as [Hl Ht].
    destruct (row_leb r t) eqn:Hrt.
    + constructor; [constructor; assumption |].
      constructor; [exact Hrt |].
      eapply Forall_impl; [| exact Ht].
      intros w Hw. eapply row_leb_trans; eassumption.
    + constructor; [apply IH; exact Hl |].
      apply Forall_forall. intros w Hw.
      apply insert_row_In in Hw as [-> | Hw].
      * destruct (row_leb_total r t) as [Hle | Hle]; [congruence | exact Hle].
      * rewrite Forall_forall in Ht. apply Ht. exact Hw.
Qed.

Lemma sort_rows_sorted (l : list row) : StronglySorted row_le (sort_rows l).
Proof.
  induction l as [|r l IH]; simpl; [constructor | apply insert_row_sorted, IH].
Qed.

(** A row that is below all the rows of a list goes in front. *)
Lemma insert_row_head (r : row) (l : list row) :
  Forall (row_le r) l -> insert_row r l = r :: l.
Proof.
  destruct 1 as [|t l Ht _]; simpl; [reflexivity |].
  unfold row_le in Ht. rewrite Ht. reflexivity.
Qed.

Lemma sort_rows_fixed (l : list row) : StronglySorted row_le l -> sort_rows l = l.
Proof.
  induction 1 as [|r l _ IH Hr]; simpl; [reflexivity |].
  rewrite IH. apply insert_row_head, Hr.
Qed.

Lemma Forall_filter {A : Type} (P : A -> Prop) (p : A -> bool) (l : list A) :
  Forall P l -> Forall P (filter p l).
Proof.
  induction 1 as [|x l Hx _ IH]; simpl; [constructor |].
  destruct (p x); [constructor; assumption | exact IH].
Qed.

Lemma StronglySorted_filter {A : Type} (R : A -> A -> Prop) (p : A -> bool)
    (l : list A) :
  StronglySorted R l -> StronglySorted R (filter p l).
Proof.
  induction 1 as [|x l _ IH Hx]; simpl; [constructor |].
  destruct (p x); [| exact IH].
  constructor; [exact IH | apply Forall_filter, Hx].
Qed.

(** Selecting rows and sorting them commute. *)
Lemma insert_row_filter (p : row -> bool) (r : row) (l : list row) :
  StronglySorted row_le l ->
  filter p (insert_row r l)
  = if p r then insert_row r (filter p l) else filter p l.
Proof.
  induction 1 as [|t l Hs IH Ht]; simpl.
  - destruct (p r); reflexivity.
  - destruct (row_leb r t) eqn:Hrt; simpl.
    + destruct (p r) eqn:Hpr; [| reflexivity].
      symmetry. apply (insert_row_head r (filter p (t :: l))).
      apply Forall_filter. constructor; [exact Hrt |].
      eapply Forall_impl; [| exact Ht].
      intros w Hw. eapply row_leb_trans; eassumption.
    + rewrite IH. destruct (p t), (p r); simpl; rewrite ?Hrt; reflexivity.
Qed.

Lemma sort_rows_filter (p : row -> bool) (l : list row) :
  filter p (sort_rows l) = sort_rows (filter p l).
Proof.
  induction l as [|r l IH]; simpl; [reflexivity |].
  rewrite insert_row_filter by apply sort_rows_sorted.
  rewrite IH. destruct (p r); reflexivity.
Qed.

End Rows.

Section Selection.

Lemma map_fst_combine {A B : Type} (a : list A) :
  forall b : list B, List.length a = List.length b -> map fst (combine a b) = a.
Proof.
  induction a as [|x a IH]; intros [|y b] Hlen; simpl in *; try discriminate;
    [reflexivity | rewrite IH by lia; reflexivity].
Qed.

Lemma map_snd_combine {A B : Type} (a : list A) :
  forall b : list B, List.length a = List.length b -> map snd (combine a b) = b.
Proof.
  induction a as [|x a IH]; intros [|y b] Hlen; simpl in *; try discriminate;
    [reflexivity | rewrite IH by lia; reflexivity].
Qed.

(** Taking the rows of a column at all its positions gives the column. *)
Lemma take_rows_seq_from {A : Type} (v : list A) :
  forall pre : list A,
    take_rows (seq (List.length pre) (List.length v)) (pre ++ v) = v.
Proof.
  unfold take_rows.
  induction v as [|x v IH]; intros pre; simpl; [reflexivity |].
  rewrite nth_error_app2, Nat.sub_diag by lia. simpl. f_equal.
  specialize (IH (pre ++ [x])).
  rewrite length_app, Nat.add_1_r, <- app_assoc in IH. exact IH.
Qed.

Lemma take_rows_seq {A : Type} (v : list A) :
  take_rows (seq 0 (List.length v)) v = v.
Proof. exact (take_rows_seq_from v []). Qed.

(** The rows of a band, of a column taken in the order of [rows]. *)
Lemma take_band_rows {A : Type} (b : string) (v : list A) (rows : list row) :
  Forall (fun r => (snd r < List.length v)%nat) rows ->
  take_band b (map fst rows) (take_rows (map snd rows) v)
  = take_rows (map snd (filter (fun r => String.eqb (fst (fst r)) b) rows)) v.
Proof.
  unfold take_rows.
  induction 1 as [|[[b' z] i] rows Hi _ IH]; simpl; [reflexivity |].
  simpl in Hi. apply nth_error_Some in Hi.
  destruct (nth_error v i) as [x|] eqn:Hx; [| contradiction]. simpl.
  destruct (String.eqb b' b); simpl; rewrite ?Hx, IH; reflexivity.
Qed.

Lemma take_rows_entries {A : Type} (v : list A) (rows : list (A * nat)) :
  Forall (fun r => nth_error v (snd r) = Some (fst r)) rows ->
  take_rows (map snd rows) v = map fst rows.
Proof.
  unfold take_rows.
  induction 1 as [|[x i] rows Hi _ IH]; simpl; [reflexivity |].
  simpl in Hi. rewrite Hi, IH. reflexivity.
Qed.

Lemma combine_seq_entries {A : Type} (v : list A) :
  forall pre : list A,
    Forall (fun r => nth_error (pre ++ v) (snd r) = Some (fst r))
           (combine v (seq (List.length pre) (List.length v))).
Proof.
  induction v as [|x v IH]; intros pre; simpl; constructor.
  - simpl. rewrite nth_error_app2, Nat.sub_diag by lia. reflexivity.
  - specialize (IH (pre ++ [x])).
    rewrite length_app, Nat.add_1_r, <- app_assoc in IH. exact IH.
Qed.

(** [_build_index]: one entry for each row, its band and its position. *)
Lemma build_index_length (band : list string) :
  List.length (_build_index band) = List.length band.
Proof.
  unfold _build_index. rewrite length_combine, length_map, length_seq. lia.
Qed.

Lemma build_index_band (band : list string) : map fst (_build_index band) = band.
Proof.
  unfold _build_index. apply map_fst_combine.
  rewrite length_map, length_seq. reflexivity.
Qed.

Lemma build_index_rows (band : list string) :
  forall k : nat,
    Forall (fun r : row => snd (fst r) = Z.of_nat (snd r) /\ (k <= snd r)%nat)
           (combine (combine band (map Z.of_nat (seq k (List.length band))))
                    (seq k (List.length band))).
Proof.
  induction band as [|b band IH]; intros k; simpl; constructor.
  - simpl. split; [reflexivity | lia].
  - eapply Forall_impl; [| apply (IH (S k))].
    intros r [Hr Hk]. split; [exact Hr | lia].
Qed.

Lemma build_index_rows_ascending (band : list string) :
  forall k : nat,
    StronglySorted (fun r s : row => (snd r < snd s)%nat)
      (combine (combine band (map Z.of_nat (seq k (List.length band))))
               (seq k (List.length band))).
Proof.
  induction band as [|b band IH]; intros k; simpl; constructor.
  - apply IH.
  - eapply Forall_impl; [| apply (build_index_rows band (S k))].
    intros r [_ Hk]. simpl. lia.
Qed.

Lemma StronglySorted_among {A : Type} (P : A -> Prop) (R R' : A -> A -> Prop)
    (l : list A) :
  (forall x y, P x -> P y -> R x y -> R' x y) ->
  Forall P l -> StronglySorted R l -> StronglySorted R' l.
Proof.
  intros HR HP. induction 1 as [|x l _ IH Hx]; constructor.
  - apply IH. eapply Forall_inv_tail, HP.
  - apply Forall_forall. intros y Hy. rewrite Forall_forall in HP, Hx.
    apply HR; [apply HP; left; reflexivity | apply HP; right; exact Hy | apply Hx, Hy].
Qed.

(** The rows of one band of a built index are in the order [sort_index]
    gives them. *)
Lemma build_index_band_sorted (band : list string) (b : string) :
  StronglySorted row_le
    (filter (fun r : row => String.eqb (fst (fst r)) b)
       (combine (_build_index band) (seq 0 (List.length (_build_index band))))).
Proof.
  rewrite build_index_length. unfold _build_index.
  apply (StronglySorted_among
           (fun r : row => fst (fst r) = b /\ snd (fst r) = Z.of_nat (snd r))
           (fun r s : row => (snd r < snd s)%nat)).
  - intros r s [Hr Hr'] [Hs Hs'] Hlt. unfold row_le, row_leb.
    rewrite Hr, Hs, string_compare_refl, Hr', Hs'.
    destruct (Z.compare_spec (Z.of_nat (snd r)) (Z.of_nat (snd s)));
      first [reflexivity | lia].
  - apply Forall_forall. intros r Hr. apply filter_In in Hr as [Hr Hb].
    split; [apply String.eqb_eq, Hb |].
    pose proof (build_index_rows band 0) as Hall.
    rewrite Forall_forall in Hall. apply Hall, Hr.
  - apply StronglySorted_filter, build_index_rows_ascending.
Qed.

Lemma sort_rows_In (r : row) (l : list row) : In r (sort_rows l) <-> In r l.
Proof.
  split; apply Permutation_in;
    [apply sort_rows_Permutation | symmetry; apply sort_rows_Permutation].
Qed.

(** [sort_index] keeps the rows of each band of a built index in the
    order they had: column by column. *)
Lemma sort_rows_take_band {A : Type} (band : list string) (b : string)
    (v : list A) :
  List.length v = List.length band ->
  let idx := _build_index band in
  let rows := sort_rows (combine idx (seq 0 (List.length idx))) in
  take_band b (map fst rows) (take_rows (map snd rows) v) = take_band b idx v.
Proof.
  intros Hlen. cbv zeta.
  assert (Hvalid : forall l : list row,
             (forall r, In r l ->
                In r (combine (_build_index band)
                        (seq 0 (List.length (_build_index band))))) ->
             Forall (fun r => (snd r < List.length v)%nat) l).
  { intros l Hl. apply Forall_forall. intros [e i] Hr. apply Hl in Hr.
    apply in_combine_r in Hr. apply in_seq in Hr. simpl.
    rewrite build_index_length in Hr. lia. }
  rewrite take_band_rows by (apply Hvalid; intros r; apply sort_rows_In).
  rewrite sort_rows_filter.
  rewrite sort_rows_fixed by apply build_index_band_sorted.
  rewrite <- take_band_rows by (apply Hvalid; auto).
  rewrite map_fst_combine, map_snd_combine by (rewrite length_seq; reflexivity).
  rewrite build_index_length, <- Hlen, take_rows_seq.
  reflexivity.
Qed.

End Selection.

Section SortedFrame.

Context {F : Type} {np : NumPy F}.

Lemma existsb_Permutation {A : Type} (f : A -> bool) (l l' : list A) :
  Permutation l l' -> existsb f l = existsb f l'.
Proof.
  induction 1 as [| x l l' _ IH | x y l | l l' l'' _ IH _ IH']; simpl.
  - reflexivity.
  - rewrite IH. reflexivity.
  - destruct (f x), (f y); reflexivity.
  - congruence.
Qed.

Lemma pd_DataFrame_Some (columns_ : dict (list F)) (idx : list (string * Z))
    (frame : DataFrame) :
  pd_DataFrame columns_ idx = Some frame ->
  frame = {| index := idx; columns := columns_ |}
  /\ Forall (fun c => List.length (snd c) = List.length idx) columns_.
Proof.
  unfold pd_DataFrame.
  destruct (forallb _ columns_) eqn:Hall; [| discriminate].
  intros Hframe. injection Hframe as <-. split; [reflexivity |].
  apply Forall_forall. intros c Hc.
  rewrite forallb_forall in Hall. apply Nat.eqb_eq, Hall, Hc.
Qed.

(** The index of a sorted frame is the index of the frame, taken in the
    order of the sorted rows. *)
Lemma sort_rows_index (idx : list (string * Z)) :
  let rows := sort_rows (combine idx (seq 0 (List.length idx))) in
  take_rows (map snd rows) idx = map fst rows.
Proof.
  cbv zeta. apply take_rows_entries.
  eapply Permutation_Forall; [symmetry; apply sort_rows_Permutation |].
  exact (combine_seq_entries idx []).
Qed.

Lemma sort_index_Permutation (frame : DataFrame (F := F)) :
  Permutation (index (sort_index frame)) (index frame).
Proof.
  unfold sort_index. simpl.
  rewrite sort_rows_Permutation, map_fst_combine by (rewrite length_seq; reflexivity).
  reflexivity.
Qed.

(** The bands of a sorted frame ascend. *)
Lemma sort_index_ascending (frame : DataFrame (F := F)) :
  StronglySorted label_le (map fst (index (sort_index frame))).
Proof.
  unfold sort_index. simpl.
  pose proof (sort_rows_sorted
                (combine (index frame) (seq 0 (List.length (index frame)))))
    as Hs.
  induction Hs as [|r l _ IH Hr]; simpl; constructor; [exact IH |].
  rewrite !Forall_map. eapply Forall_impl; [| exact Hr].
  intros s. apply row_le_band.
Qed.

(** [loc] on the sorted frame of a built index and on the frame itself:
    the rows of a band are the same rows in the same order. *)
Lemma sort_index_loc (columns_ : dict (list F)) (band_ : list string)
    (frame : DataFrame) (b : string) :
  pd_DataFrame columns_ (_build_index band_) = Some frame ->
  loc (sort_index frame) b = loc frame b.
Proof.
  intros Hframe. apply pd_DataFrame_Some in Hframe as [-> Hlen].
  unfold loc.
  rewrite (existsb_Permutation _ _ _ (sort_index_Permutation _)).
  destruct (existsb _ _); [| reflexivity].
  unfold sort_index. simpl. f_equal. f_equal.
  - rewrite <- (sort_rows_index (_build_index band_)) at 2.
    apply sort_rows_take_band, build_index_length.
  - rewrite map_map. apply map_ext_in. intros c Hc. simpl. f_equal.
    apply sort_rows_take_band.
    rewrite Forall_forall in Hlen. rewrite (Hlen c Hc).
    apply build_index_length.
Qed.

Lemma band_statistic_loc (self self' : timeseries) (b : string) :
  loc (data self') b = loc (data self) b ->
  band_statistic self' b = band_statistic self b.
Proof. unfold band_statistic. intros ->. reflexivity. Qed.

Lemma stetson_J_multi_loop_loc (self self' : timeseries) (unq_band : list string) :
  (forall b, loc (data self') b = loc (data self) b) ->
  forall result_ : dict F,
    stetson_J_multi_loop self' unq_band result_
    = stetson_J_multi_loop self unq_band result_.
Proof.
  intros Hloc. induction unq_band as [|b bands IH]; intros result_; simpl;
    [reflexivity |].
  rewrite (band_statistic_loc self self' b (Hloc b)).
  destruct (band_statistic self b); simpl; [apply IH | reflexivity].
Qed.

(** Two strictly ascending lists of the same labels are one list. *)
Lemma strictly_sorted_unique (l : list string) :
  forall l' : list string,
    StronglySorted label_lt l -> StronglySorted label_lt l' ->
    (forall x, In x l <-> In x l') -> l = l'.
Proof.
  induction l as [|x l IH]; intros [|y l'] Hs Hs' Hin.
  - reflexivity.
  - destruct (proj2 (Hin y) (or_introl eq_refl)).
  - destruct (proj1 (Hin x) (or_introl eq_refl)).
  - apply StronglySorted_inv in Hs as [Hs Hx], Hs' as [Hs' Hy].
    rewrite Forall_forall in Hx, Hy.
    assert (Hxy : x = y).
    { destruct (proj1 (Hin x) (or_introl eq_refl)) as [Heq | Hx']; [auto |].
      destruct (proj2 (Hin y) (or_introl eq_refl)) as [Heq | Hy']; [auto |].
      destruct (label_lt_irrefl x).
      eapply label_lt_trans; [apply Hx, Hy' | apply Hy, Hx']. }
    subst y. f_equal. apply IH; [exact Hs | exact Hs' |].
    intros z. split; intros Hz.
    + destruct (proj1 (Hin z) (or_intror Hz)) as [<- | Hz']; [| exact Hz'].
      destruct (label_lt_irrefl x (Hx x Hz)).
    + destruct (proj2 (Hin z) (or_intror Hz)) as [<- | Hz']; [| exact Hz'].
      destruct (label_lt_irrefl x (Hy x Hz)).
Qed.

Lemma np_unique_members (l l' : list string) :
  (forall x, In x l <-> In x l') -> np_unique l = np_unique l'.
Proof.
  intros Hin. apply strictly_sorted_unique; try apply np_unique_sorted.
  intros x. rewrite !np_unique_In. apply Hin.
Qed.

Lemma stetson_J_multi_loc (self self' : timeseries) :
  (forall b, loc (data self') b = loc (data self) b) ->
  (forall x, In x (band self') <-> In x (band self)) ->
  stetson_J_multi self' = stetson_J_multi self.
Proof.
  intros Hloc Hband. unfold stetson_J_multi. cbv zeta.
  rewrite (np_unique_members (band self') (band self) Hband).
  apply stetson_J_multi_loop_loc, Hloc.
Qed.

Lemma sort_index_band (frame : DataFrame (F := F)) (x : string) :
  In x (map fst (index (sort_index frame))) <-> In x (map fst (index frame)).
Proof.
  split; apply Permutation_in; apply Permutation_map;
    [| symmetry]; apply sort_index_Permutation.
Qed.

End SortedFrame.

(** X8: [sort_index] does not change what [stetson_J_multi] computes from
    a frame that [from_dict] builds: the index [_build_index] numbers the
    rows in their order, so that the rows of each band stay in the order
    of the dictionary; [loc] selects the same rows, and the statistic of
    every band, and the mapping of all, are those of the unsorted
    frame. *)
Theorem sort_index_statistics {F : Type} {np : NumPy F}
    (columns_ : dict (list F)) (band_ : list string) (frame : DataFrame)
    (self self' : timeseries) :
  pd_DataFrame columns_ (_build_index band_) = Some frame ->
  data self = frame ->
  data self' = sort_index frame ->
  (forall b, loc (data self') b = loc (data self) b)
  /\ (forall b, band_statistic self' b = band_statistic self b)
  /\ stetson_J_multi self' = stetson_J_multi self.
Proof.
  intros Hframe Hself Hself'.
  assert (Hloc : forall b, loc (data self') b = loc (data self) b).
  { intros b. rewrite Hself, Hself'. eapply sort_index_loc, Hframe. }
  split; [exact Hloc |]. split.
  - intros b. apply band_statistic_loc, Hloc.
  - apply stetson_J_multi_loc; [exact Hloc |].
    intros x. unfold band. rewrite Hself, Hself'. apply sort_index_band.
Qed.

Lemma sort_index_statistics_witness :
  (forall b, loc (data (new_timeseries (sort_index interleaved_frame))) b
             = loc (data (new_timeseries interleaved_frame)) b)
  /\ (forall b, band_statistic (new_timeseries (sort_index interleaved_frame)) b
                = band_statistic (new_timeseries interleaved_frame) b)
  /\ stetson_J_multi (new_timeseries (sort_index interleaved_frame))
     = stetson_J_multi (new_timeseries interleaved_frame).
Proof.
  apply (sort_index_statistics (columns interleaved_frame)
           ["B"; "A"; "B"; "A"; "B"; "A"]%string interleaved_frame);
    reflexivity.
Defined.

Section FromDict.

Context {F : Type}.

Lemma number_columns_get (d : dict (column (F := F))) :
  forall (columns_ : dict (list F)) (k : string),
    number_columns d = Some columns_ ->
    dict_get columns_ k
    = match dict_get d k with
      | Some (Numbers values) => Some values
      | _ => None
      end.
Proof.
  induction d as [|[key [band_ | values]] d IH]; intros columns_ k Hd;
    simpl in Hd; try discriminate.
  - injection Hd as <-. reflexivity.
  - destruct (number_columns d) as [rest|] eqn:Hrest; [| discriminate].
    injection Hd as <-. simpl.
    destruct (String.eqb key k); [reflexivity | apply IH; reflexivity].
Qed.

Lemma number_columns_keys (d : dict (column (F := F))) :
  forall columns_ : dict (list F),
    number_columns d = Some columns_ -> keys columns_ = keys d.
Proof.
  induction d as [|[key [band_ | values]] d IH]; intros columns_ Hd;
    simpl in Hd; try discriminate.
  - injection Hd as <-. reflexivity.
  - destruct (number_columns d) as [rest|] eqn:Hrest; [| discriminate].
    injection Hd as <-. simpl. f_equal. apply IH. reflexivity.
Qed.

(** The comprehension [{key: ... if key != band_label}]. *)
Lemma dict_get_without {V : Type} (d : dict V) (band_label k : string) :
  dict_get (filter (fun c => negb (String.eqb (fst c) band_label)) d) k
  = if String.eqb k band_label then None else dict_get d k.
Proof.
  induction d as [|[key v] d IH]; simpl.
  - destruct (String.eqb k band_label); reflexivity.
  - destruct (String.eqb_spec key band_label) as [Hkey | Hkey]; simpl.
    + rewrite IH. destruct (String.eqb_spec k band_label) as [Hk | Hk];
        [reflexivity |].
      destruct (String.eqb_spec key k); [congruence | reflexivity].
    + destruct (String.eqb_spec key k) as [Hk | Hk]; [| exact IH].
      destruct (String.eqb_spec k band_label); [congruence | reflexivity].
Qed.

Lemma keys_without {V : Type} (d : dict V) (band_label : string) :
  keys (filter (fun c => negb (String.eqb (fst c) band_label)) d)
  = filter (fun k => negb (String.eqb k band_label)) (keys d).
Proof.
  induction d as [|[key v] d IH]; simpl; [reflexivity |].
  destruct (String.eqb key band_label); simpl; rewrite IH; reflexivity.
Qed.

Lemma sort_index_get (frame : DataFrame (F := F)) (k : string) :
  dict_get (columns (sort_index frame)) k
  = match dict_get (columns frame) k with
    | Some values =>
        Some (take_rows
                (map snd (sort_rows (combine (index frame)
                                       (seq 0 (List.length (index frame))))))
                values)
    | None => None
    end.
Proof.
  unfold sort_index. simpl.
  induction (columns frame) as [|[key v] d IH]; simpl; [reflexivity |].
  destruct (String.eqb key k); [reflexivity | exact IH].
Qed.

Lemma sort_index_keys (frame : DataFrame (F := F)) :
  keys (columns (sort_index frame)) = keys (columns frame).
Proof.
  unfold sort_index, keys. simpl. rewrite map_map. reflexivity.
Qed.

(** What a call that returns has gone through. *)
Lemma from_dict_Ok (self s : timeseries (F := F)) (data_dict : dict column)
    (time_label flux_label err_label : option string) (band_label : string) :
  from_dict self data_dict time_label flux_label err_label band_label
    = Finished (Ok s) ->
  exists (band_ : list string) (columns_ : dict (list F)) (frame : DataFrame)
         (colmap_ : dict (option string)),
    dict_get data_dict band_label = Some (Labels band_)
    /\ number_columns
         (filter (fun c => negb (String.eqb (fst c) band_label)) data_dict)
       = Some columns_
    /\ pd_DataFrame columns_ (_build_index band_) = Some frame
    /\ map_labels (sort_index frame)
         (combine [time_label; flux_label; err_label] (keys (colmap self)))
         (colmap self) = Ok colmap_
    /\ s = {| data := sort_index frame; meta := meta self; colmap := colmap_;
              cols := cols self |}.
Proof.
  unfold from_dict. intros Hrun.
  destruct (dict_get data_dict band_label) as [[band_ | values]|] eqn:Hband;
    try discriminate.
  destruct (number_columns _) as [columns_|] eqn:Hcols; [| discriminate].
  destruct (pd_DataFrame _ _) as [frame|] eqn:Hframe; [| discriminate].
  cbv zeta in Hrun. injection Hrun as Hrun.
  apply bind_Ok in Hrun as (colmap_ & Hmap & Hs). injection Hs as <-.
  exists band_, columns_, frame, colmap_.
  split; [reflexivity |]. split; [reflexivity |]. split; [exact Hframe |].
  split; [exact Hmap | reflexivity].
Qed.

End FromDict.

(** X9: the frame of an object [from_dict] returns.  Its bands are the
    bands of the dictionary in ascending order, its index is the index
    [_build_index] gives the dictionary, rearranged; its columns are the
    keys of the dictionary but the band label, in the order of the
    dictionary, so that the band label names no column of it.  The
    attributes [meta] and [cols] and the quantities of the column mapping
    are those of the object before. *)
Theorem from_dict_frame {F : Type} (self s : timeseries (F := F))
    (data_dict : dict column) (band_ : list string)
    (time_label flux_label err_label : option string) (band_label : string) :
  from_dict self data_dict time_label flux_label err_label band_label
    = Finished (Ok s) ->
  dict_get data_dict band_label = Some (Labels band_) ->
  StronglySorted label_le (band s)
  /\ Permutation (band s) band_
  /\ Permutation (index (data s)) (_build_index band_)
  /\ keys (columns (data s))
     = filter (fun k => negb (String.eqb k band_label)) (keys data_dict)
  /\ getitem (data s) band_label = Raise (KeyError band_label)
  /\ meta s = meta self /\ cols s = cols self
  /\ keys (colmap s) = keys (colmap self).
Proof.
  intros Hrun Hband.
  apply from_dict_Ok in Hrun
    as (band' & columns_ & frame & colmap_ & Hband' & Hcols & Hframe & Hmap & ->).
  rewrite Hband in Hband'. injection Hband' as <-.
  apply pd_DataFrame_Some in Hframe as [-> _]. cbn [data meta cols colmap].
  assert (Hindex : Permutation
                     (index (sort_index {| index := _build_index band_;
                                           columns := columns_ |}))
                     (_build_index band_))
    by apply sort_index_Permutation.
  split; [apply sort_index_ascending |]. split; [| split; [exact Hindex |]].
  { unfold band. cbn [data].
    transitivity (map fst (_build_index band_));
      [apply Permutation_map, Hindex | rewrite build_index_band; reflexivity]. }
  split; [| split].
  - rewrite sort_index_keys. cbn [columns].
    rewrite (number_columns_keys _ _ Hcols). apply keys_without.
  - unfold getitem. rewrite sort_index_get. cbn [columns].
    rewrite (number_columns_get _ _ band_label Hcols), dict_get_without.
    rewrite String.eqb_refl. reflexivity.
  - repeat split.
    eapply map_labels_keys; [| exact Hmap].
    intros p Hp. eapply in_combine_keys. exact Hp.
Qed.

Lemma from_dict_frame_witness :
  StronglySorted label_le (band from_interleaved)
  /\ Permutation (band from_interleaved) ["B"; "A"; "B"; "A"; "B"; "A"]%string
  /\ Permutation (index (data from_interleaved))
       (_build_index ["B"; "A"; "B"; "A"; "B"; "A"]%string)
  /\ keys (columns (data from_interleaved))
     = filter (fun k => negb (String.eqb k "band")) (keys interleaved_dict)
  /\ getitem (data from_interleaved) "band" = Raise (KeyError "band")
  /\ meta from_interleaved = meta (new_timeseries plain_frame)
  /\ cols from_interleaved = cols (new_timeseries plain_frame)
  /\ keys (colmap from_interleaved) = keys (colmap (new_timeseries plain_frame)).
Proof.
  apply (from_dict_frame (new_timeseries plain_frame) from_interleaved
           interleaved_dict ["B"; "A"; "B"; "A"; "B"; "A"]%string
           (Some "midPointTai"%string) (Some "psFlux"%string)
           (Some "psFluxErr"%string) "band");
    reflexivity.
Defined.

(** X10: [stetson_J_multi] on the object [from_dict] returns computes what
    it computes on the rows in the order of the dictionary: the statistic
    of each band is that of the band's observations as they were given. *)
Theorem from_dict_statistics {F : Type} {np : NumPy F} (self s : timeseries)
    (data_dict : dict column) (band_ : list string) (columns_ : dict (list F))
    (time_label flux_label err_label : option string) (band_label : string) :
  from_dict self data_dict time_label flux_label err_label band_label
    = Finished (Ok s) ->
  dict_get data_dict band_label = Some (Labels band_) ->
  number_columns
    (filter (fun c => negb (String.eqb (fst c) band_label)) data_dict)
  = Some columns_ ->
  let given := {| index := _build_index band_; columns := columns_ |} in
  (forall b,
     band_statistic s b
     = if existsb (String.eqb b) band_
       then fluxes <- getitem given "psFlux" ;;
            errors <- getitem given "psFluxErr" ;;
            stetson_J (take_band b (index given) fluxes)
                      (take_band b (index given) errors)
       else Raise (KeyError b))
  /\ stetson_J_multi s = stetson_J_multi (new_timeseries given).
Proof.
  intros Hrun Hband Hcols given.
  apply from_dict_Ok in Hrun
    as (band' & columns' & frame & colmap_ & Hband' & Hcols' & Hframe & _ & ->).
  rewrite Hband in Hband'. injection Hband' as <-.
  rewrite Hcols in Hcols'. injection Hcols' as <-.
  pose proof (pd_DataFrame_Some _ _ _ Hframe) as [Hgiven _].
  assert (Hloc : forall b, loc (sort_index frame) b = loc frame b)
    by (intros b; eapply sort_index_loc, Hframe).
  fold given in Hgiven. subst frame. split.
  2:{ apply stetson_J_multi_loc; [exact Hloc |].
      intros x. apply sort_index_band. }
  intros b.
  rewrite (band_statistic_loc (new_timeseries given)
             {| data := sort_index given; meta := meta self;
                colmap := colmap_; cols := cols self |} b (Hloc b)).
  unfold band_statistic, loc. cbn [data new_timeseries].
  assert (Hex : existsb (fun i : string * Z => String.eqb (fst i) b) (index given)
                = existsb (String.eqb b) band_).
  { unfold given. cbn [index]. rewrite <- (build_index_band band_) at 2.
    generalize (_build_index band_) as idx.
    induction idx as [|[b' z] idx IH]; simpl; [reflexivity |].
    rewrite IH, (String.eqb_sym b' b). reflexivity. }
  rewrite Hex. unfold getitem. cbn [columns index given].
  assert (Hget : forall (d : dict (list F)) (k : string),
             dict_get (map (fun c : string * list F =>
                              (fst c, take_band b (_build_index band_) (snd c)))
                           d) k
             = match dict_get d k with
               | Some v => Some (take_band b (_build_index band_) v)
               | None => None
               end).
  { intros d k. induction d as [|[key v] d IH]; simpl; [reflexivity |].
    destruct (String.eqb key k); [reflexivity | apply IH]. }
  destruct (existsb (String.eqb b) band_); simpl; [| reflexivity].
  rewrite !Hget.
  destruct (dict_get columns_ "psFlux"); simpl; [| reflexivity].
  destruct (dict_get columns_ "psFluxErr"); reflexivity.
Qed.

Lemma from_dict_statistics_witness :
  (forall b,
     band_statistic from_interleaved b
     = if existsb (String.eqb b) ["B"; "A"; "B"; "A"; "B"; "A"]%string
       then fluxes <- getitem interleaved_frame "psFlux" ;;
            errors <- getitem interleaved_frame "psFluxErr" ;;
            stetson_J (take_band b (index interleaved_frame) fluxes)
                      (take_band b (index interleaved_frame) errors)
       else Raise (KeyError b))
  /\ stetson_J_multi from_interleaved
     = stetson_J_multi (new_timeseries interleaved_frame).
Proof.
  apply (from_dict_statistics (new_timeseries plain_frame) from_interleaved
           interleaved_dict ["B"; "A"; "B"; "A"; "B"; "A"]%string
           (columns interleaved_frame)
           (Some "midPointTai"%string) (Some "psFlux"%string)
           (Some "psFluxErr"%string) "band");
    reflexivity.
Defined.

(** X11: [from_dict] raises nothing but a [KeyError] (the [ValueError] of
    the frame constructor apart): that of the band label, which is then no
    key of the dictionary, or that of one of its three labels, which is
    then [None], or the band label, or no key of the dictionary. *)
Theorem from_dict_KeyError {F : Type} (self : timeseries (F := F))
    (data_dict : dict column)
    (time_label flux_label err_label : option string) (band_label : string)
    (e : exn) :
  from_dict self data_dict time_label flux_label err_label band_label
    = Finished (Raise e) ->
  (e = KeyError band_label /\ dict_get data_dict band_label = None)
  \/ (exists label : option string,
        In label [time_label; flux_label; err_label]
        /\ match label with
           | Some l => e = KeyError l
                       /\ (l = band_label \/ dict_get data_dict l = None)
           | None => e = KeyError "None"
           end).
Proof.
  unfold from_dict. intros Hrun.
  destruct (dict_get data_dict band_label) as [[band_ | values]|] eqn:Hband;
    try discriminate.
  2:{ left. injection Hrun as <-. split; reflexivity. }
  destruct (number_columns _) as [columns_|] eqn:Hcols; [| discriminate].
  destruct (pd_DataFrame _ _) as [frame|] eqn:Hframe; [| discriminate].
  cbv zeta in Hrun. injection Hrun as Hrun.
  apply bind_Raise in Hrun as [Hrun | (c & _ & Hrun)]; [| discriminate].
  apply map_labels_Raise in Hrun as (label & Hin & Hlabel).
  right. exists label. split; [eapply in_map_fst_combine; exact Hin |].
  destruct label as [l|]; [| exact Hlabel].
  destruct Hlabel as [-> Hl]. split; [reflexivity |].
  apply pd_DataFrame_Some in Hframe as [-> _].
  rewrite sort_index_get in Hl. cbn [columns] in Hl.
  rewrite (number_columns_get _ _ l Hcols), dict_get_without in Hl.
  destruct (String.eqb_spec l band_label) as [-> | Hne]; [left; reflexivity |].
  right. destruct (dict_get data_dict l) as [[labels | values]|] eqn:Hget;
    [| discriminate | reflexivity].
  exfalso. clear Hl Hband. revert columns_ Hcols.
  induction data_dict as [|[key col] d IH]; intros columns_ Hcols;
    simpl in *; [discriminate |].
  destruct (String.eqb_spec key band_label) as [Hkey | Hkey]; simpl in Hcols.
  - destruct (String.eqb_spec key l); [congruence | eauto].
  - destruct col as [labels' | values]; [discriminate |].
    destruct (number_columns _) as [rest|] eqn:Hrest; [| discriminate].
    destruct (String.eqb_spec key l); [discriminate | eauto].
Qed.

Lemma from_dict_KeyError_witness :
  (KeyError "flux" = KeyError "band" /\ dict_get interleaved_dict "band" = None)
  \/ (exists label : option string,
        In label [Some "midPointTai"; Some "flux"; None]%string
        /\ match label with
           | Some l => KeyError "flux" = KeyError l
                       /\ (l = "band"%string \/ dict_get interleaved_dict l = None)
           | None => KeyError "flux" = KeyError "None"
           end).
Proof.
  apply (from_dict_KeyError (new_timeseries plain_frame) interleaved_dict
           (Some "midPointTai"%string) (Some "flux"%string) None "band").
  reflexivity.
Defined.

(** X12: the band column is the index of the frame and no column of it:
    on an object with the three quantities of [__init__], [from_dict]
    called with the band label as its time label never returns.  Where
    the frame can be built it raises the [KeyError] of that label. *)
Theorem from_dict_band_as_time {F : Type} (self : timeseries (F := F))
    (data_dict : dict column) (flux_label err_label : option string)
    (band_label : string) :
  keys (colmap self) = ["time"; "flux"; "flux_err"]%string ->
  match from_dict self data_dict (Some band_label) flux_label err_label
          band_label with
  | Finished r => r = Raise (KeyError band_label)
  | ValueError | Outside => True
  end.
Proof.
  intros Hkeys. unfold from_dict.
  destruct (dict_get data_dict band_label) as [[band_ | values]|] eqn:Hband;
    try exact I; [| reflexivity].
  destruct (number_columns _) as [columns_|] eqn:Hcols; [| exact I].
  destruct (pd_DataFrame _ _) as [frame|] eqn:Hframe; [| exact I].
  cbv zeta. rewrite Hkeys. simpl. unfold getitem.
  apply pd_DataFrame_Some in Hframe as [-> _].
  rewrite sort_index_get. cbn [columns].
  rewrite (number_columns_get _ _ band_label Hcols), dict_get_without.
  rewrite String.eqb_refl. reflexivity.
Qed.

Lemma from_dict_band_as_time_witness :
  match from_dict (new_timeseries plain_frame) interleaved_dict
          (Some "band"%string) (Some "psFlux"%string) None "band" with
  | Finished r => r = Raise (KeyError "band")
  | ValueError | Outside => True
  end.
Proof.
  apply (from_dict_band_as_time (new_timeseries plain_frame) interleaved_dict
           (Some "psFlux"%string) None "band").
  reflexivity.
Defined.

(** X13: on an object with the three quantities of [__init__], when
    [from_dict] returns, given three labels, the accessors give the three
    columns of the dictionary, and the index that of [_build_index], all
    rearranged by one permutation of the positions. *)
Theorem from_dict_accessors {F : Type} (self s : timeseries (F := F))
    (data_dict : dict column) (band_ : list string)
    (time_label flux_label err_label band_label : string) :
  keys (colmap self) = ["time"; "flux"; "flux_err"]%string ->
  from_dict self data_dict (Some time_label) (Some flux_label) (Some err_label)
    band_label = Finished (Ok s) ->
  dict_get data_dict band_label = Some (Labels band_) ->
  exists (order : list nat) (t f e : list F),
    Permutation order (seq 0 (List.length band_))
    /\ dict_get data_dict time_label = Some (Numbers t)
    /\ dict_get data_dict flux_label = Some (Numbers f)
    /\ dict_get data_dict err_label = Some (Numbers e)
    /\ index (data s) = take_rows order (_build_index band_)
    /\ time s = Ok (take_rows order t)
    /\ flux s = Ok (take_rows order f)
    /\ flux_err s = Ok (Some (take_rows order e)).
Proof.
  intros Hkeys Hrun Hband.
  apply from_dict_Ok in Hrun
    as (band' & columns_ & frame & colmap_ & Hband' & Hcols & Hframe & Hmap & ->).
  rewrite Hband in Hband'. injection Hband' as <-.
  apply pd_DataFrame_Some in Hframe as [-> _].
  set (frame := {| index := _build_index band_; columns := columns_ |}) in *.
  set (order := map snd (sort_rows (combine (index frame)
                                      (seq 0 (List.length (index frame)))))).
  assert (Hget : forall l : string,
             getitem (sort_index frame) l
             = match dict_get data_dict l with
               | Some (Numbers v) =>
                   if String.eqb l band_label then Raise (KeyError l)
                   else Ok (take_rows order v)
               | _ => Raise (KeyError l)
               end).
  { intros l. unfold getitem. rewrite sort_index_get. cbn [columns frame].
    rewrite (number_columns_get _ _ l Hcols), dict_get_without.
    destruct (String.eqb_spec l band_label) as [-> | Hne].
    - rewrite Hband. reflexivity.
    - destruct (dict_get data_dict l) as [[labels | v]|]; reflexivity. }
  assert (Hcol : forall l : string,
             returns (getitem (sort_index frame) l) = true ->
             exists v, dict_get data_dict l = Some (Numbers v)
                       /\ getitem (sort_index frame) l = Ok (take_rows order v)).
  { intros l. rewrite Hget.
    destruct (dict_get data_dict l) as [[labels | v]|]; try discriminate.
    destruct (String.eqb l band_label); [discriminate |].
    intros _. exists v. split; reflexivity. }
  rewrite Hkeys in Hmap.
  destruct (colmap self) as [|[k1 v1] [|[k2 v2] [|[k3 v3] [|]]]]; try discriminate.
  simpl in Hkeys. injection Hkeys as -> -> ->. simpl in Hmap.
  destruct (getitem (sort_index frame) time_label) as [t'|] eqn:Ht;
    [| discriminate].
  destruct (getitem (sort_index frame) flux_label) as [f'|] eqn:Hf;
    [| discriminate].
  destruct (getitem (sort_index frame) err_label) as [e'|] eqn:He;
    [| discriminate].
  simpl in Hmap. injection Hmap as <-.
  destruct (Hcol time_label) as (t & Hdt & Ht'); [rewrite Ht; reflexivity |].
  destruct (Hcol flux_label) as (f & Hdf & Hf'); [rewrite Hf; reflexivity |].
  destruct (Hcol err_label) as (e & Hde & He'); [rewrite He; reflexivity |].
  exists order, t, f, e.
  split; [| split; [exact Hdt | split; [exact Hdf | split; [exact Hde |]]]].
  { unfold order. cbn [index frame]. rewrite build_index_length.
    rewrite <- (map_snd_combine (_build_index band_)
                  (seq 0 (List.length band_)))
      at 2 by (rewrite build_index_length, length_seq; reflexivity).
    apply Permutation_map, sort_rows_Permutation. }
  split.
  { cbn [data]. unfold order. cbn [index frame].
    rewrite (sort_rows_index (_build_index band_)). reflexivity. }
  unfold time, flux, flux_err, colmap_get. cbn [data colmap].
  simpl dict_get. cbn [bind].
  rewrite Ht in Ht' |- *. rewrite Hf in Hf' |- *. rewrite He in He' |- *.
  injection Ht' as ->. injection Hf' as ->. injection He' as ->.
  repeat split; reflexivity.
Qed.

Lemma from_dict_accessors_witness :
  exists (order : list nat) (t f e : list float),
    Permutation order (seq 0 (List.length ["B"; "A"; "B"; "A"; "B"; "A"]%string))
    /\ dict_get interleaved_dict "midPointTai" = Some (Numbers t)
    /\ dict_get interleaved_dict "psFlux" = Some (Numbers f)
    /\ dict_get interleaved_dict "psFluxErr" = Some (Numbers e)
    /\ index (data from_interleaved)
       = take_rows order (_build_index ["B"; "A"; "B"; "A"; "B"; "A"]%string)
    /\ time from_interleaved = Ok (take_rows order t)
    /\ flux from_interleaved = Ok (take_rows order f)
    /\ flux_err from_interleaved = Ok (Some (take_rows order e)).
Proof.
  apply (from_dict_accessors (new_timeseries plain_frame) from_interleaved
           interleaved_dict ["B"; "A"; "B"; "A"; "B"; "A"]%string
           "midPointTai" "psFlux" "psFluxErr" "band");
    reflexivity.
Defined.

(** X14: the index [_build_index] builds pairs each band label with its
    position: the bands are those given, in their order, the numbers are
    0 to [len(band) - 1], and no two entries are equal, also where a band
    label repeats. *)
Theorem build_index_entries (band_ : list string) :
  map fst (_build_index band_) = band_
  /\ map snd (_build_index band_) = map Z.of_nat (seq 0 (List.length band_))
  /\ NoDup (_build_index band_).
Proof.
  split; [apply build_index_band |].
  assert (Hsnd : map snd (_build_index band_)
                 = map Z.of_nat (seq 0 (List.length band_))).
  { unfold _build_index. apply map_snd_combine.
    rewrite length_map, length_seq. reflexivity. }
  split; [exact Hsnd |].
  apply (NoDup_map_inv snd). rewrite Hsnd.
  generalize (seq_NoDup (List.length band_) 0).
  generalize (seq 0 (List.length band_)) as l.
  induction 1 as [|i l Hi _ IH]; simpl; constructor; [| exact IH].
  intros Hin. apply in_map_iff in Hin as (j & Hj & Hin).
  apply Nat2Z.inj in Hj. subst j. exact (Hi Hin).
Qed.

(** * The edges of [stetson_J_multi] *)

Section Bands.

Context {F : Type} {np : NumPy F}.

Lemma loc_band (df : DataFrame (F := F)) (b : string) :
  In b (map fst (index df)) ->
  loc df b
  = Ok {| index := take_band b (index df) (index df);
          columns := map (fun c => (fst c, take_band b (index df) (snd c)))
                         (columns df) |}.
Proof.
  intros Hb. unfold loc.
  assert (Hex : existsb (fun i => String.eqb (fst i) b) (index df) = true).
  { apply existsb_exists. apply in_map_iff in Hb as (i & <- & Hi).
    exists i. split; [exact Hi | apply String.eqb_refl]. }
  rewrite Hex. reflexivity.
Qed.

Lemma dict_get_map {V W : Type} (g : V -> W) (d : dict V) (k : string) :
  dict_get (map (fun c => (fst c, g (snd c))) d) k
  = match dict_get d k with
    | Some v => Some (g v)
    | None => None
    end.
Proof.
  induction d as [|[key v] d IH]; simpl; [reflexivity |].
  destruct (String.eqb key k); [reflexivity | exact IH].
Qed.

(** The statistic of a band of the frame, by the columns it reads. *)
Lemma band_statistic_band (self : timeseries) (b : string) :
  In b (band self) ->
  band_statistic self b
  = match dict_get (columns (data self)) "psFlux" with
    | None => Raise (KeyError "psFlux")
    | Some fluxes =>
        match dict_get (columns (data self)) "psFluxErr" with
        | None => Raise (KeyError "psFluxErr")
        | Some errors =>
            stetson_J (take_band b (index (data self)) fluxes)
                      (take_band b (index (data self)) errors)
        end
    end.
Proof.
  intros Hb. unfold band_statistic. rewrite (loc_band _ b Hb). cbn [bind].
  unfold getitem. cbn [columns]. rewrite !dict_get_map.
  destruct (dict_get _ "psFlux"); [| reflexivity]. cbn [bind].
  destruct (dict_get _ "psFluxErr"); reflexivity.
Qed.

Lemma stetson_J_multi_loop_Raise (self : timeseries) (unq_band : list string) :
  forall (result_ : dict F) (e : exn),
    stetson_J_multi_loop self unq_band result_ = Raise e ->
    exists b, In b unq_band /\ band_statistic self b = Raise e.
Proof.
  induction unq_band as [|b bands IH]; intros result_ e Hrun; simpl in Hrun;
    [discriminate |].
  apply bind_Raise in Hrun as [Hrun | (j & _ & Hrun)].
  - exists b. split; [left; reflexivity | exact Hrun].
  - apply IH in Hrun as (b' & Hb' & Hrun).
    exists b'. split; [right; exact Hb' | exact Hrun].
Qed.

Lemma take_band_length {A : Type} (b : string) (idx : list (string * Z)) :
  forall rows : list A,
    List.length rows = List.length idx ->
    List.length (take_band b idx rows)
    = List.length (filter (fun i => String.eqb (fst i) b) idx).
Proof.
  induction idx as [|[b' z] idx IH]; intros [|r rows] Hlen; simpl in *;
    try discriminate; [reflexivity |].
  destruct (String.eqb b' b); simpl; rewrite IH by lia; reflexivity.
Qed.

End Bands.

(** X15: the exceptions of [stetson_J_multi].  It raises the [KeyError]
    of ['psFlux'] or of ['psFluxErr'], each only when the frame has no
    such column, or the [ZeroDivisionError] of the statistic of a band;
    never the [KeyError] of a band, [loc] being given labels of the
    index. *)
Theorem stetson_J_multi_exceptions {F : Type} {np : NumPy F}
    (self : timeseries) (e : exn) :
  stetson_J_multi self = Raise e ->
  (e = KeyError "psFlux" /\ dict_get (columns (data self)) "psFlux" = None)
  \/ (e = KeyError "psFluxErr"
      /\ dict_get (columns (data self)) "psFluxErr" = None)
  \/ (e = ZeroDivisionError
      /\ exists b, In b (band self) /\ band_statistic self b = Raise e).
Proof.
  unfold stetson_J_multi. cbv zeta. intros Hrun.
  apply stetson_J_multi_loop_Raise in Hrun as (b & Hb & Hrun).
  apply (proj1 (np_unique_In _ _)) in Hb.
  pose proof Hrun as Hstat.
  rewrite (band_statistic_band self b Hb) in Hrun.
  destruct (dict_get _ "psFlux") as [fluxes|];
    [| left; injection Hrun as <-; split; reflexivity].
  destruct (dict_get _ "psFluxErr") as [errors|];
    [| right; left; injection Hrun as <-; split; reflexivity].
  right. right. apply stetson_J_Raise in Hrun. subst e.
  split; [reflexivity |]. exists b. split; [exact Hb | exact Hstat].
Qed.

Lemma stetson_J_multi_exceptions_witness :
  (KeyError "psFlux" = KeyError "psFlux"
   /\ dict_get (columns (data (new_timeseries plain_frame))) "psFlux" = None)
  \/ (KeyError "psFlux" = KeyError "psFluxErr"
      /\ dict_get (columns (data (new_timeseries plain_frame))) "psFluxErr"
         = None)
  \/ (KeyError "psFlux" = ZeroDivisionError
      /\ exists b, In b (band (new_timeseries plain_frame))
                   /\ band_statistic (new_timeseries plain_frame) b
                      = Raise (KeyError "psFlux")).
Proof.
  apply (stetson_J_multi_exceptions (new_timeseries plain_frame)).
  reflexivity.
Defined.

(** X16: [stetson_J_multi] reads the columns only inside the loop over
    the bands.  On a frame without rows it returns the empty mapping,
    whatever the columns; on a frame with rows and no column ['psFlux'] it
    raises the [KeyError] of ['psFlux'], and with that column and no
    column ['psFluxErr'] the [KeyError] of ['psFluxErr']. *)
Theorem stetson_J_multi_columns {F : Type} {np : NumPy F} (self : timeseries) :
  (index (data self) = [] -> stetson_J_multi self = Ok [])
  /\ (index (data self) <> [] ->
      dict_get (columns (data self)) "psFlux" = None ->
      stetson_J_multi self = Raise (KeyError "psFlux"))
  /\ (index (data self) <> [] ->
      dict_get (columns (data self)) "psFlux" <> None ->
      dict_get (columns (data self)) "psFluxErr" = None ->
      stetson_J_multi self = Raise (KeyError "psFluxErr")).
Proof.
  unfold stetson_J_multi. cbv zeta.
  assert (Hfirst : index (data self) <> [] ->
                   exists b bands, np_unique (band self) = b :: bands
                                   /\ In b (band self)).
  { intros Hne. destruct (np_unique (band self)) as [|b bands] eqn:Hunq.
    - destruct (index (data self)) as [|i idx] eqn:Hidx; [contradiction |].
      assert (Hin : In (fst i) (np_unique (band self))).
      { apply np_unique_In. unfold band. rewrite Hidx. left. reflexivity. }
      rewrite Hunq in Hin. contradiction.
    - exists b, bands. split; [reflexivity |].
      apply np_unique_In. rewrite Hunq. left. reflexivity. }
  split; [| split].
  - intros Hidx. unfold band. rewrite Hidx. reflexivity.
  - intros Hne Hflux. destruct (Hfirst Hne) as (b & bands & -> & Hb).
    simpl. rewrite (band_statistic_band self b Hb), Hflux. reflexivity.
  - intros Hne Hflux Herr. destruct (Hfirst Hne) as (b & bands & -> & Hb).
    simpl. rewrite (band_statistic_band self b Hb), Herr.
    destruct (dict_get _ "psFlux"); [reflexivity | contradiction].
Qed.

(** X17: a band observed once makes the whole call fail.  On a frame with
    the two columns, as long as the index, one band with a single row
    leaves [stetson_J_multi] no result for any band: it raises
    [ZeroDivisionError]. *)
Theorem stetson_J_multi_single_row {F : Type} {np : NumPy F}
    (self : timeseries) (fluxes errors : list F) (b : string) :
  dict_get (columns (data self)) "psFlux" = Some fluxes ->
  dict_get (columns (data self)) "psFluxErr" = Some errors ->
  List.length fluxes = List.length (index (data self)) ->
  List.length (filter (fun i => String.eqb (fst i) b) (index (data self)))
    = 1%nat ->
  stetson_J_multi self = Raise ZeroDivisionError.
Proof.
  intros Hflux Herr Hlen Hone.
  assert (Hb : In b (band self)).
  { destruct (filter _ (index (data self))) as [|i rest] eqn:Hrows;
      [discriminate |].
    assert (Hi : In i (filter (fun i => String.eqb (fst i) b) (index (data self))))
      by (rewrite Hrows; left; reflexivity).
    apply filter_In in Hi as [Hi Hib]. apply String.eqb_eq in Hib. subst b.
    unfold band. apply in_map. exact Hi. }
  assert (Hstat : band_statistic self b = Raise ZeroDivisionError).
  { rewrite (band_statistic_band self b Hb), Hflux, Herr.
    pose proof (take_band_length b (index (data self)) fluxes Hlen) as Hn.
    rewrite Hone in Hn.
    destruct (take_band b (index (data self)) fluxes) as [|v [|v' rest]];
      try discriminate.
    apply stetson_J_single. }
  destruct (stetson_J_multi self) as [m|e] eqn:Hrun.
  - unfold stetson_J_multi in Hrun. cbv zeta in Hrun.
    pose proof (stetson_J_multi_loop_returns self _ _ _ Hrun b) as Hret.
    rewrite Hstat in Hret. apply (proj2 (np_unique_In _ _)) in Hb.
    specialize (Hret Hb). discriminate.
  - f_equal. unfold stetson_J_multi in Hrun. cbv zeta in Hrun.
    apply stetson_J_multi_loop_Raise in Hrun as (b' & Hb' & Hrun).
    apply (proj1 (np_unique_In _ _)) in Hb'.
    rewrite (band_statistic_band self b' Hb'), Hflux, Herr in Hrun.
    eapply stetson_J_Raise, Hrun.
Qed.

Lemma stetson_J_multi_columns_witness :
  stetson_J_multi (new_timeseries empty_frame) = Ok []
  /\ stetson_J_multi (new_timeseries plain_frame) = Raise (KeyError "psFlux")
  /\ stetson_J_multi (new_timeseries flux_only_frame)
     = Raise (KeyError "psFluxErr").
Proof.
  split; [| split].
  - apply (proj1 (stetson_J_multi_columns (new_timeseries empty_frame))).
    reflexivity.
  - apply (proj1 (proj2 (stetson_J_multi_columns (new_timeseries plain_frame))));
      [discriminate | reflexivity].
  - apply (proj2 (proj2 (stetson_J_multi_columns
                           (new_timeseries flux_only_frame))));
      [discriminate | discriminate | reflexivity].
Defined.

Lemma stetson_J_multi_single_row_witness :
  stetson_J_multi (new_timeseries lone_band_frame) = Raise ZeroDivisionError.
Proof.
  apply (stetson_J_multi_single_row (new_timeseries lone_band_frame)
           [5; 5; 1]%float [1; 1; 1]%float "B");
    reflexivity.
Defined.

(** * The estimators in exact arithmetic *)

Section Bounds.

#[local] Open Scope R_scope.

Lemma Rsum_nil : Rsum [] = 0.
Proof. reflexivity. Qed.

(** A sum of weighted values lies between the bounds of the values,
    weighted. *)
Lemma weighted_sum_bounds (w : R * R -> R) (lo hi : R) (ps : list (R * R)) :
  Forall (fun p => 0 < w p /\ lo <= fst p <= hi) ps ->
  lo * Rsum (map w ps) <= Rsum (map (fun p => fst p * w p) ps)
                       <= hi * Rsum (map w ps).
Proof.
  induction 1 as [|p ps [Hw Hp] _ IH]; simpl.
  - rewrite Rsum_nil. lra.
  - rewrite !Rsum_cons. nra.
Qed.

Lemma combine_bounds (w : R * R -> R) (lo hi : R) (values : list R) :
  forall errors : list R,
    (forall p, 0 < snd p -> 0 < w p) ->
    Forall (fun v => lo <= v <= hi) values ->
    Forall (fun e => 0 < e) errors ->
    Forall (fun p => 0 < w p /\ lo <= fst p <= hi) (combine values errors).
Proof.
  intros errors Hw Hv. revert errors.
  induction Hv as [|v values Hv _ IH]; intros errors He; simpl; [constructor |].
  destruct He as [|e errors He Hes]; constructor.
  - split; [apply Hw; exact He | exact Hv].
  - apply IH, Hes.
Qed.

(** [np.average] with positive weights lies between the least and the
    greatest of the values. *)
Lemma np_average_bounds (w : R * R -> R) (lo hi : R) (values errors : list R) :
  List.length values = List.length errors ->
  values <> [] ->
  Forall (fun e => 0 < e) errors ->
  (forall p, 0 < snd p -> 0 < w p) ->
  Forall (fun v => lo <= v <= hi) values ->
  exists m : R,
    np_average (np := exact) values (map w (combine values errors)) = Ok m
    /\ lo <= m <= hi.
Proof.
  intros Hlen Hne Hpos Hw Hv.
  rewrite np_average_exact_returns by assumption.
  eexists. split; [reflexivity |].
  pose proof (weighted_sum_bounds w lo hi (combine values errors)
                (combine_bounds w lo hi values errors Hw Hv Hpos)) as Hsum.
  assert (HW : 0 < Rsum (map w (combine values errors))).
  { apply Rsum_positive.
    - destruct values as [|v values]; [contradiction |].
      destruct errors as [|e errors]; discriminate.
    - apply Forall_map. eapply Forall_impl; [| apply combine_snd_positive, Hpos].
      exact Hw. }
  set (W := Rsum (map w (combine values errors))) in *.
  set (S := Rsum (map (fun p => fst p * w p) (combine values errors))) in *.
  assert (Hinv : 0 < / W) by (apply Rinv_0_lt_compat, HW).
  assert (Hone : W * / W = 1) by (field; lra).
  unfold Rdiv. split.
  - replace lo with (lo * W * / W) by (field; lra). nra.
  - replace hi with (hi * W * / W) by (field; lra). nra.
Qed.

Lemma stetson_loop_bounds (alpha beta tol n_factor lo hi : R)
    (values errors : list R) (n_iter : nat) :
  List.length values = List.length errors ->
  values <> [] ->
  Forall (fun e => 0 < e) errors ->
  Forall (fun v => lo <= v <= hi) values ->
  forall (mean : R) (passes : nat),
    lo <= mean <= hi \/ (1 <= n_iter)%nat ->
    exists (m : R) (k : nat),
      stetson_loop (np := exact) alpha beta tol n_factor values errors
        (inv_var_of errors) n_iter mean passes = Ok (m, k)
      /\ lo <= m <= hi.
Proof.
  intros Hlen Hne Hpos Hv.
  induction n_iter as [|n IH]; intros mean passes Hstart; simpl.
  - destruct Hstart as [Hmean | Hn]; [| lia]. exists mean, passes. auto.
  - unfold reweighted_mean. rewrite weights_of_paired by exact Hlen.
    destruct (np_average_bounds (pass_weight alpha beta n_factor mean) lo hi
                values errors Hlen Hne Hpos) as (tmp & -> & Htmp);
      [intros p; apply pass_weight_positive | exact Hv |].
    simpl. destruct (converged _ _ _); [exists tmp, (S passes); auto |].
    apply IH. left. exact Htmp.
Qed.

End Bounds.

(** X18: in exact arithmetic, for positive [alpha] and [beta], the
    Stetson mean of two or more observations with positive uncertainties
    is a value between the least and the greatest of them, from the
    weighted mean it starts at or from any starting mean that is followed
    by one pass at least. *)
Theorem stetson_mean_bounds (values errors : list R) (mean : option R)
    (alpha beta : R) (n_iter : nat) (tol lo hi : R) :
  (2 <= List.length values)%nat ->
  List.length errors = List.length values ->
  Forall (fun e => (0 < e)%R) errors ->
  (0 < alpha)%R -> (0 < beta)%R ->
  Forall (fun v => (lo <= v <= hi)%R) values ->
  mean = None \/ (1 <= n_iter)%nat ->
  exists m : R,
    _stetson_mean (np := exact) values errors mean alpha beta n_iter tol = Ok m
    /\ (lo <= m <= hi)%R.
Proof.
  intros Hn Hlen Hpos _ _ Hv Hstart.
  assert (Hne : values <> [])
    by (destruct values; [simpl in Hn; lia | discriminate]).
  symmetry in Hlen.
  unfold _stetson_mean, stetson_mean_passes.
  rewrite py_truediv_Ok by (unfold len; lia). cbn [bind].
  assert (Hinit : exists m0 : R,
             match mean with
             | None => np_average (np := exact) values (inv_var_of errors)
             | Some m => Ok m
             end = Ok m0
             /\ ((lo <= m0 <= hi)%R \/ (1 <= n_iter)%nat)).
  { destruct mean as [m|].
    - exists m. split; [reflexivity |].
      destruct Hstart as [Hnone | Hiter]; [discriminate | right; exact Hiter].
    - rewrite (inv_var_paired values errors Hlen).
      destruct (np_average_bounds (fun p => inv_var1 (snd p)) lo hi
                  values errors Hlen Hne Hpos) as (m0 & Hm0 & Hbound);
        [intros p; apply inv_var1_positive | exact Hv |].
      exists m0. split; [exact Hm0 | left; exact Hbound]. }
  destruct Hinit as (m0 & -> & Hm0). cbn [bind].
  destruct (stetson_loop_bounds alpha beta tol
              (np_sqrt (np_divide (float_of_int (len values))
                                  (float_of_int (len values - 1))))
              lo hi values errors n_iter
              Hlen Hne Hpos Hv m0 0%nat Hm0) as (m & k & -> & Hm).
  exists m. split; [reflexivity | exact Hm].
Qed.

Lemma stetson_mean_bounds_witness :
  exists m : R,
    _stetson_mean (np := exact) [1; 2; 6]%R [1; 1; 2]%R (Some 100%R)
      2%R 2%R 3 (1 / 1000000)%R = Ok m
    /\ (1 <= m <= 6)%R.
Proof.
  apply (stetson_mean_bounds [1; 2; 6]%R [1; 1; 2]%R (Some 100%R)
           2%R 2%R 3 (1 / 1000000)%R 1%R 6%R).
  - simpl. lia.
  - reflexivity.
  - repeat constructor; lra.
  - lra.
  - lra.
  - repeat constructor; lra.
  - right. lia.
Defined.

Section Weights.

#[local] Open Scope R_scope.

(** The weight of an observation in a pass is its inverse variance over
    a divisor that is 1 at least. *)
Lemma pass_weight_below (alpha beta n_factor mean : R) (p : R * R) :
  0 < snd p ->
  pass_weight (np := exact) alpha beta n_factor mean p
  <= inv_var1 (np := exact) (snd p).
Proof.
  intros He. pose proof (inv_var1_positive (snd p) He) as Hiv.
  unfold pass_weight. set (iv := inv_var1 (snd p)) in *.
  change (iv / (1 + Rpower2 (Rabs (n_factor * (fst p - mean) / snd p) / alpha)
                    beta) <= iv).
  match goal with |- _ / (1 + Rpower2 ?x ?y) <= _ =>
    pose proof (Rpower2_nonneg x y) as Hx; set (d := Rpower2 x y) in * end.
  assert (Hinv : 0 < / (1 + d)) by (apply Rinv_0_lt_compat; lra).
  assert (Hone : (1 + d) * / (1 + d) = 1) by (field; lra).
  unfold Rdiv. nra.
Qed.

Lemma Forall2_map_same {A B C : Type} (P : B -> C -> Prop)
    (f : A -> B) (g : A -> C) (l : list A) :
  Forall (fun x => P (f x) (g x)) l -> Forall2 P (map f l) (map g l).
Proof. induction 1; simpl; constructor; assumption. Qed.

(** One term of the statistic: [sign(p) * sqrt(|p|)] at [p = d ** 2 - 1]
    is -1 at least. *)
Lemma statistic_term_bound (d : R) :
  -1 <= np_multiply (np_sign (np := exact) (np_subtract (np_power d 2) 1))
                    (np_sqrt (np_fabs (np_subtract (np_power d 2) 1))).
Proof.
  simpl. rewrite Rpower2_two. unfold np_sign. simpl.
  set (p := d * d - 1).
  assert (Hp : -1 <= p) by (unfold p; nra).
  destruct (Rlt_dec p 0) as [Hneg | Hnonneg].
  - rewrite Rless_true by exact Hneg.
    rewrite Rabs_left by exact Hneg.
    assert (Hs : R_sqrt.sqrt (- p) <= 1).
    { apply Rle_trans with (R_sqrt.sqrt 1);
        [apply sqrt_le_1_alt; lra | rewrite sqrt_1; lra]. }
    lra.
  - rewrite Rless_false by exact Hnonneg.
    pose proof (sqrt_pos (Rabs p)) as Hs.
    destruct (Rlt_dec 0 p) as [Hpos | Hzero].
    + rewrite Rless_true by exact Hpos. lra.
    + rewrite Rless_false by exact Hzero.
      assert (H0 : p = 0) by lra. unfold Requal.
      destruct (Req_dec_T p 0); [lra | contradiction].
Qed.

Lemma Rsum_lower (a : list R) :
  Forall (fun x => -1 <= x) a -> - INR (List.length a) <= Rsum a.
Proof.
  induction 1 as [|x a Hx _ IH].
  - rewrite Rsum_nil. simpl. lra.
  - rewrite Rsum_cons. cbn [List.length]. rewrite S_INR. lra.
Qed.

End Weights.

(** X19: the loop only down-weights.  In exact arithmetic, with positive
    uncertainties and positive [alpha] and [beta], each weight
    [inv_var / (1 + (chi / alpha) ** beta)] of a pass is positive and not
    above the inverse variance of its observation, whatever the mean of
    the pass. *)
Theorem weights_down_weight (alpha beta n_factor mean : R)
    (values errors : list R) :
  List.length values = List.length errors ->
  Forall (fun e => (0 < e)%R) errors ->
  (0 < alpha)%R -> (0 < beta)%R ->
  Forall2 (fun w iv => (0 < w <= iv)%R)
    (weights_of (np := exact) alpha beta (inv_var_of errors)
       (chi_of n_factor values errors mean))
    (inv_var_of errors).
Proof.
  intros Hlen Hpos _ _.
  rewrite weights_of_paired by exact Hlen.
  rewrite (inv_var_paired values errors Hlen).
  apply Forall2_map_same.
  eapply Forall_impl; [| apply combine_snd_positive, Hpos].
  intros p Hp. split;
    [apply pass_weight_positive | apply pass_weight_below]; exact Hp.
Qed.

Lemma weights_down_weight_witness :
  Forall2 (fun w iv => (0 < w <= iv)%R)
    (weights_of (np := exact) 2%R 2%R (inv_var_of [1; 2]%R)
       (chi_of 1%R [1; 6]%R [1; 2]%R 3%R))
    (inv_var_of [1; 2]%R).
Proof.
  apply (weights_down_weight 2%R 2%R 1%R 3%R [1; 6]%R [1; 2]%R).
  - reflexivity.
  - repeat constructor; lra.
  - lra.
  - lra.
Defined.

(** X20: in exact arithmetic the statistic of two or more observations
    with positive uncertainties is -1 at least: [p_k = delta ** 2 - 1] is
    -1 at least, and so is each [sign(p_k) * sqrt(|p_k|)], and their
    mean. *)
Theorem stetson_J_lower_bound (fluxes errors : list R) :
  (2 <= List.length fluxes)%nat ->
  List.length errors = List.length fluxes ->
  Forall (fun e => (0 < e)%R) errors ->
  exists j : R,
    stetson_J (np := exact) fluxes errors = Ok j /\ (-1 <= j)%R.
Proof.
  intros Hn Hlen Hpos. unfold stetson_J. cbv zeta.
  destruct (stetson_mean_exact_returns fluxes errors None
              default_alpha default_beta default_n_iter default_tol
              Hn Hlen Hpos) as (m & k & Hrun & _).
  unfold _stetson_mean. rewrite Hrun. cbn [bind fst].
  rewrite py_truediv_Ok by (unfold len; lia). cbn [bind].
  eexists. split; [reflexivity |].
  unfold np_mean.
  match goal with |- (-1 <= np_divide (np_sum ?a) _)%R => set (terms := a) end.
  assert (Hterms : Forall (fun x => (-1 <= x)%R) terms).
  { unfold terms. rewrite map_map. apply Forall_map, Forall_forall.
    intros d _. apply statistic_term_bound. }
  assert (Hcount : List.length terms = List.length fluxes).
  { unfold terms. rewrite !length_map, elementwise_combine, length_map,
      length_combine, length_map, Hlen. apply Nat.min_id. }
  pose proof (Rsum_lower terms Hterms) as Hsum.
  simpl. unfold len. rewrite Hcount, <- INR_IZR_INZ.
  rewrite Hcount in Hsum.
  assert (HN : (2 <= INR (List.length fluxes))%R).
  { change 2%R with (INR 2). apply le_INR. exact Hn. }
  set (N := INR (List.length fluxes)) in *.
  assert (Hinv : (0 < / N)%R) by (apply Rinv_0_lt_compat; lra).
  assert (Hone : (N * / N = 1)%R) by (field; lra).
  unfold Rdiv. nra.
Qed.

Lemma stetson_J_lower_bound_witness :
  exists j : R,
    stetson_J (np := exact) [1; 2; 6]%R [1; 1; 2]%R = Ok j /\ (-1 <= j)%R.
Proof.
  apply (stetson_J_lower_bound [1; 2; 6]%R [1; 1; 2]%R).
  - simpl. lia.
  - reflexivity.
  - repeat constructor; lra.
Defined.

(** * NaN in binary64 *)

Section NaN.

#[local] Open Scope float_scope.

Variable pow_other : float -> float -> float.

#[local] Abbreviation np64' := (float64_with pow_other).

Lemma Prim2SF_nan : Prim2SF nan = S754_nan.
Proof. reflexivity. Qed.

Lemma add_nan_l (x : float) : nan + x = nan.
Proof. apply Prim2SF_inj. rewrite add_spec, Prim2SF_nan. reflexivity. Qed.

Lemma add_nan_r (x : float) : x + nan = nan.
Proof.
  apply Prim2SF_inj. rewrite add_spec, Prim2SF_nan.
  destruct (Prim2SF x); reflexivity.
Qed.

Lemma sub_nan_r (x : float) : x - nan = nan.
Proof.
  apply Prim2SF_inj. rewrite sub_spec, Prim2SF_nan.
  destruct (Prim2SF x); reflexivity.
Qed.

Lemma mul_nan_l (x : float) : nan * x = nan.
Proof. apply Prim2SF_inj. rewrite mul_spec, Prim2SF_nan. reflexivity. Qed.

Lemma mul_nan_r (x : float) : x * nan = nan.
Proof.
  apply Prim2SF_inj. rewrite mul_spec, Prim2SF_nan.
  destruct (Prim2SF x); reflexivity.
Qed.

Lemma div_nan_l (x : float) : nan / x = nan.
Proof. apply Prim2SF_inj. rewrite div_spec, Prim2SF_nan. reflexivity. Qed.

Lemma div_nan_r (x : float) : x / nan = nan.
Proof.
  apply Prim2SF_inj. rewrite div_spec, Prim2SF_nan.
  destruct (Prim2SF x); reflexivity.
Qed.

Lemma abs_nan : abs nan = nan.
Proof. reflexivity. Qed.

Lemma ltb_nan_l (x : float) : (nan <? x) = false.
Proof. rewrite ltb_spec, Prim2SF_nan. reflexivity. Qed.

Lemma eqb_nan_l (x : float) : (nan =? x) = false.
Proof. rewrite eqb_spec, Prim2SF_nan. reflexivity. Qed.


Lemma float_sum_from_nan (a : list float) : fold_left PrimFloat.add a nan = nan.
Proof.
  induction a as [|x a IH]; simpl; [reflexivity | rewrite add_nan_l; exact IH].
Qed.

(** [np.sum] of an array that holds a NaN is NaN. *)
Lemma float_sum_nan (a : list float) : In nan a -> float_sum a = nan.
Proof.
  unfold float_sum. generalize 0 as acc.
  induction a as [|x a IH]; intros acc Hin; [contradiction |].
  destruct Hin as [-> | Hin]; simpl.
  - rewrite add_nan_r. apply float_sum_from_nan.
  - apply IH, Hin.
Qed.

Lemma in_combine_fst {A B : Type} (x : A) (a : list A) :
  forall b : list B,
    List.length a = List.length b -> In x a -> exists y, In (x, y) (combine a b).
Proof.
  induction a as [|x' a IH]; intros [|y b] Hlen Hin; simpl in *;
    try discriminate; [contradiction |].
  destruct Hin as [-> | Hin]; [exists y; left; reflexivity |].
  destruct (IH b ltac:(lia) Hin) as (y' & Hy'). exists y'. right. exact Hy'.
Qed.

Lemma in_combine_snd {A B : Type} (y : B) (a : list A) :
  forall b : list B,
    List.length a = List.length b -> In y b -> exists x, In (x, y) (combine a b).
Proof.
  induction a as [|x a IH]; intros [|y' b] Hlen Hin; simpl in *;
    try discriminate; [contradiction |].
  destruct Hin as [-> | Hin]; [exists x; left; reflexivity |].
  destruct (IH b ltac:(lia) Hin) as (x' & Hx'). exists x'. right. exact Hx'.
Qed.

(** [np.average] with a NaN among its weights: the sum of the weights is
    NaN, which is not equal to zero, and so is the quotient. *)
Lemma np_average_nan_weight (w : float * float -> float)
    (values errors : list float) :
  List.length values = List.length errors ->
  In nan (map w (combine values errors)) ->
  np_average (np := np64') values (map w (combine values errors)) = Ok nan.
Proof.
  intros Hlen Hin. rewrite np_average_paired by exact Hlen. cbv zeta.
  cbn [np_sum np_equal np_divide float_of_int float64_with].
  rewrite (float_sum_nan _ Hin), eqb_nan_l, div_nan_r. reflexivity.
Qed.

(** [np.average] of values with a NaN among them. *)
Lemma np_average_nan_value (w : float * float -> float)
    (values errors : list float) :
  List.length values = List.length errors ->
  In nan values ->
  np_average (np := np64') values (map w (combine values errors))
  = if np_equal (NumPy := np64')
         (np_sum (NumPy := np64') (map w (combine values errors)))
         (float_of_int (NumPy := np64') 0)
    then Raise ZeroDivisionError
    else Ok nan.
Proof.
  intros Hlen Hin. rewrite np_average_paired by exact Hlen. cbv zeta.
  destruct (np_equal _ _); [reflexivity |]. f_equal.
  cbn [np_sum np_divide np_multiply float64_with].
  rewrite float_sum_nan; [apply div_nan_l |].
  destruct (in_combine_fst nan values errors Hlen Hin) as (e & He).
  apply in_map_iff. exists (nan, e). split; [apply mul_nan_l | exact He].
Qed.

Lemma pass_weight_nan (alpha n_factor : float) (p : float * float) :
  pass_weight (np := np64') alpha (float_of_int (NumPy := np64') 2) n_factor nan p
  = nan.
Proof.
  unfold pass_weight. rewrite power_two.
  cbn [np_divide np_add np_subtract np_multiply np_fabs float64_with].
  rewrite sub_nan_r, mul_nan_r, div_nan_l, abs_nan, div_nan_l, mul_nan_l,
    add_nan_r, div_nan_r.
  reflexivity.
Qed.

Lemma converged_nan (diff tol : float) :
  converged (np := np64') diff nan tol = false.
Proof.
  unfold converged. cbn [np_less np_divide float64_with].
  rewrite div_nan_r, ltb_nan_l. reflexivity.
Qed.

(** Around a NaN the loop makes all its passes, and ends at NaN. *)
Lemma stetson_loop_nan (alpha tol n_factor : float)
    (values errors : list float) (n_iter : nat) :
  List.length values = List.length errors ->
  values <> [] ->
  forall passes : nat,
    stetson_loop (np := np64') alpha (float_of_int (NumPy := np64') 2) tol
      n_factor values errors (inv_var_of (np := np64') errors) n_iter nan passes
    = Ok (nan, (passes + n_iter)%nat).
Proof.
  intros Hlen Hne.
  induction n_iter as [|n IH]; intros passes; cbn [stetson_loop].
  - rewrite Nat.add_0_r. reflexivity.
  - unfold reweighted_mean. rewrite weights_of_paired by exact Hlen.
    rewrite np_average_nan_weight; [| exact Hlen |].
    + cbn [bind]. rewrite converged_nan, IH. do 2 f_equal. lia.
    + destruct values as [|v values]; [contradiction |].
      destruct errors as [|e errors]; [discriminate |].
      left. apply pass_weight_nan.
Qed.

(** The statistic around a mean that is NaN. *)
Lemma statistic_nan (q : float) (fluxes errors : list float) :
  List.length fluxes = List.length errors ->
  fluxes <> [] ->
  np_mean (np := np64')
    (map (fun p => np_multiply (NumPy := np64') (np_sign (np := np64') p)
                     (np_sqrt (NumPy := np64') (np_fabs (NumPy := np64') p)))
       (map (fun d => np_subtract (NumPy := np64')
                        (np_power (NumPy := np64') d
                           (float_of_int (NumPy := np64') 2))
                        (float_of_int (NumPy := np64') 1))
          (elementwise (np_divide (NumPy := np64'))
             (map (fun f => np_multiply (NumPy := np64')
                              (np_sqrt (NumPy := np64') q)
                              (np_subtract (NumPy := np64') f nan))
                  fluxes)
             errors)))
  = nan.
Proof.
  intros Hlen Hne. unfold np_mean.
  cbn [np_sum np_divide float64_with].
  rewrite float_sum_nan; [apply div_nan_l |].
  destruct fluxes as [|f fluxes]; [contradiction |].
  destruct errors as [|e errors]; [discriminate |].
  left. cbn [map elementwise]. rewrite power_two.
  cbn [np_divide np_subtract np_multiply np_fabs np_sqrt float64_with].
  rewrite sub_nan_r, mul_nan_r, div_nan_l, mul_nan_l. reflexivity.
Qed.

(** The two estimators, from the first weighted mean. *)
Lemma estimators_nan (fluxes errors : list float) (alpha tol : float)
    (n_iter : nat) :
  (2 <= List.length fluxes)%nat ->
  List.length errors = List.length fluxes ->
  np_average (np := np64') fluxes (inv_var_of (np := np64') errors) = Ok nan ->
  stetson_mean_passes (np := np64') fluxes errors None alpha
    (float_of_int (NumPy := np64') 2) n_iter tol = Ok (nan, n_iter)
  /\ stetson_J (np := np64') fluxes errors = Ok nan.
Proof.
  intros Hn Hlen Hinit. symmetry in Hlen.
  assert (Hne : fluxes <> [])
    by (destruct fluxes; [simpl in Hn; lia | discriminate]).
  assert (Hmean : forall alpha' tol' n_iter',
             stetson_mean_passes (np := np64') fluxes errors None alpha'
               (float_of_int (NumPy := np64') 2) n_iter' tol'
             = Ok (nan, n_iter')).
  { intros alpha' tol' n_iter'. unfold stetson_mean_passes.
    rewrite py_truediv_Ok by (unfold len; lia). cbn [bind].
    rewrite Hinit. cbn [bind].
    rewrite stetson_loop_nan by assumption. reflexivity. }
  split; [apply Hmean |].
  unfold stetson_J, _stetson_mean. cbv zeta.
  unfold default_beta. rewrite Hmean. cbn [bind fst].
  rewrite py_truediv_Ok by (unfold len; lia). cbn [bind].
  rewrite statistic_nan by assumption. reflexivity.
Qed.

End NaN.

(** X21: a NaN among the fluxes is not removed.  On two or more
    observations in binary64 the first weighted mean is NaN unless the
    inverse variances sum to zero, which raises; from a NaN the loop
    makes all its passes, the check comparing NaN, and the Stetson mean
    and the statistic are NaN. *)
Theorem nan_flux (pow_other : float -> float -> float)
    (fluxes errors : list float) (alpha tol : float) (n_iter : nat) :
  (2 <= List.length fluxes)%nat ->
  List.length errors = List.length fluxes ->
  In nan fluxes ->
  let np64 := float64_with pow_other in
  if np_equal (NumPy := np64)
       (np_sum (NumPy := np64) (inv_var_of (np := np64) errors))
       (float_of_int (NumPy := np64) 0)
  then stetson_mean_passes (np := np64) fluxes errors None alpha
         (float_of_int (NumPy := np64) 2) n_iter tol = Raise ZeroDivisionError
       /\ stetson_J (np := np64) fluxes errors = Raise ZeroDivisionError
  else stetson_mean_passes (np := np64) fluxes errors None alpha
         (float_of_int (NumPy := np64) 2) n_iter tol = Ok (nan, n_iter)
       /\ stetson_J (np := np64) fluxes errors = Ok nan.
Proof.
  intros Hn Hlen Hin np64.
  pose proof (np_average_nan_value pow_other (fun p => inv_var1 (snd p))
                fluxes errors (eq_sym Hlen) Hin) as Hinit.
  rewrite <- (inv_var_paired fluxes errors (eq_sym Hlen)) in Hinit.
  fold np64 in Hinit.
  destruct (np_equal _ _).
  - unfold stetson_J, _stetson_mean, stetson_mean_passes. cbv zeta.
    rewrite py_truediv_Ok by (unfold len; lia). cbn [bind].
    rewrite Hinit. split; reflexivity.
  - apply estimators_nan; assumption.
Qed.

Lemma nan_flux_witness :
  stetson_mean_passes (np := float64) [1; nan; 3]%float [1; 1; 1]%float None
    2%float (float_of_int 2) 20 1e-6%float = Ok (nan, 20%nat)
  /\ stetson_J (np := float64) [1; nan; 3]%float [1; 1; 1]%float = Ok nan.
Proof.
  apply (nan_flux (fun _ _ => nan) [1; nan; 3]%float [1; 1; 1]%float
           2%float 1e-6%float 20).
  - simpl. lia.
  - reflexivity.
  - right. left. reflexivity.
Defined.

(** X22: a NaN among the uncertainties.  Its inverse variance is NaN and
    so is the sum of the weights, which is not equal to zero: on two or
    more observations in binary64 nothing is raised, the loop makes all
    its passes, and the Stetson mean and the statistic are NaN. *)
Theorem nan_error (pow_other : float -> float -> float)
    (fluxes errors : list float) (alpha tol : float) (n_iter : nat) :
  (2 <= List.length fluxes)%nat ->
  List.length errors = List.length fluxes ->
  In nan errors ->
  stetson_mean_passes (np := float64_with pow_other) fluxes errors None alpha
    (float_of_int (NumPy := float64_with pow_other) 2) n_iter tol
    = Ok (nan, n_iter)
  /\ stetson_J (np := float64_with pow_other) fluxes errors = Ok nan.
Proof.
  intros Hn Hlen Hin. apply estimators_nan; try assumption.
  rewrite (inv_var_paired fluxes errors (eq_sym Hlen)).
  apply np_average_nan_weight; [exact (eq_sym Hlen) |].
  destruct (in_combine_snd nan fluxes errors (eq_sym Hlen) Hin) as (f & Hf).
  apply in_map_iff. exists (f, nan). split; [| exact Hf].
  unfold inv_var1. rewrite power_two.
  cbn [np_divide float64_with snd]. rewrite mul_nan_l, div_nan_r. reflexivity.
Qed.

Lemma nan_error_witness :
  stetson_mean_passes (np := float64) [1; 2; 3]%float [1; nan; 1]%float None
    2%float (float_of_int 2) 20 1e-6%float = Ok (nan, 20%nat)
  /\ stetson_J (np := float64) [1; 2; 3]%float [1; nan; 1]%float = Ok nan.
Proof.
  apply (nan_error (fun _ _ => nan) [1; 2; 3]%float [1; nan; 1]%float
           2%float 1e-6%float 20).
  - simpl. lia.
  - reflexivity.
  - right. left. reflexivity.
Defined.

(** * The exit of the loop *)

Section Exit.

Context {F : Type} {np : NumPy F}.

(** The loop returns the mean it was given, having made no pass, or the
    [np.average] of its last pass; and it stops before its budget only on
    the check of that pass. *)
Lemma stetson_loop_exit (alpha beta tol n_factor : F)
    (values errors inv_var : list F) (n_iter : nat) :
  forall (mean m : F) (passes k : nat),
    stetson_loop alpha beta tol n_factor values errors inv_var
      n_iter mean passes = Ok (m, k) ->
    (n_iter = 0%nat /\ k = passes /\ m = mean)
    \/ ((passes < k)%nat
        /\ exists prev : F,
             reweighted_mean alpha beta n_factor values errors inv_var prev
               = Ok m
             /\ ((k < passes + n_iter)%nat ->
                 converged (np_fabs (np_subtract m prev)) m tol = true)).
Proof.
  induction n_iter as [|n IH]; intros mean m passes k Hrun; simpl in Hrun.
  - injection Hrun as <- <-. left. auto.
  - right. apply bind_Ok in Hrun as (tmp & Htmp & Hrun).
    destruct (converged _ _ _) eqn:Hcheck.
    + injection Hrun as <- <-. split; [lia |].
      exists mean. split; [exact Htmp | intros _; exact Hcheck].
    + apply IH in Hrun as [(-> & -> & ->) | (Hk & prev & Hprev & Hexit)].
      * split; [lia |]. exists mean. split; [exact Htmp | lia].
      * split; [lia |]. exists prev. split; [exact Hprev |].
        intros Hlt. apply Hexit. lia.
Qed.

End Exit.

(** X23: what [_stetson_mean] returns, in any arithmetic.  With a budget
    of no pass it is the starting mean; otherwise it is the [np.average]
    of a reweighting pass around some mean [prev], and when fewer passes
    were made than the budget allows, both tolerance tests held between
    it and [prev]: the loop is left early on the check alone. *)
Theorem stetson_mean_exit {F : Type} {np : NumPy F}
    (values errors : list F) (mean : option F) (alpha beta : F)
    (n_iter : nat) (tol m : F) (k : nat) :
  stetson_mean_passes values errors mean alpha beta n_iter tol = Ok (m, k) ->
  (n_iter = 0%nat /\ k = 0%nat
   /\ match mean with
      | Some m0 => m = m0
      | None => np_average values (inv_var_of errors) = Ok m
      end)
  \/ ((1 <= k <= n_iter)%nat
      /\ exists n_factor prev : F,
           reweighted_mean alpha beta n_factor values errors
             (inv_var_of errors) prev = Ok m
           /\ ((k < n_iter)%nat ->
               let diff := np_fabs (np_subtract m prev) in
               np_less (np_divide diff m) tol = true
               /\ np_less diff tol = true)).
Proof.
  unfold stetson_mean_passes. cbv zeta. intros Hrun.
  apply bind_Ok in Hrun as (q & _ & Hrun).
  apply bind_Ok in Hrun as (m0 & Hstart & Hrun).
  pose proof (stetson_loop_passes _ _ _ _ _ _ _ _ _ _ _ _ Hrun) as Hbudget.
  apply stetson_loop_exit in Hrun
    as [(-> & -> & ->) | (Hk & prev & Hprev & Hexit)].
  - left. split; [reflexivity |]. split; [reflexivity |].
    destruct mean as [m1|]; [injection Hstart as ->; reflexivity | exact Hstart].
  - right. split; [lia |]. exists (np_sqrt q), prev.
    split; [exact Hprev |]. intros Hlt. cbv zeta.
    apply andb_prop. apply Hexit. lia.
Qed.

Lemma stetson_mean_exit_witness :
  (20%nat = 0%nat /\ 1%nat = 0%nat
   /\ np_average [10; 10; 10; 10]%float (inv_var_of [1; 1; 1; 1]%float)
      = Ok 10%float)
  \/ ((1 <= 1 <= 20)%nat
      /\ exists n_factor prev : float,
           reweighted_mean 2%float 2%float n_factor [10; 10; 10; 10]%float
             [1; 1; 1; 1]%float (inv_var_of [1; 1; 1; 1]%float) prev
           = Ok 10%float
           /\ ((1 < 20)%nat ->
               let diff := np_fabs (np_subtract 10%float prev) in
               np_less (np_divide diff 10%float) 1e-6%float = true
               /\ np_less diff 1e-6%float = true)).
Proof.
  apply (stetson_mean_exit [10; 10; 10; 10]%float [1; 1; 1; 1]%float None
           2%float 2%float 20 1e-6%float 10%float 1).
  reflexivity.
Defined.
